(** * A streaming learner pipeline: trainer, preprocess, forward_layer,
      backward_layer and logger

    Shallow embedding of the C++ sources and the properties proved about
    them.  The numeric kernel of [math_layer.cpp] is written once, over an
    interface of arithmetic operations, and read at two instances: IEEE-754
    binary32/binary64 (what the program computes with) and the real numbers
    (the reading under which "gradient" has a meaning).  Streams are lists
    of text lines; the extraction and insertion operators of the C++ stream
    library are modelled on strings. *)

From Stdlib Require Import ZArith Bool Lia.
From Stdlib Require Import Ascii String List.
From Stdlib Require Import Floats.SpecFloat.
From Stdlib Require Import Reals Lra.
Import ListNotations.

Local Open Scope Z_scope.

(** ** Arithmetic interface *)

(** [flt] stands for the C++ type [float], [dbl] for [double].  [flit m e]
    is the floating literal whose decimal value is [m * 10^e]. *)
Class Arith : Type := {
  flt : Type;
  dbl : Type;
  flit : Z -> Z -> flt;
  fadd : flt -> flt -> flt;
  fsub : flt -> flt -> flt;
  fmul : flt -> flt -> flt;
  fdiv : flt -> flt -> flt;
  fgt : flt -> flt -> bool;
  dlit0 : dbl;
  dadd : dbl -> dbl -> dbl;
  dmul : dbl -> dbl -> dbl;
  dsqrt : dbl -> dbl;
  f2d : flt -> dbl;
  d2f : dbl -> flt
}.

(** ** Arrays and counted loops *)

Section Arrays.
Context {T : Type}.

(** [a[i]], with [d] standing for an element outside the array. *)
Definition get (d : T) (a : list T) (i : nat) : T := nth i a d.

(** [a[i] = v]. *)
Fixpoint upd (a : list T) (i : nat) (v : T) : list T :=
  match a, i with
  | [], _ => []
  | _ :: r, O => v :: r
  | h :: r, S i' => h :: upd r i' v
  end.
End Arrays.

(** [for (std::size_t i = 0; i < n; ++i) body], threading the state. *)
Definition for_ {S : Type} (n : nat) (body : nat -> S -> S) (s0 : S) : S :=
  fold_left (fun s i => body i s) (seq 0 n) s0.

(** ** IEEE-754 arithmetic: [float] is binary32, [double] is binary64

    Every operation is rounded to nearest, ties to even, in the format of
    its type, one operation at a time: no fused multiply-add and no excess
    precision. *)

Module ieee.
Definition float32 : Type := spec_float.
Definition float64 : Type := spec_float.

(** The exact integer [z] as an unrounded floating value. *)
Definition exact_Z (z : Z) : spec_float :=
  match z with
  | Z0 => S754_zero false
  | Zpos m => S754_finite false m 0
  | Zneg m => S754_finite true m 0
  end.

(** Rounding of an exact value to a format: what a conversion between
    floating types, or from an integer, computes. *)
Definition round_to (prec emax : Z) (v : spec_float) : spec_float :=
  match v with
  | S754_finite s m e => binary_normalize prec emax (cond_Zopp s (Zpos m)) e s
  | _ => v
  end.

(** The decimal [m * 10^e], correctly rounded. *)
Definition of_decimal (prec emax : Z) (m e : Z) : spec_float :=
  if 0 <=? e
  then round_to prec emax (exact_Z (m * 10 ^ e))
  else SFdiv prec emax (exact_Z m) (exact_Z (10 ^ (- e))).

Definition f32_zero : float32 := S754_zero false.
Definition f32_one : float32 := S754_finite false 8388608 (-23).

#[export] Instance ieee_arith : Arith := {|
  flt := float32;
  dbl := float64;
  flit := of_decimal 24 128;
  fadd := SFadd 24 128;
  fsub := SFsub 24 128;
  fmul := SFmul 24 128;
  fdiv := SFdiv 24 128;
  fgt := fun a b => SFltb b a;
  dlit0 := S754_zero false;
  dadd := SFadd 53 1024;
  dmul := SFmul 53 1024;
  dsqrt := SFsqrt 53 1024;
  f2d := round_to 53 1024;
  d2f := round_to 24 128
|}.

Definition valid32 (v : float32) : bool := valid_binary 24 128 v.
End ieee.

(** ** Real arithmetic: the numbers that the floating values stand for *)

Module real.
Local Open Scope R_scope.

Definition gt (a b : R) : bool := if Rlt_dec b a then true else false.

(** The decimal [m * 10^e]. *)
Definition lit (m e : Z) : R :=
  if (0 <=? e)%Z then IZR (m * 10 ^ e) else IZR m / IZR (10 ^ (- e)).

#[export] Instance real_arith : Arith := {|
  flt := R;
  dbl := R;
  flit := lit;
  fadd := Rplus;
  fsub := Rminus;
  fmul := Rmult;
  fdiv := Rdiv;
  fgt := gt;
  dlit0 := 0;
  dadd := Rplus;
  dmul := Rmult;
  dsqrt := sqrt;
  f2d := fun v => v;
  d2f := fun v => v
|}.
End real.

(** ** The stream library: formatted extraction and insertion

    What [operator>>] and [operator<<] of the C++ standard library do on
    [int], [std::size_t], [char] and [float] with the default flags and the
    "C" locale.  This is library code, outside the repository; it is
    modelled here so that the parsers and printers of [common.cpp] and the
    parameter files of [math_layer.cpp] can be executed. *)

Module text.
Import ieee.
Local Open Scope string_scope.
Local Open Scope Z_scope.

Definition code (c : ascii) : Z := Z.of_N (N_of_ascii c).

Definition isspace (c : ascii) : bool :=
  (code c =? 32) || ((9 <=? code c) && (code c <=? 13)).

Definition digit_of (c : ascii) : option Z :=
  if (48 <=? code c) && (code c <=? 57) then Some (code c - 48) else None.

Definition digit_char (d : Z) : ascii := ascii_of_N (Z.to_N (48 + d)).

Fixpoint skipws (s : string) : string :=
  match s with
  | String c r => if isspace c then skipws r else s
  | EmptyString => s
  end.

(** Reads the longest run of decimal digits: the value accumulated onto
    [acc], the number of digits added to [cnt], and the rest. *)
Fixpoint take_digits (s : string) (acc : Z) (cnt : nat)
  : Z * nat * string :=
  match s with
  | String c r =>
      match digit_of c with
      | Some d => take_digits r (acc * 10 + d) (S cnt)
      | None => (acc, cnt, s)
      end
  | EmptyString => (acc, cnt, s)
  end.

Definition read_sign (s : string) : bool * string :=
  match s with
  | String "-" r => (true, r)
  | String "+" r => (false, r)
  | _ => (false, s)
  end.

(** Outcome of one formatted extraction. *)
Inductive extracted (T : Type) : Type :=
| Got (v : T) (rest : string)  (* a value was read *)
| Bad (v : T)                  (* failbit; [v] is stored in the target *)
| Eof.                         (* failbit before anything is read; the
                                  target keeps its value *)
Arguments Got {T} _ _.
Arguments Bad {T} _.
Arguments Eof {T}.

Definition INT_MAX : Z := 2147483647.
Definition INT_MIN : Z := -2147483648.
Definition SIZE_MAX : Z := 18446744073709551615.

Definition extract_int (s : string) : extracted Z :=
  match skipws s with
  | EmptyString => Eof
  | s1 =>
      let '(neg, s2) := read_sign s1 in
      let '(mag, n, s3) := take_digits s2 0 0 in
      if (n =? 0)%nat then Bad 0
      else
        let v := if neg then - mag else mag in
        if v <? INT_MIN then Bad INT_MIN
        else if INT_MAX <? v then Bad INT_MAX
        else Got v s3
  end.

Definition extract_size_t (s : string) : extracted Z :=
  match skipws s with
  | EmptyString => Eof
  | s1 =>
      let '(neg, s2) := read_sign s1 in
      let '(mag, n, s3) := take_digits s2 0 0 in
      if (n =? 0)%nat then Bad 0
      else if SIZE_MAX <? mag then Bad SIZE_MAX
      else Got (if neg then (- mag) mod (SIZE_MAX + 1) else mag) s3
  end.

Definition extract_char (s : string) : extracted ascii :=
  match skipws s with
  | EmptyString => Eof
  | String c r => Got c r
  end.

Definition FLT_MAX : float32 := SFmax_float 24 128.

(** The exponent part of a floating literal, when there is one: whether
    it is well formed, its value, and the rest. *)
Definition take_exponent (s : string) : bool * Z * string :=
  match s with
  | String c r =>
      if (code c =? 101) || (code c =? 69) then
        let '(eneg, r1) := read_sign r in
        let '(ev, ne, r2) := take_digits r1 0 0 in
        ((0 <? ne)%nat, if eneg then - ev else ev, r2)
      else (true, 0, s)
  | EmptyString => (true, 0, s)
  end.

Definition extract_float (s : string) : extracted float32 :=
  match skipws s with
  | EmptyString => Eof
  | s1 =>
      let '(neg, s2) := read_sign s1 in
      let '(ip, ni, s3) := take_digits s2 0 0 in
      let '(m, nf, s4) :=
        match s3 with
        | String "." r => take_digits r ip 0
        | _ => (ip, O, s3)
        end in
      if (ni + nf =? 0)%nat then Bad f32_zero
      else
        let '(ok, ex, s5) := take_exponent s4 in
        if negb ok then Bad f32_zero
        else
          let v := if m =? 0 then S754_zero neg
                   else of_decimal 24 128 (if neg then - m else m)
                          (ex - Z.of_nat nf) in
          match v with
          | S754_infinity sg =>
              Bad (if sg then SFopp FLT_MAX else FLT_MAX)
          | _ => Got v s5
          end
  end.

(** *** Insertion *)

Fixpoint dec_digits (fuel : nat) (n : Z) (acc : string) : string :=
  match fuel with
  | O => acc
  | S f =>
      let acc' := String (digit_char (n mod 10)) acc in
      if n / 10 =? 0 then acc' else dec_digits f (n / 10) acc'
  end.

(** Decimal digits of [n >= 0], in front of [rest]. *)
Definition put_nat (n : Z) (rest : string) : string :=
  dec_digits (S (Z.to_nat (Z.log2 n))) n rest.

Definition put_int (z : Z) : string :=
  if z <? 0 then String "-" (put_nat (- z) "") else put_nat z "".

(** Number of decimal digits of [n >= 1]. *)
Fixpoint ndigits10 (fuel : nat) (n : Z) : Z :=
  match fuel with
  | O => 0
  | S f => if n <? 10 then 1 else 1 + ndigits10 f (n / 10)
  end.

(** Least [k >= 1] with [num * 10^k >= den], for [0 < num < den]. *)
Fixpoint lead_zeros (fuel : nat) (num den : Z) (k : Z) : Z :=
  match fuel with
  | O => k
  | S f => if den <=? num * 10 then k else lead_zeros f (num * 10) den (k + 1)
  end.

(** [floor (log10 (num / den))] for a positive rational. *)
Definition decimal_exponent (num den : Z) : Z :=
  if den <=? num
  then ndigits10 (S (Z.to_nat (Z.log2 num))) (num / den) - 1
  else - lead_zeros (S (Z.to_nat (Z.log2 den))) num den 1.

Definition round_half_even (num den : Z) : Z :=
  let q := num / den in
  let r := num mod den in
  match 2 * r ?= den with
  | Lt => q
  | Eq => if Z.even q then q else q + 1
  | Gt => q + 1
  end.

Fixpoint strip_zeros_rev (l : list ascii) : list ascii :=
  match l with
  | c :: r => if (code c =? 48) then strip_zeros_rev r else l
  | [] => []
  end.

Definition strip_trailing_zeros (s : string) : string :=
  string_of_list_ascii
    (rev (strip_zeros_rev (rev (list_ascii_of_string s)))).

Definition with_point (ip fp : string) : string :=
  match strip_trailing_zeros fp with
  | EmptyString => ip
  | fp' => ip ++ "." ++ fp'
  end.

Fixpoint zeros_str (n : nat) : string :=
  match n with O => "" | S k => String "0" (zeros_str k) end.

(** [printf("%.6g")] of the positive rational [num / den]. *)
Definition fmt_g6 (num den : Z) : string :=
  let X0 := decimal_exponent num den in
  let n0 := if 0 <=? 5 - X0
            then round_half_even (num * 10 ^ (5 - X0)) den
            else round_half_even num (den * 10 ^ (X0 - 5)) in
  let '(n, X) := if n0 =? 1000000 then (100000, X0 + 1) else (n0, X0) in
  let ds := put_nat n "" in
  if (X <? -4) || (6 <=? X) then
    with_point (substring 0 1 ds) (substring 1 5 ds)
      ++ "e" ++ (if X <? 0 then "-" else "+")
      ++ (if Z.abs X <? 10 then "0" else "") ++ put_nat (Z.abs X) ""
  else if 0 <=? X then
    with_point (substring 0 (Z.to_nat (X + 1)) ds)
               (substring (Z.to_nat (X + 1)) (Z.to_nat (5 - X)) ds)
  else
    with_point "0" (zeros_str (Z.to_nat (- X - 1)) ++ ds).

(** [os << v] for a [float] or a [double] at the default precision 6. *)
Definition put_float (v : spec_float) : string :=
  match v with
  | S754_zero sg => if sg then "-0" else "0"
  | S754_infinity sg => if sg then "-inf" else "inf"
  | S754_nan => "nan"
  | S754_finite sg m e =>
      (if sg then "-" else "") ++
      (if 0 <=? e then fmt_g6 (Zpos m * 2 ^ e) 1
       else fmt_g6 (Zpos m) (2 ^ (- e)))
  end.

(** Nothing at the head of [rest] continues a numeral. *)
Definition stops (rest : string) : Prop :=
  match rest with
  | EmptyString => True
  | String c _ => digit_of c = None
  end.
End text.

(** ** common.hpp *)

Module common.
Definition INPUT_DIM : nat := 4.

(** [struct Sample { float x[INPUT_DIM]; float y; int id; }] *)
Record Sample {A : Arith} : Type := mkSample {
  x : list flt;
  y : flt;
  id : Z
}.
Arguments mkSample {A} _ _ _.

Import ieee text.
Local Open Scope string_scope.

Definition zero_sample : Sample := mkSample (repeat f32_zero INPUT_DIM) f32_zero 0.

(** The body of the two field loops: one [float] into [out.x[i]], then,
    when [sep] says so, a comma.  [None] is an early [return false]. *)
Definition read_feature (sep : bool) (i : nat)
    (st : option (list float32 * string)) : option (list float32 * string) :=
  match st with
  | None => None
  | Some (xs, s) =>
      match extract_float s with
      | Got v s1 =>
          if sep && (i <? INPUT_DIM - 1)%nat then
            match extract_char s1 with
            | Got c s2 =>
                if Ascii.eqb c "," then Some (upd xs i v, s2) else None
            | _ => None
            end
          else Some (upd xs i v, s1)
      | _ => None
      end
  end.

Definition parse_csv_line (line : string) : option Sample :=
  match extract_int line with
  | Got i s1 =>
      match extract_char s1 with
      | Got c s2 =>
          if negb (Ascii.eqb c ",") then None else
          match for_ INPUT_DIM (read_feature true)
                  (Some (x zero_sample, s2)) with
          | Some (xs, s3) =>
              match extract_char s3 with
              | Got c' s4 =>
                  if negb (Ascii.eqb c' ",") then None else
                  match extract_float s4 with
                  | Got l _ => Some (mkSample xs l i)
                  | _ => None
                  end
              | _ => None
              end
          | None => None
          end
      | _ => None
      end
  | _ => None
  end.

Definition sample_to_line (s : Sample) : string :=
  let oss := put_int (id s) in
  let oss := for_ INPUT_DIM (fun i oss =>
               oss ++ " " ++ put_float (get f32_zero (x s) i)) oss in
  oss ++ " " ++ put_float (y s).

Definition parse_sample_line (line : string) : option Sample :=
  match extract_int line with
  | Got i s1 =>
      match for_ INPUT_DIM (read_feature false)
              (Some (x zero_sample, s1)) with
      | Some (xs, s2) =>
          match extract_float s2 with
          | Got l _ => Some (mkSample xs l i)
          | _ => None
          end
      | None => None
      end
  | _ => None
  end.
End common.

(** ** math_layer.cpp: the numeric kernel *)

Module math.
Import common.

Section Kernel.
Context {A : Arith}.

Definition HIDDEN_DIM : nat := 8.
Definition f0 : flt := flit 0 0.
Definition LEARNING_RATE : flt := flit 1 (-3).
Definition FEATURE_MEAN : list flt := [f0; f0; f0; f0].
Definition FEATURE_STD : list flt :=
  [flit 1 0; flit 1 0; flit 1 0; flit 1 0].

(** The process-wide arrays [g_W1], [g_b1], [g_w2] and [g_b2], as one
    value passed through every function that reads or writes them. *)
Record Params : Type := mkParams {
  g_W1 : list (list flt);
  g_b1 : list flt;
  g_w2 : list flt;
  g_b2 : flt
}.

Definition initial_params : Params :=
  let p := flit 10 (-2) in
  let n := flit (-10) (-2) in
  {| g_W1 := [ [p; f0; f0; f0]; [f0; p; f0; f0];
               [f0; f0; p; f0]; [f0; f0; f0; p];
               [n; f0; f0; f0]; [f0; n; f0; f0];
               [f0; f0; n; f0]; [f0; f0; f0; n] ];
     g_b1 := [f0; f0; f0; f0; f0; f0; f0; f0];
     g_w2 := [flit 5 (-2); flit 5 (-2); flit 5 (-2); flit 5 (-2);
              flit (-5) (-2); flit (-5) (-2); flit (-5) (-2);
              flit (-5) (-2)];
     g_b2 := f0 |}.

Definition at1 (a : list flt) (i : nat) : flt := get f0 a i.
Definition at2 (m : list (list flt)) (j k : nat) : flt :=
  get f0 (get [] m j) k.
Definition upd2 (m : list (list flt)) (j k : nat) (v : flt) :=
  upd m j (upd (get [] m j) k v).
Definition zeros (n : nat) : list flt := repeat f0 n.

Definition normalize_features (xs : list flt) : list flt :=
  for_ INPUT_DIM (fun i xs =>
    upd xs i (fdiv (fsub (at1 xs i) (at1 FEATURE_MEAN i))
                   (at1 FEATURE_STD i))) xs.

Definition augment (xs : list flt) : list flt :=
  if (0 <? INPUT_DIM)%nat
  then upd xs (INPUT_DIM - 1)
         (fmul (at1 xs (INPUT_DIM - 1)) (at1 xs (INPUT_DIM - 1)))
  else xs.

Definition relu (z : flt) : flt := if fgt z f0 then z else f0.

(** Results are returned in the order of the reference parameters:
    [z1], [a1], [yhat]. *)
Definition forward_all (p : Params) (s : Sample)
  : list flt * list flt * flt :=
  let '(z1, a1) :=
    for_ HIDDEN_DIM (fun j '(z1, a1) =>
      let z := for_ INPUT_DIM (fun k z =>
                 fadd z (fmul (at2 (g_W1 p) j k) (at1 (x s) k)))
                 (at1 (g_b1 p) j) in
      (upd z1 j z, upd a1 j (relu z)))
      (zeros HIDDEN_DIM, zeros HIDDEN_DIM) in
  let z2 := for_ HIDDEN_DIM (fun j z2 =>
              fadd z2 (fmul (at1 (g_w2 p) j) (at1 a1 j))) (g_b2 p) in
  (z1, a1, z2).

(** The four gradient arrays that [backward_internal] fills before it
    touches any parameter. *)
Record Grads : Type := mkGrads {
  dL_dW1 : list (list flt);
  dL_db1 : list flt;
  dL_dw2 : list flt;
  dL_db2 : flt
}.

Definition gradients (p : Params) (s : Sample) (y_hat : flt)
    (z1 a1 : list flt) : Grads :=
  let diff := fsub y_hat (y s) in
  let dL_dz2 := diff in
  let dw2 := for_ HIDDEN_DIM (fun j g =>
               upd g j (fmul dL_dz2 (at1 a1 j))) (zeros HIDDEN_DIM) in
  let db2 := dL_dz2 in
  let dz1 := for_ HIDDEN_DIM (fun j g =>
               let dL_da1 := fmul dL_dz2 (at1 (g_w2 p) j) in
               upd g j (if fgt (at1 z1 j) f0 then dL_da1 else f0))
               (zeros HIDDEN_DIM) in
  let '(dW1, db1) :=
    for_ HIDDEN_DIM (fun j '(dW1, db1) =>
      let db1 := upd db1 j (at1 dz1 j) in
      let dW1 := for_ INPUT_DIM (fun k dW1 =>
                   upd2 dW1 j k (fmul (at1 dz1 j) (at1 (x s) k))) dW1 in
      (dW1, db1))
      (repeat (zeros INPUT_DIM) HIDDEN_DIM, zeros HIDDEN_DIM) in
  {| dL_dW1 := dW1; dL_db1 := db1; dL_dw2 := dw2; dL_db2 := db2 |}.

Definition grad_norm_of (g : Grads) : flt :=
  let sq (v : flt) := dmul (f2d v) (f2d v) in
  let norm_sq :=
    for_ HIDDEN_DIM (fun j n =>
      let n := for_ INPUT_DIM (fun k n =>
                 dadd n (sq (at2 (dL_dW1 g) j k))) n in
      let n := dadd n (sq (at1 (dL_db1 g) j)) in
      dadd n (sq (at1 (dL_dw2 g) j))) dlit0 in
  let norm_sq := dadd norm_sq (sq (dL_db2 g)) in
  d2f (dsqrt norm_sq).

(** The "Parameter update (SGD)" loop. *)
Definition sgd_update (p : Params) (g : Grads) : Params :=
  let '(W1, b1, w2) :=
    for_ HIDDEN_DIM (fun j '(W1, b1, w2) =>
      let W1 := for_ INPUT_DIM (fun k W1 =>
                  upd2 W1 j k (fsub (at2 W1 j k)
                    (fmul LEARNING_RATE (at2 (dL_dW1 g) j k)))) W1 in
      let b1 := upd b1 j (fsub (at1 b1 j)
                  (fmul LEARNING_RATE (at1 (dL_db1 g) j))) in
      let w2 := upd w2 j (fsub (at1 w2 j)
                  (fmul LEARNING_RATE (at1 (dL_dw2 g) j))) in
      (W1, b1, w2))
      (g_W1 p, g_b1 p, g_w2 p) in
  {| g_W1 := W1; g_b1 := b1; g_w2 := w2;
     g_b2 := fsub (g_b2 p) (fmul LEARNING_RATE (dL_db2 g)) |}.

(** [0.5f * diff * diff] *)
Definition half_square (diff : flt) : flt :=
  fmul (fmul (flit 5 (-1)) diff) diff.

(** Returns the new parameters, [loss_out] and [grad_norm_out]. *)
Definition backward_internal (p : Params) (s : Sample) (y_hat : flt)
    (z1 a1 : list flt) : Params * flt * flt :=
  let diff := fsub y_hat (y s) in
  let loss_out := half_square diff in
  let g := gradients p s y_hat z1 a1 in
  let grad_norm_out := grad_norm_of g in
  (sgd_update p g, loss_out, grad_norm_out).

Definition normalize_sample (s : Sample) : Sample :=
  mkSample (normalize_features (x s)) (y s) (id s).

Definition augment_features (s : Sample) : Sample :=
  mkSample (augment (x s)) (y s) (id s).

Definition compute_forward (p : Params) (s : Sample) : flt :=
  let '(_, _, y_hat) := forward_all p s in y_hat.

Definition compute_backward_and_update (p : Params) (s : Sample)
    (y_hat : flt) : Params * flt * flt :=
  let '(z1, a1, y_hat_check) := forward_all p s in
  backward_internal p s y_hat_check z1 a1.
End Kernel.

(** *** Parameter files *)

Import ieee text.
Local Open Scope string_scope.
Local Open Scope Z_scope.

(** A disk: what a path opens to, if it opens for reading, and whether it
    can be opened for writing. *)
Record disk : Type := mkDisk {
  content : string -> option string;
  writable : string -> bool
}.

Definition store (d : disk) (path data : string) : disk :=
  {| content := fun q => if String.eqb q path then Some data else content d q;
     writable := writable d |}.

(** An output file stream: the bytes already in the file, the bytes
    still in the stream buffer, and every content the file has had since
    it was opened, oldest first. *)
Record ofstream : Type := mkOfstream {
  on_disk : string;
  pending : string;
  seen : list string
}.

(** [std::ofstream ofs(path)]: the file is created or truncated. *)
Definition ofstream_open : ofstream :=
  {| on_disk := ""; pending := ""; seen := [""] |}.

Definition flush (o : ofstream) : ofstream :=
  match pending o with
  | EmptyString => o
  | _ => let c := on_disk o ++ pending o in
         {| on_disk := c; pending := ""; seen := (seen o ++ [c])%list |}
  end.

(** [ofs << t], with a stream buffer of [bufsz] bytes. *)
Definition put (bufsz : Z) (o : ofstream) (t : string) : ofstream :=
  let o' := {| on_disk := on_disk o; pending := pending o ++ t;
               seen := seen o |} in
  if bufsz <=? Z.of_nat (String.length (pending o')) then flush o' else o'.

(** The [<<] calls of [save_parameters], in order. *)
Definition write_parameters (bufsz : Z) (p : Params) (o : ofstream)
  : ofstream :=
  let w := put bufsz in
  let o := w (w (w (w o (put_nat (Z.of_nat HIDDEN_DIM) "")) " ")
                (put_nat (Z.of_nat INPUT_DIM) "")) (String "010" "") in
  let o := for_ HIDDEN_DIM (fun j o =>
             let o := for_ INPUT_DIM (fun k o =>
                        w (w o (put_float (at2 (g_W1 p) j k))) " ") o in
             w o (String "010" "")) o in
  let o := for_ HIDDEN_DIM (fun j o =>
             w (w o (put_float (at1 (g_b1 p) j))) " ") o in
  let o := w o (String "010" "") in
  let o := for_ HIDDEN_DIM (fun j o =>
             w (w o (put_float (at1 (g_w2 p) j))) " ") o in
  let o := w o (String "010" "") in
  w (w o (put_float (g_b2 p))) (String "010" "").

(** [save_parameters]: the result, the disk after the stream is closed,
    and the successive contents of the file at [path] during the call.
    A file that opens is taken to accept every write. *)
Definition save_parameters (bufsz : Z) (p : Params) (d : disk)
    (path : string) : bool * disk * list string :=
  if negb (writable d path) then (false, d, [])
  else
    let o := write_parameters bufsz p ofstream_open in
    let o := flush o in
    (true, store d path (on_disk o), seen o).

(** An input file stream: what is left to read, and [failbit]. *)
Record ifstream : Type := mkIfstream {
  left : string;
  failbit : bool
}.

(** [ifs >> target] for one extraction function: the stream afterwards
    and the value of the target afterwards. *)
Definition read {T : Type} (ex : string -> extracted T)
    (st : ifstream * T) : ifstream * T :=
  let '(ifs, target) := st in
  if failbit ifs then (ifs, target)
  else match ex (left ifs) with
       | Got v rest => ({| left := rest; failbit := false |}, v)
       | Bad v => ({| left := ""; failbit := true |}, v)
       | Eof => ({| left := ""; failbit := true |}, target)
       end.

(** Returns the result and the parameters after the call. *)
Definition load_parameters (p : Params) (d : disk) (path : string)
  : bool * Params :=
  match content d path with
  | None => (false, p)
  | Some data =>
      let ifs := {| left := data; failbit := false |} in
      let '(ifs, hidden_dim) := read extract_size_t (ifs, 0) in
      let '(ifs, input_dim) := read extract_size_t (ifs, 0) in
      if failbit ifs || negb (hidden_dim =? Z.of_nat HIDDEN_DIM)
         || negb (input_dim =? Z.of_nat INPUT_DIM)
      then (false, p)
      else
        let '(ifs, W1) :=
          for_ HIDDEN_DIM (fun j st =>
            for_ INPUT_DIM (fun k '(ifs, W1) =>
              let '(ifs, v) := read extract_float (ifs, at2 W1 j k) in
              (ifs, upd2 W1 j k v)) st) (ifs, g_W1 p) in
        let '(ifs, b1) :=
          for_ HIDDEN_DIM (fun j '(ifs, b1) =>
            let '(ifs, v) := read extract_float (ifs, at1 b1 j) in
            (ifs, upd b1 j v)) (ifs, g_b1 p) in
        let '(ifs, w2) :=
          for_ HIDDEN_DIM (fun j '(ifs, w2) =>
            let '(ifs, v) := read extract_float (ifs, at1 w2 j) in
            (ifs, upd w2 j v)) (ifs, g_w2 p) in
        let '(ifs, b2) := read extract_float (ifs, g_b2 p) in
        (negb (failbit ifs),
         {| g_W1 := W1; g_b1 := b1; g_w2 := w2; g_b2 := b2 |})
  end.
End math.

(** [ch << l << '\n'] on a channel held as the list of its lines. *)
Definition emit (ch : list string) (l : string) : list string :=
  ch ++ [l].

(** ** preprocess.cpp *)

Module preprocess.
Import ieee text common.
Local Open Scope string_scope.
Local Open Scope Z_scope.

(** Standard output and standard error, as the lines written so far. *)
Record state : Type := mkState {
  out : list string;
  err : list string
}.

(** One iteration of the [getline] loop. *)
Definition step (st : state) (line : string) : state :=
  match line with
  | EmptyString => st
  | _ =>
      match parse_csv_line line with
      | None =>
          {| out := out st;
             err := emit (err st) ("preprocess: failed to parse line: " ++ line) |}
      | Some s =>
          let s := math.normalize_sample s in
          {| out := emit (out st) (sample_to_line s); err := err st |}
      end
  end.

(** [run csv_path]; [open_csv] is what opening the file gives, line by
    line.  Returns the exit code, standard output and standard error. *)
Definition run (open_csv : string -> option (list string))
    (csv_path : string) : Z * list string * list string :=
  match open_csv csv_path with
  | None => (1, [], ["preprocess: failed to open CSV file: " ++ csv_path])
  | Some lines =>
      let st := fold_left step lines {| out := []; err := [] |} in
      (0, out st, err st)
  end.
End preprocess.

(** ** forward_layer.cpp *)

Module forward_layer.
Import ieee text common.
Local Open Scope string_scope.
Local Open Scope Z_scope.

Record state : Type := mkState {
  out : list string;
  err : list string
}.

Definition step (st : state) (line : string) : state :=
  match line with
  | EmptyString => st
  | _ =>
      match parse_sample_line line with
      | None =>
          {| out := out st;
             err := emit (err st) ("forward_layer: failed to parse line: " ++ line) |}
      | Some s =>
          let s := math.augment_features s in
          {| out := emit (out st) (sample_to_line s); err := err st |}
      end
  end.

Definition run (stdin : list string) : Z * list string * list string :=
  let st := fold_left step stdin {| out := []; err := [] |} in
  (0, out st, err st).
End forward_layer.

(** ** backward_layer.cpp *)

Module backward_layer.
Import ieee text common.
Local Open Scope string_scope.
Local Open Scope Z_scope.

Inductive Mode : Type := Train | Test.

Definition get_mode (getenv : string -> option string) : Mode :=
  match getenv "BACKWARD_MODE" with
  | None => Train
  | Some EmptyString => Train
  | Some s => if String.eqb s "test" || String.eqb s "TEST"
              then Test else Train
  end.

Definition get_model_path (getenv : string -> option string) : string :=
  match getenv "MODEL_FILE" with
  | Some (String c r) => String c r
  | _ => "logs/model_params.txt"
  end.

(** The parameters, the local [count], and the two output channels. *)
Record state : Type := mkState {
  params : math.Params;
  count : Z;
  out : list string;
  err : list string
}.

(** The line [id loss y_hat]. *)
Definition result_line (i : Z) (loss y_hat : float32) : string :=
  put_int i ++ " " ++ put_float loss ++ " " ++ put_float y_hat.

Definition step (mode : Mode) (st : state) (line : string) : state :=
  match line with
  | EmptyString => st
  | _ =>
      match parse_sample_line line with
      | None =>
          {| params := params st; count := count st; out := out st;
             err := emit (err st) ("backward_layer: failed to parse line: " ++ line) |}
      | Some s =>
          let y_hat := math.compute_forward (params st) s in
          let '(p, loss, grad_norm) :=
            match mode with
            | Train => math.compute_backward_and_update (params st) s y_hat
            | Test =>
                let diff := fsub y_hat (y s) in
                (params st, fmul (fmul (flit 5 (-1)) diff) diff, flit 0 0)
            end in
          {| params := p;
             count := (count st + 1) mod (SIZE_MAX + 1);
             out := emit (out st) (result_line (id s) loss y_hat);
             err := err st |}
      end
  end.

(** Returns the state at the end of the stream; the function's own result
    is the constant 0. *)
Definition run_stream (mode : Mode) (p : math.Params) (stdin : list string)
  : Z * state :=
  (0, fold_left (step mode) stdin
        {| params := p; count := 0; out := []; err := [] |}).

(** [run]: the process starts from [math.initial_params].  Returns the
    exit code, the disk, standard output and standard error. *)
Definition run (bufsz : Z) (getenv : string -> option string)
    (d : math.disk) (stdin : list string)
  : Z * math.disk * list string * list string :=
  let mode := get_mode getenv in
  let model_path := get_model_path getenv in
  let '(p, err0) :=
    match mode with
    | Test =>
        let '(ok, p) := math.load_parameters math.initial_params d model_path in
        if negb ok
        then (p, ["backward_layer: no model file at " ++ model_path
                    ++ ", using initial parameters"])
        else (p, ["backward_layer: loaded parameters from " ++ model_path])
    | Train => (math.initial_params, [])
    end in
  let '(rc, st) := run_stream mode p stdin in
  let '(d, err1) :=
    match mode with
    | Train =>
        let '(ok, d', _) := math.save_parameters bufsz (params st) d model_path in
        if negb ok
        then (d', ["backward_layer: failed to save parameters to "
                     ++ model_path])
        else (d', ["backward_layer: saved parameters to " ++ model_path])
    | Test => (d, [])
    end in
  (rc, d, out st, (err0 ++ err st ++ err1)%list).
End backward_layer.

(** ** logger.cpp *)

Module logger.
Import ieee text.
Local Open Scope string_scope.
Local Open Scope Z_scope.

(** One [getline] that returns a line, together with the signals whose
    handlers ran before the flags are examined in that iteration. *)
Record arrival : Type := mkArrival {
  sigusr1 : bool;
  sigterm : bool;
  line : string
}.

Record state : Type := mkState {
  count : Z;
  total_loss : float64;
  total_yhat : float64;
  g_dump_requested : bool;
  g_terminate_requested : bool;
  out : list string;
  err : list string
}.

Definition initial : state :=
  {| count := 0; total_loss := S754_zero false;
     total_yhat := S754_zero false;
     g_dump_requested := false; g_terminate_requested := false;
     out := []; err := [] |}.

(** [handle_sigusr1] and [handle_sigterm]. *)
Definition deliver (a : arrival) (st : state) : state :=
  {| count := count st; total_loss := total_loss st;
     total_yhat := total_yhat st;
     g_dump_requested := g_dump_requested st || sigusr1 a;
     g_terminate_requested := g_terminate_requested st || sigterm a;
     out := out st; err := err st |}.

(** [ss >> id >> loss >> y_hat] *)
Definition parse_result (l : string) : option (Z * float32 * float32) :=
  match extract_int l with
  | Got i s1 =>
      match extract_float s1 with
      | Got loss s2 =>
          match extract_float s2 with
          | Got y_hat _ => Some (i, loss, y_hat)
          | _ => None
          end
      | _ => None
      end
  | _ => None
  end.

(** [static_cast<double>(count)] *)
Definition double_of_size (n : Z) : float64 :=
  round_to 53 1024 (exact_Z n).

Definition average (total : float64) (n : Z) : float64 :=
  SFdiv 53 1024 total (double_of_size n).

Definition sample_line (i : Z) (loss y_hat : float32) : string :=
  "SAMPLE " ++ put_int i ++ " LOSS " ++ put_float loss
    ++ " YHAT " ++ put_float y_hat.

Definition snapshot_line (n : Z) (avg_loss avg_yhat : float64) : string :=
  "[LOGGER SNAPSHOT] samples=" ++ put_nat n "" ++ " avg_loss="
    ++ put_float avg_loss ++ " avg_yhat=" ++ put_float avg_yhat.

Definition summary_line (n : Z) (avg_loss avg_yhat : float64) : string :=
  "SUMMARY " ++ put_nat n "" ++ " " ++ put_float avg_loss ++ " "
    ++ put_float avg_yhat.

Definition no_samples_note : string := "[LOGGER FINAL] no samples processed".

(** [++count; total_loss += ...; total_yhat += ...; std::cout << ...] *)
Definition account (st : state) (i : Z) (loss y_hat : float32) : state :=
  {| count := (count st + 1) mod (SIZE_MAX + 1);
     total_loss := SFadd 53 1024 (total_loss st) (round_to 53 1024 loss);
     total_yhat := SFadd 53 1024 (total_yhat st) (round_to 53 1024 y_hat);
     g_dump_requested := g_dump_requested st;
     g_terminate_requested := g_terminate_requested st;
     out := emit (out st) (sample_line i loss y_hat);
     err := err st |}.

(** [if (g_dump_requested.load()) { ... }] *)
Definition snapshot_check (st : state) : state :=
  if g_dump_requested st then
    {| count := count st; total_loss := total_loss st;
       total_yhat := total_yhat st;
       g_dump_requested := false;
       g_terminate_requested := g_terminate_requested st;
       out := out st;
       err := if 0 <? count st
              then emit (err st) (snapshot_line (count st)
                       (average (total_loss st) (count st))
                       (average (total_yhat st) (count st)))
              else err st |}
  else st.

(** One iteration of the loop: the state afterwards, and whether the
    iteration left the loop by [break]. *)
Definition iteration (st : state) (a : arrival) : state * bool :=
  let st := deliver a st in
  match line a with
  | EmptyString => (st, g_terminate_requested st)
  | l =>
      match parse_result l with
      | None =>
          ({| count := count st; total_loss := total_loss st;
              total_yhat := total_yhat st;
              g_dump_requested := g_dump_requested st;
              g_terminate_requested := g_terminate_requested st;
              out := out st;
              err := emit (err st) ("logger: failed to parse line: " ++ l) |},
           false)
      | Some (i, loss, y_hat) =>
          let st := snapshot_check (account st i loss y_hat) in
          (st, g_terminate_requested st)
      end
  end.

(** [while (std::getline(std::cin, line)) { ... }] *)
Fixpoint loop (st : state) (stdin : list arrival) : state :=
  match stdin with
  | [] => st
  | a :: rest =>
      let '(st', stop) := iteration st a in
      if stop then st' else loop st' rest
  end.

(** The "Final summary" block. *)
Definition final_summary (st : state) : state :=
  if 0 <? count st then
    {| count := count st; total_loss := total_loss st;
       total_yhat := total_yhat st;
       g_dump_requested := g_dump_requested st;
       g_terminate_requested := g_terminate_requested st;
       out := emit (out st) (summary_line (count st)
                  (average (total_loss st) (count st))
                  (average (total_yhat st) (count st)));
       err := err st |}
  else
    {| count := count st; total_loss := total_loss st;
       total_yhat := total_yhat st;
       g_dump_requested := g_dump_requested st;
       g_terminate_requested := g_terminate_requested st;
       out := out st;
       err := emit (err st) (no_samples_note) |}.

(** Returns the exit code, standard output and standard error. *)
Definition run (stdin : list arrival) : Z * list string * list string :=
  let st := final_summary (loop initial stdin) in
  (0, out st, err st).
End logger.

(** ** <sys/wait.h> *)

(** The status macros of the C library (glibc), outside the repository. *)
Module sys_wait.
Definition WTERMSIG (status : Z) : Z := Z.land status 127.
Definition WEXITSTATUS (status : Z) : Z :=
  Z.shiftr (Z.land status 65280) 8.
Definition WIFEXITED (status : Z) : bool := WTERMSIG status =? 0.
(** [((signed char) ((status & 0x7f) + 1) >> 1) > 0] *)
Definition WIFSIGNALED (status : Z) : bool :=
  let v := Z.land status 127 + 1 in
  let sc := if 128 <=? v then v - 256 else v in
  0 <? Z.shiftr sc 1.
(** The status word of a child that returned [ret], or was killed by
    signal [sig]: [(ret) << 8 | (sig)]. *)
Definition W_EXITCODE (ret sig : Z) : Z := Z.lor (Z.shiftl ret 8) sig.
End sys_wait.

(** ** trainer.cpp *)

Module trainer.
Import text sys_wait.
Local Open Scope string_scope.
Local Open Scope Z_scope.

(** What the operating system answers: whether the n-th [pipe] call
    succeeds, what the n-th [fork] returns in the parent, and the
    successive results of [wait] while there are children to reap (after
    them [wait] returns -1). *)
Record os : Type := mkOs {
  pipe_ok : nat -> bool;
  fork_pid : nat -> Z;
  waits : list (Z * Z)
}.

(** The parent's side of [spawn_child], for the n-th [fork]: the result
    and what [perror] writes. *)
Definition spawn_child (o : os) (n : nat) : Z * list string :=
  let pid := fork_pid o n in
  if pid <? 0 then (-1, ["fork"]) else (pid, []).

Definition exited_line (wpid code : Z) : string :=
  "trainer: child " ++ put_int wpid ++ " exited with status "
    ++ put_int code.

Definition signaled_line (wpid sig : Z) : string :=
  "trainer: child " ++ put_int wpid ++ " terminated by signal "
    ++ put_int sig.

(** The body of the [wait] loop for one reaped child. *)
Definition log_child (wpid status : Z) : list string :=
  if WIFEXITED status then [exited_line wpid (WEXITSTATUS status)]
  else if WIFSIGNALED status then [signaled_line wpid (WTERMSIG status)]
  else [].

(** [while ((wpid = wait(&status)) > 0) { ... }] *)
Fixpoint wait_loop (ws : list (Z * Z)) : list string :=
  match ws with
  | [] => []
  | (wpid, status) :: rest =>
      if 0 <? wpid then (log_child wpid status ++ wait_loop rest)%list
      else []
  end.

(** Returns the exit code and standard error. *)
Definition run (o : os) (csv_path : string) : Z * list string :=
  if negb (pipe_ok o 0) then (1, ["pipe pre->fwd"])
  else if negb (pipe_ok o 1) then (1, ["pipe fwd->bwd"])
  else if negb (pipe_ok o 2) then (1, ["pipe bwd->log"])
  else
    let '(pre_pid, e0) := spawn_child o 0 in
    if pre_pid <? 0 then (1, e0) else
    let '(fwd_pid, e1) := spawn_child o 1 in
    if fwd_pid <? 0 then (1, (e0 ++ e1)%list) else
    let '(bwd_pid, e2) := spawn_child o 2 in
    if bwd_pid <? 0 then (1, (e0 ++ e1 ++ e2)%list) else
    let '(log_pid, e3) := spawn_child o 3 in
    if log_pid <? 0 then (1, (e0 ++ e1 ++ e2 ++ e3)%list) else
    (0, (e0 ++ e1 ++ e2 ++ e3 ++ wait_loop (waits o))%list).
End trainer.

(** ** The vocabulary of the properties *)

(** What the statements below speak of, beyond the functions of the
    program: the records of a stream, the trace of a run, the shape of the
    parameter arrays. *)

Module trainer_spec.
Import text sys_wait trainer.
Local Open Scope string_scope.
Local Open Scope Z_scope.

(** The three pipes and the four forks all succeed. *)
Definition setup_ok (o : os) : bool :=
  pipe_ok o 0 && pipe_ok o 1 && pipe_ok o 2
  && (0 <=? fork_pid o 0) && (0 <=? fork_pid o 1)
  && (0 <=? fork_pid o 2) && (0 <=? fork_pid o 3).

(** The children that the [wait] loop reaps. *)
Fixpoint reaped (ws : list (Z * Z)) : list (Z * Z) :=
  match ws with
  | [] => []
  | (wpid, status) :: rest =>
      if 0 <? wpid then (wpid, status) :: reaped rest else []
  end.

Definition failing_os : os :=
  {| pipe_ok := fun _ => true;
     fork_pid := fun n => 100 + Z.of_nat n;
     waits := [(100, 0); (101, 0); (102, W_EXITCODE 1 0); (103, 0)] |}.
End trainer_spec.

Module math_spec.
Import common math.

Section Generic.
Context {A : Arith}.

(** The gradient arrays that one call of [compute_backward_and_update]
    computes from the parameters and the sample. *)
Definition loss_gradient (p : Params) (s : Sample) : Grads :=
  let '(z1, a1, y_hat) := forward_all p s in
  gradients p s y_hat z1 a1.

(** One step of gradient descent at the fixed learning rate. *)
Definition descend (p : Params) (s : Sample) : Params :=
  sgd_update p (loss_gradient p s).

(** [0.5 * (prediction - label)^2], with the prediction of [p] on [s]. *)
Definition loss (p : Params) (s : Sample) : flt :=
  half_square (fsub (compute_forward p s) (y s)).

(** The dimensions of the four arrays. *)
Definition shaped (p : Params) : Prop :=
  length (g_W1 p) = HIDDEN_DIM
  /\ Forall (fun row => length row = INPUT_DIM) (g_W1 p)
  /\ length (g_b1 p) = HIDDEN_DIM
  /\ length (g_w2 p) = HIDDEN_DIM.


End Generic.
End math_spec.

Module stream_spec.
Import ieee text common backward_layer math_spec.
Local Open Scope string_scope.
Local Open Scope Z_scope.

(** The records of a stream: its lines that parse, in order. *)
Definition parsed (stdin : list string) : list Sample :=
  flat_map (fun l => match parse_sample_line l with
                     | Some s => [s]
                     | None => []
                     end) stdin.


(** The records of a dataset: its lines that [parse_csv_line] accepts. *)
Definition csv_parsed (csv : list string) : list Sample :=
  flat_map (fun l => match parse_csv_line l with
                     | Some s => [s]
                     | None => []
                     end) csv.






End stream_spec.

Module logger_spec.
Import ieee text logger.
Local Open Scope string_scope.
Local Open Scope Z_scope.

(** The records that the loop takes in before it stops: [term] is the
    termination flag on entry. *)
Fixpoint processed (term : bool) (stdin : list arrival)
  : list (Z * float32 * float32) :=
  match stdin with
  | [] => []
  | a :: rest =>
      let term := term || sigterm a in
      match line a with
      | EmptyString => if term then [] else processed term rest
      | l =>
          match parse_result l with
          | None => processed term rest
          | Some r => r :: (if term then [] else processed term rest)
          end
      end
  end.

Definition echo (r : Z * float32 * float32) : string :=
  let '(i, loss, y_hat) := r in sample_line i loss y_hat.

Definition sum_loss (recs : list (Z * float32 * float32)) (t : float64) : float64 :=
  fold_left (fun t r => SFadd 53 1024 t (round_to 53 1024 (snd (fst r)))) recs t.

Definition sum_yhat (recs : list (Z * float32 * float32)) (t : float64) : float64 :=
  fold_left (fun t r => SFadd 53 1024 t (round_to 53 1024 (snd r))) recs t.
End logger_spec.

Module persistence_spec.
Import ieee text common math.
Local Open Scope string_scope.
Local Open Scope Z_scope.

Definition nl : string := String "010" "".

Definition empty_disk : disk :=
  {| content := fun _ => None; writable := fun _ => true |}.

(** A parameter file with the right header and a body that stops after
    three numbers. *)
Definition truncated_file : string := "8 4" ++ nl ++ "1 2 3" ++ nl.

Definition truncated_disk : disk :=
  store empty_disk "logs/model_params.txt" truncated_file.

Definition test_env (name : string) : option string :=
  if String.eqb name "BACKWARD_MODE" then Some "test" else None.

(** Everything written to a stream so far, flushed or not. *)
Definition text_of (o : ofstream) : string := on_disk o ++ pending o.

Definition is_prefix (c t : string) : Prop := exists r, t = c ++ r.

(** The file has only grown since it was opened: it was empty first, and
    each content it has had is a prefix of what it holds now. *)
Definition grown (o : ofstream) : Prop :=
  (exists rest, seen o = "" :: rest)
  /\ Forall (fun c => is_prefix c (on_disk o)) (seen o)
  /\ last (seen o) "" = on_disk o.

(** The text of a parameter file, piece after piece. *)
Definition serialize (p : Params) : string :=
  let t := put_nat (Z.of_nat HIDDEN_DIM) "" ++ " "
           ++ put_nat (Z.of_nat INPUT_DIM) "" ++ nl in
  let t := for_ HIDDEN_DIM (fun j t =>
             for_ INPUT_DIM (fun k t =>
               t ++ put_float (at2 (g_W1 p) j k) ++ " ") t ++ nl) t in
  let t := for_ HIDDEN_DIM (fun j t =>
             t ++ put_float (at1 (g_b1 p) j) ++ " ") t ++ nl in
  let t := for_ HIDDEN_DIM (fun j t =>
             t ++ put_float (at1 (g_w2 p) j) ++ " ") t ++ nl in
  t ++ put_float (g_b2 p) ++ nl.

End persistence_spec.

(** * More of the program *)

(** ** File descriptors *)

(** The descriptor table of a process and the calls of the operating
    system that [trainer.cpp] makes on it (POSIX), outside the
    repository. *)
Module posix.

(** What an open descriptor refers to: something that the process was
    started with, or one end of the [n]-th pipe. *)
Inductive file : Type :=
| inherited (fd : Z)
| pipe_read (n : nat)
| pipe_write (n : nat).

Record descriptor : Type := mkDescriptor {
  target : file;
  cloexec : bool
}.

Definition fdtable : Type := Z -> option descriptor.

Definition bind (t : fdtable) (fd : Z) (d : option descriptor) : fdtable :=
  fun q => if q =? fd then d else t q.

(** The lowest descriptor that is not open, from [from] on, among
    [fuel] of them. *)
Fixpoint lowest_free (t : fdtable) (from : Z) (fuel : nat) : option Z :=
  match fuel with
  | O => None
  | S f =>
      match t from with
      | None => Some from
      | Some _ => lowest_free t (from + 1) f
      end
  end.

(** [pipe(fds)], for the [n]-th pipe, in a process that may hold [limit]
    descriptors: the two lowest free descriptors, or a failure that
    leaves the table as it was. *)
Definition pipe (limit : nat) (n : nat) (t : fdtable)
  : option (Z * Z * fdtable) :=
  match lowest_free t 0 limit with
  | None => None
  | Some r =>
      let t1 := bind t r (Some (mkDescriptor (pipe_read n) false)) in
      match lowest_free t1 0 limit with
      | None => None
      | Some w =>
          Some (r, w, bind t1 w (Some (mkDescriptor (pipe_write n) false)))
      end
  end.

Definition FD_CLOEXEC : Z := 1.

(** [fcntl(fd, F_GETFD)] *)
Definition fcntl_getfd (t : fdtable) (fd : Z) : Z :=
  match t fd with
  | Some d => if cloexec d then FD_CLOEXEC else 0
  | None => -1
  end.

(** [fcntl(fd, F_SETFD, flags)] *)
Definition fcntl_setfd (t : fdtable) (fd flags : Z) : fdtable :=
  match t fd with
  | Some d =>
      bind t fd (Some (mkDescriptor (target d) (Z.testbit flags 0)))
  | None => t
  end.

(** [dup2(oldfd, newfd)]: the copy does not have the close-on-exec
    flag. *)
Definition dup2 (t : fdtable) (oldfd newfd : Z) : Z * fdtable :=
  match t oldfd with
  | None => (-1, t)
  | Some d =>
      if oldfd =? newfd then (newfd, t)
      else (newfd, bind t newfd (Some (mkDescriptor (target d) false)))
  end.

Definition close (t : fdtable) (fd : Z) : fdtable := bind t fd None.

(** What a successful [execvp] leaves open. *)
Definition exec (t : fdtable) : fdtable :=
  fun q => match t q with
           | Some d => if cloexec d then None else Some d
           | None => None
           end.
End posix.

(** ** trainer.cpp, with the descriptor tables *)

Module plumbing.
Import posix.

Definition STDIN_FILENO : Z := 0.
Definition STDOUT_FILENO : Z := 1.

Definition set_cloexec (t : fdtable) (fd : Z) : fdtable :=
  let flags := fcntl_getfd t fd in
  if 0 <=? flags then fcntl_setfd t fd (Z.lor flags FD_CLOEXEC) else t.

(** The branch [pid == 0] of [spawn_child]: the descriptors that the new
    program starts with, or [None] when the child ends in [_exit(1)];
    [exec_ok] tells whether [execvp] succeeds. *)
Definition in_child (exec_ok : bool) (t : fdtable) (stdin_fd stdout_fd : Z)
  : option fdtable :=
  let '(r1, t1) :=
    if (0 <=? stdin_fd) && negb (stdin_fd =? STDIN_FILENO)
    then dup2 t stdin_fd STDIN_FILENO
    else (0, t) in
  if r1 <? 0 then None
  else
    let '(r2, t2) :=
      if (0 <=? stdout_fd) && negb (stdout_fd =? STDOUT_FILENO)
      then dup2 t1 stdout_fd STDOUT_FILENO
      else (0, t1) in
    if r2 <? 0 then None
    else if exec_ok then Some (exec t2) else None.

(** [spawn_child]: what the parent gets back and, when there is a child,
    what becomes of it. *)
Definition spawn_child (pid : Z) (exec_ok : bool) (t : fdtable)
    (stdin_fd stdout_fd : Z) : Z * list (option fdtable) :=
  if pid <? 0 then (-1, [])
  else (pid, [in_child exec_ok t stdin_fd stdout_fd]).

(** [run], up to the [wait] loop: whether it goes on to wait, the
    children in the order of their creation, and the descriptors of the
    trainer afterwards. *)
Definition run (limit : nat) (fork_pid : nat -> Z) (exec_ok : nat -> bool)
    (t : fdtable) : bool * list (option fdtable) * fdtable :=
  match pipe limit 0 t with
  | None => (false, [], t)
  | Some (pre_to_fwd_0, pre_to_fwd_1, t) =>
  match pipe limit 1 t with
  | None => (false, [], t)
  | Some (fwd_to_bwd_0, fwd_to_bwd_1, t) =>
  match pipe limit 2 t with
  | None => (false, [], t)
  | Some (bwd_to_log_0, bwd_to_log_1, t) =>
      let t := set_cloexec t pre_to_fwd_0 in
      let t := set_cloexec t pre_to_fwd_1 in
      let t := set_cloexec t fwd_to_bwd_0 in
      let t := set_cloexec t fwd_to_bwd_1 in
      let t := set_cloexec t bwd_to_log_0 in
      let t := set_cloexec t bwd_to_log_1 in
      let '(pre_pid, c0) :=
        spawn_child (fork_pid 0%nat) (exec_ok 0%nat) t (-1) pre_to_fwd_1 in
      if pre_pid <? 0 then (false, c0, t) else
      let '(fwd_pid, c1) :=
        spawn_child (fork_pid 1%nat) (exec_ok 1%nat) t
          pre_to_fwd_0 fwd_to_bwd_1 in
      if fwd_pid <? 0 then (false, c0 ++ c1, t) else
      let '(bwd_pid, c2) :=
        spawn_child (fork_pid 2%nat) (exec_ok 2%nat) t
          fwd_to_bwd_0 bwd_to_log_1 in
      if bwd_pid <? 0 then (false, c0 ++ c1 ++ c2, t) else
      let '(log_pid, c3) :=
        spawn_child (fork_pid 3%nat) (exec_ok 3%nat) t bwd_to_log_0 (-1) in
      if log_pid <? 0 then (false, c0 ++ c1 ++ c2 ++ c3, t) else
      let t := close t pre_to_fwd_0 in
      let t := close t pre_to_fwd_1 in
      let t := close t fwd_to_bwd_0 in
      let t := close t fwd_to_bwd_1 in
      let t := close t bwd_to_log_0 in
      let t := close t bwd_to_log_1 in
      (true, c0 ++ c1 ++ c2 ++ c3, t)
  end end end.
End plumbing.

Module plumbing_spec.
Import posix plumbing.

(** The descriptors of a stage: its standard input and output are
    [input] and [output], and everything else is what the trainer was
    started with and had not marked close-on-exec. *)
Definition stage (t0 : fdtable) (input output : option descriptor)
    (c : option fdtable) : Prop :=
  exists t, c = Some t
            /\ t STDIN_FILENO = input /\ t STDOUT_FILENO = output
            /\ forall q, q <> STDIN_FILENO -> q <> STDOUT_FILENO ->
                         t q = exec t0 q.

Definition reads (n : nat) : option descriptor :=
  Some (mkDescriptor (pipe_read n) false).
Definition writes (n : nat) : option descriptor :=
  Some (mkDescriptor (pipe_write n) false).

(** A shell's usual start: 0, 1 and 2 open, nothing else. *)
Definition usual : fdtable :=
  fun q => if (0 <=? q) && (q <=? 2)
           then Some (mkDescriptor (inherited q) false) else None.

(** The trainer's table when it forks: the six pipe ends are open and
    marked close-on-exec, they are six different descriptors that were
    free at the start, and nothing else has changed. *)
Record forked (t0 T : fdtable) (r0 w0 r1 w1 r2 w2 : Z) : Prop := {
  at_r0 : T r0 = Some (mkDescriptor (pipe_read 0) true);
  at_w0 : T w0 = Some (mkDescriptor (pipe_write 0) true);
  at_r1 : T r1 = Some (mkDescriptor (pipe_read 1) true);
  at_w1 : T w1 = Some (mkDescriptor (pipe_write 1) true);
  at_r2 : T r2 = Some (mkDescriptor (pipe_read 2) true);
  at_w2 : T w2 = Some (mkDescriptor (pipe_write 2) true);
  elsewhere : forall q, q <> r0 -> q <> w0 -> q <> r1 -> q <> w1 ->
                        q <> r2 -> q <> w2 -> T q = t0 q;
  were_free : t0 r0 = None /\ t0 w0 = None /\ t0 r1 = None
              /\ t0 w1 = None /\ t0 r2 = None /\ t0 w2 = None;
  from_zero : 0 <= r0 /\ 0 <= w0 /\ 0 <= r1 /\ 0 <= w1 /\ 0 <= r2
              /\ 0 <= w2;
  first_differ : w0 <> r0 /\ r1 <> r0 /\ w1 <> r0 /\ r2 <> r0 /\ w2 <> r0
}.
End plumbing_spec.

(** ** Lines and records *)

Module line_spec.
Import ieee text common.
Local Open Scope string_scope.
Local Open Scope Z_scope.

(** What comes after a line: a blank and anything. *)
Definition spaced (u : string) : Prop := exists t, u = String " " t.

(** The record [7 1 2 3 4 5]. *)
Definition seven : Sample :=
  mkSample [S754_finite false 8388608 (-23); S754_finite false 8388608 (-22);
            S754_finite false 12582912 (-22); S754_finite false 8388608 (-21)]
    (S754_finite false 10485760 (-21)) 7.
End line_spec.

Module stage_spec.
Import ieee text common.
Local Open Scope string_scope.

(** The lines that a stage reports: those that are not empty and that its
    parser refuses. *)
Definition refused (parse : string -> option Sample) (lines : list string)
  : list string :=
  filter (fun l => negb (String.eqb l "")
                   && match parse l with Some _ => false | None => true end)
    lines.

Definition nonempty (lines : list string) : list string :=
  filter (fun l => negb (String.eqb l "")) lines.
End stage_spec.

Module float_spec.
Import ieee.

(** Neither an infinity nor a NaN. *)
Definition finite (v : spec_float) : bool :=
  match v with
  | S754_zero _ | S754_finite _ _ _ => true
  | _ => false
  end.

(** The sign bit of a value that is not a NaN. *)
Definition signbit (v : spec_float) : option bool :=
  match v with
  | S754_zero s | S754_infinity s | S754_finite s _ _ => Some s
  | S754_nan => None
  end.

(** [v < 0.0f] *)
Definition negative (v : spec_float) : bool := SFltb v (S754_zero false).
End float_spec.

Module record_spec.
Import ieee common float_spec.

(** Every feature and the label are finite. *)
Definition all_finite (s : Sample) : bool :=
  forallb (fun i => finite (get f32_zero (x s) i)) (seq 0 INPUT_DIM)
  && finite (y s).

(** Four features, all of them finite. *)
Definition well_formed (xs : list float32) : Prop :=
  length xs = INPUT_DIM /\ Forall (fun v => finite v = true) xs.
End record_spec.

(** ** Printed numbers *)

Module numeral_spec.
Import ieee text.
Local Open Scope string_scope.

Definition is_digit (c : ascii) : bool :=
  match digit_of c with Some _ => true | None => false end.

(** A string of decimal digits. *)
Definition all_digits (s : string) : bool :=
  forallb is_digit (list_ascii_of_string s).

(** What follows a field on a line: nothing, or a blank. *)
Definition ends (rest : string) : Prop :=
  rest = "" \/ exists t, rest = String " " t.

(** The text of a decimal numeral: digits, then perhaps a point and
    digits, then perhaps an exponent. *)
Definition numeral (ip : string) (fp : option string)
    (ex : option (string * string)) : string :=
  ip ++ match fp with Some f => "." ++ f | None => "" end
     ++ match ex with Some (sg, ed) => "e" ++ sg ++ ed | None => "" end.

Local Open Scope Z_scope.

(** A numeral as [put_float] writes a finite value. *)
Definition well_shaped (t : string) : Prop :=
  exists ip fp ex,
    t = numeral ip fp ex
    /\ ip <> "" /\ all_digits ip = true
    /\ match fp with Some f => all_digits f = true | None => True end
    /\ match ex with
       | Some (sg, ed) =>
           (sg = "-" \/ sg = "+") /\ ed <> "" /\ all_digits ed = true
       | None => True
       end.

(** [extract_float] behind the sign. *)
Definition scan (neg : bool) (s2 : string) : extracted float32 :=
  let '(ip, ni, s3) := take_digits s2 0 0 in
  let '(m, nf, s4) :=
    match s3 with
    | String "." r => take_digits r ip 0
    | _ => (ip, O, s3)
    end in
  if (ni + nf =? 0)%nat then Bad f32_zero
  else
    let '(ok, ex, s5) := take_exponent s4 in
    if negb ok then Bad f32_zero
    else
      let v := if m =? 0 then S754_zero neg
               else of_decimal 24 128 (if neg then - m else m)
                      (ex - Z.of_nat nf) in
      match v with
      | S754_infinity sg => Bad (if sg then SFopp FLT_MAX else FLT_MAX)
      | _ => Got v s5
      end.

(** Either the whole numeral is read, or the read fails. *)
Definition read_whole (r : extracted float32) (rest : string) : Prop :=
  (exists v, r = Got v rest) \/ (exists v, r = Bad v).
End numeral_spec.

(** ** The numbers of a parameter file *)

Module load_spec.
Import ieee text common math.
Local Open Scope string_scope.
Local Open Scope Z_scope.

(** The stream after one [ifs >> target] on a [float], and the target
    after it. *)
Definition next (ifs : ifstream) : ifstream :=
  fst (read extract_float (ifs, f32_zero)).
Definition value (ifs : ifstream) (t : float32) : float32 :=
  snd (read extract_float (ifs, t)).

Fixpoint nexts (n : nat) (ifs : ifstream) : ifstream :=
  match n with
  | O => ifs
  | S k => next (nexts k ifs)
  end.

(** The [n] numbers that [n] successive reads find. *)
Definition numbers (n : nat) (ifs : ifstream) : list float32 :=
  map (fun j => value (nexts j ifs) f32_zero) (seq 0 n).

(** The numbers of [n] rows of four. *)
Definition rows (n : nat) (ifs : ifstream) : list (list float32) :=
  map (fun j => numbers 4 (nexts (4 * j) ifs)) (seq 0 n).

(** The stream behind the two dimensions at the head of a file. *)
Definition after_header (data : string) : ifstream :=
  let '(ifs, _) :=
    read extract_size_t ({| left := data; failbit := false |}, 0) in
  fst (read extract_size_t (ifs, 0)).

(** The parameters that a file holds: its numbers, in the order in which
    [save_parameters] writes them. *)
Definition held (data : string) : Params :=
  let ifs := after_header data in
  {| g_W1 := rows 8 ifs;
     g_b1 := numbers 8 (nexts 32 ifs);
     g_w2 := numbers 8 (nexts 40 ifs);
     g_b2 := value (nexts 48 ifs) f32_zero |}.

(** Whether a file is one that [load_parameters] accepts. *)
Definition accepted (data : string) : bool :=
  let '(ifs, hidden_dim) :=
    read extract_size_t ({| left := data; failbit := false |}, 0) in
  let '(ifs, input_dim) := read extract_size_t (ifs, 0) in
  if failbit ifs || negb (hidden_dim =? Z.of_nat HIDDEN_DIM)
     || negb (input_dim =? Z.of_nat INPUT_DIM)
  then false
  else negb (failbit (nexts 49 ifs)).
End load_spec.

(** ** The text of a parameter file *)

Module model_file_spec.
Import ieee text common math persistence_spec float_spec.
Local Open Scope string_scope.
Local Open Scope Z_scope.

(** What is written behind a number: a blank, and a newline at the end
    of a row. *)
Definition behind (last : bool) : string :=
  if last then " " ++ nl else " ".

(** The two arrays of weights and the first bias vector. *)
Definition body (p : Params) : list (float32 * string) :=
  (flat_map (fun j =>
     map (fun k => (at2 (g_W1 p) j k, behind (k =? 3)%nat))
       (seq 0 INPUT_DIM)) (seq 0 HIDDEN_DIM)
   ++ map (fun j => (at1 (g_b1 p) j, behind (j =? 7)%nat)) (seq 0 HIDDEN_DIM)
   ++ map (fun j => (at1 (g_w2 p) j, behind (j =? 7)%nat)) (seq 0 HIDDEN_DIM))%list.

(** The 49 numbers of a parameter file in the order in which
    [save_parameters] writes them, each with what is written behind it. *)
Definition entries (p : Params) : list (float32 * string) :=
  (body p ++ [(g_b2 p, nl)])%list.

(** The text of some entries, in front of [r]. *)
Definition text (es : list (float32 * string)) (r : string) : string :=
  fold_right (fun e r => put_float (fst e) ++ snd e ++ r) r es.

(** No parameter is an infinity or a NaN. *)
Definition params_finite (p : Params) : bool :=
  forallb (fun e => finite (fst e)) (entries p).

(** White space only. *)
Fixpoint all_space (w : string) : bool :=
  match w with
  | EmptyString => true
  | String c r => isspace c && all_space r
  end.

(** What is written behind a number starts with a blank. *)
Definition spaced_off (e : float32 * string) : Prop :=
  exists t, snd e = String " " t /\ all_space t = true.
End model_file_spec.

(** ** The logger's standard error *)

Module monitor_spec.
Import ieee text logger.
Local Open Scope string_scope.

(** A line of standard error that is a snapshot. *)
Definition is_snapshot (l : string) : bool :=
  String.prefix "[LOGGER SNAPSHOT]" l.

Definition snapshots (err : list string) : nat :=
  length (filter is_snapshot err).

(** The [SIGUSR1] deliveries of a run. *)
Definition requests (stdin : list arrival) : nat :=
  length (filter sigusr1 stdin).

(** A line that is neither blank nor a result. *)
Definition malformed (a : arrival) : Prop :=
  line a <> "" /\ parse_result (line a) = None.

Definition complaint (a : arrival) : string :=
  "logger: failed to parse line: " ++ line a.

(** A snapshot that has been requested and not yet written. *)
Definition pending (st : state) : nat :=
  if g_dump_requested st then 1%nat else 0%nat.
End monitor_spec.

(** * Properties *)

(** ** Arrays and loops *)

Module array_facts.

Section Arrays.
Context {T : Type}.

Lemma upd_get_same (d : T) (a : list T) :
  forall i, upd a i (get d a i) = a.
Proof.
  unfold get. induction a as [|h r IH]; intros [|i]; simpl; try reflexivity.
  rewrite IH. reflexivity.
Qed.
End Arrays.

Lemma for_S {S : Type} (n : nat) (body : nat -> S -> S) (s0 : S) :
  for_ (Datatypes.S n) body s0 = body n (for_ n body s0).
Proof.
  unfold for_. rewrite seq_S, fold_left_app. reflexivity.
Qed.

(** A loop whose body keeps a property keeps it; a loop seen through a
    function that commutes with its body is the loop of the image. *)
Lemma for_keeps {S : Type} (P : S -> Prop) (n : nat) (body : nat -> S -> S) :
  (forall j s, P s -> P (body j s)) -> forall s, P s -> P (for_ n body s).
Proof.
  intros Hb. induction n as [|n IH]; intros s Hs; [exact Hs|].
  rewrite for_S. apply Hb, IH, Hs.
Qed.

Lemma for_through {S T : Type} (h : S -> T) (n : nat)
    (body : nat -> S -> S) (body' : nat -> T -> T) :
  (forall j s, h (body j s) = body' j (h s)) ->
  forall s, h (for_ n body s) = for_ n body' (h s).
Proof.
  intros Hb. induction n as [|n IH]; intros s; [reflexivity|].
  rewrite !for_S, Hb, IH. reflexivity.
Qed.
End array_facts.


(** ** Decimal numerals: what is printed reads back *)

Module text_facts.
Import text.
Local Open Scope string_scope.
Local Open Scope Z_scope.

Lemma digit_cases (d : Z) :
  0 <= d < 10 ->
  d = 0 \/ d = 1 \/ d = 2 \/ d = 3 \/ d = 4 \/ d = 5 \/ d = 6 \/ d = 7
  \/ d = 8 \/ d = 9.
Proof. lia. Qed.

Ltac each_digit d H :=
  destruct (digit_cases d H) as [->|[->|[->|[->|[->|[->|[->|[->|[->| ->]]]]]]]]].

Lemma digit_of_digit_char (d : Z) :
  0 <= d < 10 -> digit_of (digit_char d) = Some d.
Proof. intros H; each_digit d H; reflexivity. Qed.

Lemma isspace_digit_char (d : Z) :
  0 <= d < 10 -> isspace (digit_char d) = false.
Proof. intros H; each_digit d H; reflexivity. Qed.

Lemma read_sign_digit_char (d : Z) (r : string) :
  0 <= d < 10 ->
  read_sign (String (digit_char d) r) = (false, String (digit_char d) r).
Proof. intros H; each_digit d H; reflexivity. Qed.

Lemma dec_digits_app (fuel : nat) :
  forall n acc rest,
    dec_digits fuel n acc ++ rest = dec_digits fuel n (acc ++ rest).
Proof.
  induction fuel as [|f IH]; intros n acc rest; simpl; [reflexivity|].
  destruct (n / 10 =? 0); [reflexivity|].
  rewrite IH. reflexivity.
Qed.

Lemma dec_digits_head (fuel : nat) :
  forall n acc, (0 < fuel)%nat ->
    exists d r, 0 <= d < 10 /\ dec_digits fuel n acc = String (digit_char d) r.
Proof.
  induction fuel as [|f IH]; intros n acc Hf; [lia|].
  simpl. destruct (n / 10 =? 0).
  - exists (n mod 10), acc. split; [apply Z.mod_pos_bound; lia|reflexivity].
  - destruct f as [|f'].
    + exists (n mod 10), acc.
      split; [apply Z.mod_pos_bound; lia|reflexivity].
    + apply IH. lia.
Qed.

(** Reading the digits written for [n] accumulates [n]. *)
Lemma take_digits_dec_digits (fuel : nat) :
  forall n rest acc cnt,
    0 <= n < 2 ^ Z.of_nat fuel ->
    exists k : nat,
      ((0 < fuel)%nat -> (0 < k)%nat) /\
      take_digits (dec_digits fuel n rest) acc cnt
      = take_digits rest (acc * 10 ^ Z.of_nat k + n) (cnt + k)%nat.
Proof.
  induction fuel as [|f IH]; intros n rest acc cnt Hn.
  - exists O. split; [lia|]. simpl in *.
    replace n with 0 by lia.
    rewrite Z.mul_1_r, Z.add_0_r, Nat.add_0_r. reflexivity.
  - simpl dec_digits.
    assert (Hd : 0 <= n mod 10 < 10) by (apply Z.mod_pos_bound; lia).
    destruct (n / 10 =? 0) eqn:Hq.
    + exists 1%nat. split; [lia|].
      cbn [take_digits]. rewrite (digit_of_digit_char _ Hd).
      apply Z.eqb_eq in Hq.
      pose proof (Z.div_mod n 10 ltac:(lia)) as Hdm.
      replace (cnt + 1)%nat with (S cnt) by lia.
      f_equal. change (10 ^ Z.of_nat 1) with 10. lia.
    + assert (Hn' : 0 <= n / 10 < 2 ^ Z.of_nat f).
      { split; [apply Z.div_pos; lia|].
        apply Z.div_lt_upper_bound; [lia|].
        rewrite Nat2Z.inj_succ, Z.pow_succ_r in Hn by lia. lia. }
      destruct (IH (n / 10) (String (digit_char (n mod 10)) rest) acc cnt Hn')
        as [k [_ Hk]].
      exists (S k). split; [lia|].
      rewrite Nat2Z.inj_succ, Z.pow_succ_r by lia.
      rewrite Hk. cbn [take_digits].
      rewrite (digit_of_digit_char _ Hd).
      pose proof (Z.div_mod n 10 ltac:(lia)) as Hdm.
      replace (cnt + S k)%nat with (S (cnt + k)) by lia.
      f_equal.
      generalize dependent (10 ^ Z.of_nat k). intros p _. lia.
Qed.

Lemma put_nat_fuel (n : Z) :
  0 <= n -> 0 <= n < 2 ^ Z.of_nat (S (Z.to_nat (Z.log2 n))).
Proof.
  intros Hn. split; [assumption|].
  rewrite Nat2Z.inj_succ, Z2Nat.id by apply Z.log2_nonneg.
  destruct (Z.eq_dec n 0) as [->|Hz]; [reflexivity|].
  apply Z.log2_spec. lia.
Qed.

Lemma take_digits_stops (rest : string) (acc : Z) (cnt : nat) :
  stops rest -> take_digits rest acc cnt = (acc, cnt, rest).
Proof.
  destruct rest as [|c r]; simpl; [reflexivity|].
  intros ->. reflexivity.
Qed.

Lemma take_digits_put_nat (n : Z) (rest : string) :
  0 <= n -> stops rest ->
  exists k : nat, (0 < k)%nat /\
    take_digits (put_nat n "" ++ rest) 0 0 = (n, k, rest).
Proof.
  intros Hn Hs. unfold put_nat. rewrite dec_digits_app. simpl append.
  destruct (take_digits_dec_digits _ n rest 0 O (put_nat_fuel n Hn))
    as [k [Hk E]].
  exists k. split; [apply Hk; lia|].
  rewrite E, take_digits_stops by assumption.
  rewrite Z.mul_0_l. reflexivity.
Qed.

(** The numeral written by [put_int], followed by something that is not
    a digit, reads back as the same number. *)
Lemma read_put_int (z : Z) (rest : string) :
  stops rest ->
  skipws (put_int z ++ rest) = put_int z ++ rest /\
  exists k : nat, (0 < k)%nat /\
    let '(neg, s) := read_sign (put_int z ++ rest) in
    neg = (z <? 0) /\ take_digits s 0 0 = (Z.abs z, k, rest).
Proof.
  intros Hs. unfold put_int.
  destruct (z <? 0) eqn:Hz.
  - apply Z.ltb_lt in Hz. split; [reflexivity|].
    simpl append. cbn [read_sign].
    destruct (take_digits_put_nat (- z) rest ltac:(lia) Hs) as [k [Hk E]].
    exists k. split; [assumption|]. split; [reflexivity|].
    rewrite E. f_equal. f_equal. lia.
  - apply Z.ltb_ge in Hz.
    destruct (take_digits_put_nat z rest Hz Hs) as [k [Hk E]].
    unfold put_nat in *.
    destruct (dec_digits_head (S (Z.to_nat (Z.log2 z))) z "" ltac:(lia))
      as [d [r [Hd Er]]].
    rewrite Er in *. simpl append in *.
    split; [simpl; rewrite (isspace_digit_char _ Hd); reflexivity|].
    exists k. split; [assumption|].
    rewrite (read_sign_digit_char _ _ Hd).
    split; [reflexivity|]. rewrite E. f_equal. f_equal. lia.
Qed.

Lemma put_int_nonempty (z : Z) (rest : string) :
  exists c r, put_int z ++ rest = String c r /\ isspace c = false.
Proof.
  unfold put_int. destruct (z <? 0).
  - eexists _, _. split; [reflexivity|reflexivity].
  - unfold put_nat.
    destruct (dec_digits_head (S (Z.to_nat (Z.log2 z))) z "" ltac:(lia))
      as [d [r [Hd Er]]].
    rewrite Er. eexists _, _. split; [reflexivity|].
    apply isspace_digit_char; assumption.
Qed.

Lemma append_nil_r (s : string) : s ++ "" = s.
Proof. induction s as [|c s IH]; simpl; [|rewrite IH]; reflexivity. Qed.

Lemma append_assoc (a b c : string) : (a ++ b) ++ c = a ++ (b ++ c).
Proof. induction a as [|x a IH]; simpl; [|rewrite IH]; reflexivity. Qed.

Lemma extract_int_range (l : string) (v : Z) (r : string) :
  extract_int l = Got v r -> INT_MIN <= v <= INT_MAX.
Proof.
  unfold extract_int. destruct (skipws l) as [|c t]; [discriminate|].
  destruct (read_sign _) as [neg s2].
  destruct (take_digits s2 0 0) as [[mag n] s3].
  destruct (n =? 0)%nat; [discriminate|].
  destruct (Z.ltb_spec (if neg then - mag else mag) INT_MIN) as [|H1];
    [discriminate|].
  destruct (Z.ltb_spec INT_MAX (if neg then - mag else mag)) as [|H2];
    [discriminate|].
  intros H. injection H as <- _. lia.
Qed.

Lemma append_inv_head (p a b : string) : p ++ a = p ++ b -> a = b.
Proof.
  induction p as [|c p IH]; simpl; intros H; [assumption|].
  injection H as H. auto.
Qed.

Lemma extract_int_put_int (z : Z) (rest : string) :
  INT_MIN <= z <= INT_MAX -> stops rest ->
  extract_int (put_int z ++ rest) = Got z rest.
Proof.
  intros Hr Hs. unfold extract_int.
  destruct (read_put_int z rest Hs) as [Hw [k [Hk Hrd]]].
  rewrite Hw.
  destruct (put_int_nonempty z rest) as [c [r [E _]]].
  rewrite E in *.
  destruct (read_sign (String c r)) as [neg s].
  destruct Hrd as [-> Ht]. rewrite Ht.
  destruct k as [|k]; [lia|]. simpl Nat.eqb. cbv iota.
  assert (Hv : (if z <? 0 then - Z.abs z else Z.abs z) = z).
  { destruct (z <? 0) eqn:Hz; [apply Z.ltb_lt in Hz|apply Z.ltb_ge in Hz]; lia. }
  rewrite Hv.
  destruct (z <? INT_MIN) eqn:H1; [apply Z.ltb_lt in H1; lia|].
  destruct (INT_MAX <? z) eqn:H2; [apply Z.ltb_lt in H2; lia|].
  reflexivity.
Qed.
End text_facts.

(** ** The orchestrator *)

Module trainer_facts.
Import text text_facts sys_wait trainer trainer_spec.
Local Open Scope string_scope.
Local Open Scope Z_scope.

Lemma wait_loop_reaped (ws : list (Z * Z)) :
  wait_loop ws = flat_map (fun c => log_child (fst c) (snd c)) (reaped ws).
Proof.
  induction ws as [|[w st] r IH]; simpl; [reflexivity|].
  destruct (0 <? w); simpl; [rewrite IH|]; reflexivity.
Qed.

Lemma land_127 (a : Z) : Z.land a 127 = a mod 128.
Proof. exact (Z.land_ones a 7 ltac:(lia)). Qed.

Lemma exit_status_word (c : Z) :
  0 <= c < 256 ->
  WIFEXITED (W_EXITCODE c 0) = true /\ WEXITSTATUS (W_EXITCODE c 0) = c.
Proof.
  intros Hc. unfold WIFEXITED, WEXITSTATUS, WTERMSIG, W_EXITCODE.
  rewrite Z.lor_0_r, Z.shiftl_mul_pow2 by lia.
  split.
  - rewrite land_127. apply Z.eqb_eq.
    replace (c * 2 ^ 8) with (c * 2 * 128) by lia.
    apply Z.mod_mul. lia.
  - rewrite Z.shiftr_land, <- Z.shiftl_mul_pow2, Z.shiftr_shiftl_l by lia.
    change (Z.shiftr 65280 8) with (Z.ones 8).
    rewrite Z.sub_diag, Z.shiftl_0_r, Z.land_ones by lia.
    apply Z.mod_small. simpl. lia.
Qed.

Lemma signal_status_word (g : Z) (core : bool) :
  1 <= g < 127 ->
  let status := g + (if core then 128 else 0) in
  WIFEXITED status = false /\ WIFSIGNALED status = true
  /\ WTERMSIG status = g.
Proof.
  intros Hg status.
  assert (E : Z.land status 127 = g).
  { rewrite land_127. unfold status.
    destruct core.
    - rewrite <- (Z.mod_small g 128) at 2 by lia.
      replace (g + 128) with (g + 1 * 128) by lia.
      apply Z.mod_add. lia.
    - rewrite Z.add_0_r. apply Z.mod_small. lia. }
  unfold WIFEXITED, WIFSIGNALED, WTERMSIG. rewrite E.
  split; [apply Z.eqb_neq; lia|]. split; [|reflexivity].
  destruct (128 <=? g + 1) eqn:H; [apply Z.leb_le in H; lia|].
  apply Z.ltb_lt. rewrite Z.shiftr_div_pow2 by lia.
  apply Z.div_str_pos. simpl. lia.
Qed.

Lemma negative_pid (a : Z) : (a <? 0) = negb (0 <=? a).
Proof.
  destruct (Z.ltb_spec a 0), (Z.leb_spec 0 a); try reflexivity; lia.
Qed.

Ltac pid_case o n :=
  let E := fresh "E" in
  destruct (0 <=? fork_pid o n) eqn:E;
  cbn -[Z.ltb Z.leb wait_loop];
  rewrite ?(negative_pid (fork_pid o n)), ?E;
  cbn -[Z.ltb Z.leb wait_loop];
  [|reflexivity].

(** The two log lines never coincide, whatever the numbers in them. *)
Lemma exited_not_signaled (w c w' g : Z) :
  exited_line w c <> signaled_line w' g.
Proof.
  unfold exited_line, signaled_line. intros H.
  apply append_inv_head in H.
  assert (S1 : stops (" exited with status " ++ put_int c)) by reflexivity.
  assert (S2 : stops (" terminated by signal " ++ put_int g)) by reflexivity.
  destruct (read_put_int w _ S1) as [_ [k1 [_ R1]]].
  destruct (read_put_int w' _ S2) as [_ [k2 [_ R2]]].
  rewrite H in R1.
  destruct (read_sign _) as [neg s].
  destruct R1 as [_ R1]. destruct R2 as [_ R2].
  rewrite R1 in R2. discriminate R2.
Qed.

(** C1, as stated, fails: with the third stage exiting with code 1, [run]
    still returns 0. *)
Lemma run_zero_although_stage_failed :
  fst (run failing_os "data.csv") = 0
  /\ In (102, W_EXITCODE 1 0) (reaped (waits failing_os))
  /\ WIFEXITED (W_EXITCODE 1 0) = true
  /\ WEXITSTATUS (W_EXITCODE 1 0) = 1.
Proof.
  repeat split; try reflexivity.
  simpl. right. right. left. reflexivity.
Qed.

(** C1 (amended): [run] returns 0 exactly when the three pipes and the
    four forks succeed, whatever the stages' exit statuses, and 1
    otherwise; after a successful set-up its log is made of one line per
    reaped child, "exited with status c" for a child that exited with
    code c and "terminated by signal g" for a child killed by signal g,
    and no line of the first kind equals a line of the second. *)
Theorem run_result_and_log (o : os) (csv_path : string) :
  fst (run o csv_path) = (if setup_ok o then 0 else 1)
  /\ (setup_ok o = true ->
      snd (run o csv_path)
      = flat_map (fun c => log_child (fst c) (snd c)) (reaped (waits o)))
  /\ (forall wpid c, 0 <= c < 256 ->
      log_child wpid (W_EXITCODE c 0) = [exited_line wpid c])
  /\ (forall wpid g (core : bool), 1 <= g < 127 ->
      log_child wpid (g + (if core then 128 else 0))
      = [signaled_line wpid g])
  /\ (forall w c w' g, exited_line w c <> signaled_line w' g).
Proof.
  split; [|split; [|split; [|split]]].
  - unfold run, setup_ok, spawn_child.
    destruct (pipe_ok o 0), (pipe_ok o 1), (pipe_ok o 2);
      try reflexivity.
    rewrite !(negative_pid (fork_pid o _)).
    pid_case o 0%nat. pid_case o 1%nat. pid_case o 2%nat. pid_case o 3%nat.
    reflexivity.
  - unfold setup_ok. intros H.
    repeat (apply andb_prop in H; destruct H as [H ?]).
    repeat match goal with
           | E : (0 <=? fork_pid o ?n) = true |- _ =>
               assert ((fork_pid o n <? 0) = false)
                 by (rewrite negative_pid, E; reflexivity);
               clear E
           end.
    unfold run, spawn_child.
    repeat match goal with
           | E : _ = _ |- _ => rewrite E; cbn -[Z.ltb wait_loop]
           end.
    apply wait_loop_reaped.
  - intros w c Hc. destruct (exit_status_word c Hc) as [E1 E2].
    unfold log_child. rewrite E1, E2. reflexivity.
  - intros w g core Hg.
    destruct (signal_status_word g core Hg) as [E1 [E2 E3]].
    unfold log_child. rewrite E1, E2, E3. reflexivity.
  - exact exited_not_signaled.
Qed.
End trainer_facts.

(** ** The numeric kernel, for any arithmetic *)

Module math_facts.
Import common math math_spec.





Section Generic.
Context {A : Arith}.

Lemma compute_backward_and_update_eq (p : Params) (s : Sample) (y_hat : flt) :
  compute_backward_and_update p s y_hat
  = (descend p s, loss p s, grad_norm_of (loss_gradient p s)).
Proof.
  unfold compute_backward_and_update, descend, loss, loss_gradient,
    compute_forward, backward_internal.
  destruct (forward_all p s) as [[z1 a1] yh]. reflexivity.
Qed.

(** C10: [compute_backward_and_update] does not look at its [y_hat]
    argument: for every sample and every two values passed as [y_hat] it
    returns the same parameters, the same loss and the same gradient norm,
    all three computed from the prediction of its own forward pass. *)
Theorem backward_ignores_y_hat (p : Params) (s : Sample) (y_hat y_hat' : flt) :
  compute_backward_and_update p s y_hat
  = compute_backward_and_update p s y_hat'
  /\ compute_backward_and_update p s y_hat
     = (sgd_update p (loss_gradient p s),
        half_square (fsub (compute_forward p s) (y s)),
        grad_norm_of (loss_gradient p s)).
Proof.
  split.
  - rewrite !compute_backward_and_update_eq. reflexivity.
  - apply compute_backward_and_update_eq.
Qed.

End Generic.
End math_facts.

(** ** The learner's stream loop *)

Module backward_layer_facts.
Import ieee text common backward_layer math_spec math_facts stream_spec.
Local Open Scope string_scope.
Local Open Scope Z_scope.

Lemma parse_sample_line_empty : parse_sample_line "" = None.
Proof. reflexivity. Qed.

Lemma step_parsed (mode : Mode) (st : state) (l : string) (s : Sample) :
  parse_sample_line l = Some s ->
  step mode st l
  = let y_hat := math.compute_forward (params st) s in
    {| params := match mode with
                 | Train => descend (params st) s
                 | Test => params st
                 end;
       count := (count st + 1) mod (SIZE_MAX + 1);
       out := emit (out st) (result_line (id s) (loss (params st) s) y_hat);
       err := err st |}.
Proof.
  intros H. unfold step.
  destruct l as [|c r]; [rewrite parse_sample_line_empty in H; discriminate|].
  rewrite H. destruct mode.
  - rewrite compute_backward_and_update_eq. reflexivity.
  - unfold loss, math.half_square. reflexivity.
Qed.

Lemma step_unparsed (mode : Mode) (st : state) (l : string) :
  parse_sample_line l = None ->
  params (step mode st l) = params st /\ count (step mode st l) = count st
  /\ out (step mode st l) = out st.
Proof.
  intros H. unfold step. destruct l as [|c r]; [auto|].
  rewrite H. auto.
Qed.

Lemma parsed_cons (l : string) (r : list string) :
  parsed (l :: r)
  = (match parse_sample_line l with Some s => [s] | None => [] end
     ++ parsed r)%list.
Proof. reflexivity. Qed.


Lemma test_fold (stdin : list string) :
  forall st,
    params (fold_left (step Test) stdin st) = params st
    /\ out (fold_left (step Test) stdin st)
       = (out st ++
          map (fun s => result_line (id s) (loss (params st) s)
                          (math.compute_forward (params st) s))
            (parsed stdin))%list.
Proof.
  induction stdin as [|l r IH]; intros st.
  - cbn. rewrite app_nil_r. auto.
  - cbn [fold_left]. rewrite parsed_cons.
    destruct (IH (step Test st l)) as [IHp IHo]. rewrite IHp, IHo.
    destruct (parse_sample_line l) as [s|] eqn:E.
    + rewrite (step_parsed Test st l s E).
      cbn [params out app map]. unfold emit.
      rewrite <- app_assoc. split; reflexivity.
    + destruct (step_unparsed Test st l E) as [Hp [_ Ho]].
      rewrite Hp, Ho. cbn [app]. auto.
Qed.

(** C7: in test mode every record is scored with the loss
    [0.5 * (prediction - label)^2] and no parameter changes: one iteration
    of the loop leaves the parameters as they were, whatever the line, and
    so does the whole stream. *)
Theorem test_mode_frame (p : math.Params) (stdin : list string) :
  (forall st line, params (step Test st line) = params st)
  /\ params (snd (run_stream Test p stdin)) = p
  /\ out (snd (run_stream Test p stdin))
     = map (fun s =>
              result_line (id s)
                (math.half_square (fsub (math.compute_forward p s) (y s)))
                (math.compute_forward p s))
         (parsed stdin).
Proof.
  split; [|split].
  - intros st l. destruct (parse_sample_line l) as [s|] eqn:E.
    + rewrite (step_parsed Test st l s E). reflexivity.
    + apply (step_unparsed Test st l E).
  - unfold run_stream. cbn [snd].
    exact (proj1 (test_fold stdin _)).
  - unfold run_stream. cbn [snd].
    rewrite (proj2 (test_fold stdin _)). reflexivity.
Qed.
End backward_layer_facts.

(** ** The monitor *)

Module logger_facts.
Import ieee text logger logger_spec.
Local Open Scope string_scope.
Local Open Scope Z_scope.

Lemma parse_result_empty : parse_result "" = None.
Proof. reflexivity. Qed.

(** One iteration on a line that parses. *)
Lemma iteration_record (st : state) (a : arrival) (i : Z)
    (loss y_hat : float32) :
  parse_result (line a) = Some (i, loss, y_hat) ->
  iteration st a
  = (snapshot_check (account (deliver a st) i loss y_hat),
     g_terminate_requested st || sigterm a).
Proof.
  intros H. unfold iteration.
  destruct (line a) as [|c r] eqn:E;
    [rewrite parse_result_empty in H; discriminate|].
  rewrite H. f_equal.
  unfold snapshot_check. destruct (g_dump_requested _); reflexivity.
Qed.

(** A request that arrives with a line that is blank, or does not parse,
    is not examined in that iteration: it stays pending. *)
Lemma request_waits_for_a_record (st : state) (a : arrival) :
  parse_result (line a) = None ->
  g_dump_requested (fst (iteration st a)) = g_dump_requested st || sigusr1 a
  /\ err (fst (iteration st a))
     = match line a with
       | EmptyString => err st
       | l => emit (err st) ("logger: failed to parse line: " ++ l)
       end.
Proof.
  intros H. unfold iteration.
  destruct (line a) as [|c r]; [split; reflexivity|].
  rewrite H. split; reflexivity.
Qed.



Lemma processed_length (stdin : list arrival) :
  forall term, (length (processed term stdin) <= length stdin)%nat.
Proof.
  induction stdin as [|a r IH]; intros term; cbn [processed length]; [lia|].
  pose proof (IH (term || sigterm a)) as IH'.
  destruct (line a); [|destruct (parse_result _)];
    destruct (term || sigterm a); cbn [length]; lia.
Qed.

Lemma snapshot_check_frame (st : state) :
  count (snapshot_check st) = count st
  /\ total_loss (snapshot_check st) = total_loss st
  /\ total_yhat (snapshot_check st) = total_yhat st
  /\ g_terminate_requested (snapshot_check st) = g_terminate_requested st
  /\ out (snapshot_check st) = out st.
Proof.
  unfold snapshot_check. destruct (g_dump_requested st); repeat split.
Qed.

(** What the loop leaves in the counters and on standard output. *)
Lemma loop_accumulates (stdin : list arrival) :
  forall st,
    count (loop st stdin)
    = fold_left (fun c _ => (c + 1) mod (SIZE_MAX + 1))
        (processed (g_terminate_requested st) stdin) (count st)
    /\ total_loss (loop st stdin)
       = sum_loss (processed (g_terminate_requested st) stdin) (total_loss st)
    /\ total_yhat (loop st stdin)
       = sum_yhat (processed (g_terminate_requested st) stdin) (total_yhat st)
    /\ out (loop st stdin)
       = (out st ++ map echo (processed (g_terminate_requested st) stdin))%list.
Proof.
  induction stdin as [|a rest IH]; intros st.
  - cbn. rewrite app_nil_r. auto.
  - cbn [loop processed].
    destruct (parse_result (line a)) as [[[i l] yh]|] eqn:E.
    + rewrite (iteration_record st a i l yh E).
      destruct (line a) as [|c r] eqn:El;
        [rewrite parse_result_empty in E; discriminate|].
      rewrite E.
      destruct (snapshot_check_frame (account (deliver a st) i l yh))
        as [Hc [Hl [Hy [Ht Ho]]]].
      destruct (g_terminate_requested st || sigterm a) eqn:T.
      * rewrite Hc, Hl, Hy, Ho. cbn. auto.
      * destruct (IH (snapshot_check (account (deliver a st) i l yh)))
          as [IHc [IHl [IHy IHo]]].
        rewrite IHc, IHl, IHy, IHo, Ht, Hc, Hl, Hy, Ho.
        cbn [account deliver g_terminate_requested count total_loss
             total_yhat out].
        rewrite T. unfold emit, sum_loss, sum_yhat.
        cbn [fold_left map fst snd echo]. rewrite <- app_assoc.
        repeat split; reflexivity.
    + unfold iteration.
      destruct (line a) as [|c r] eqn:El.
      * cbn [deliver g_terminate_requested].
        destruct (g_terminate_requested st || sigterm a) eqn:T.
        -- cbn. rewrite app_nil_r. auto.
        -- destruct (IH (deliver a st)) as [IHc [IHl [IHy IHo]]].
           rewrite IHc, IHl, IHy, IHo.
           cbn [deliver g_terminate_requested count total_loss total_yhat out].
           rewrite T. auto.
      * rewrite E.
        match goal with
        | |- context [loop ?s rest] =>
            destruct (IH s) as [IHc [IHl [IHy IHo]]]
        end.
        rewrite IHc, IHl, IHy, IHo.
        cbn [deliver g_terminate_requested count total_loss total_yhat out].
        auto.
Qed.

Lemma count_steps {T : Type} (recs : list T) :
  forall c, 0 <= c -> c + Z.of_nat (length recs) < SIZE_MAX + 1 ->
    fold_left (fun c _ => (c + 1) mod (SIZE_MAX + 1)) recs c
    = c + Z.of_nat (length recs).
Proof.
  induction recs as [|r rest IH]; intros c H0 H1; cbn [fold_left length] in *.
  - simpl. lia.
  - rewrite Nat2Z.inj_succ in H1.
    rewrite Z.mod_small by lia. rewrite IH by lia. lia.
Qed.

Lemma echo_is_no_summary (r : Z * float32 * float32) (n : Z)
    (a b : float64) :
  echo r <> summary_line n a b.
Proof. destruct r as [[i l] y]. discriminate. Qed.

(** C6: when the loop ends, by the end of the stream or by a stop
    request, the monitor returns 0; if it processed at least one record,
    the last line of its standard output is the one line
    [SUMMARY count average_loss average_prediction], after the echo lines,
    none of which is a summary; if it processed none, its standard output
    is empty and its standard error ends with the note. *)
Theorem final_summary_line (stdin : list arrival) :
  Z.of_nat (length stdin) < SIZE_MAX + 1 ->
  let recs := processed false stdin in
  let n := Z.of_nat (length recs) in
  let '(rc, out, err) := run stdin in
  rc = 0
  /\ (recs <> [] ->
      out = (map echo recs ++
             [summary_line n
                (SFdiv 53 1024 (sum_loss recs (S754_zero false))
                   (double_of_size n))
                (SFdiv 53 1024 (sum_yhat recs (S754_zero false))
                   (double_of_size n))])%list
      /\ Forall (fun l => forall m a b, l <> summary_line m a b)
           (map echo recs))
  /\ (recs = [] ->
      out = [] /\ exists diag, err = (diag ++ [no_samples_note])%list).
Proof.
  intros Hlen recs n. unfold run.
  destruct (loop_accumulates stdin initial) as [Hc [Hl [Hy Ho]]].
  cbn [initial g_terminate_requested count total_loss total_yhat out] in *.
  fold recs in Hc, Hl, Hy, Ho.
  pose proof (processed_length stdin false) as Hle. fold recs in Hle.
  rewrite count_steps in Hc by lia. fold n in Hc. rewrite Z.add_0_l in Hc.
  unfold final_summary. rewrite Hc.
  split; [destruct (0 <? n); reflexivity|]. split.
  - intros Hne.
    assert (0 < n) by (subst n; destruct recs; [congruence|cbn [length]; lia]).
    replace (0 <? n) with true by (symmetry; apply Z.ltb_lt; assumption).
    cbn [out]. rewrite Ho, Hl, Hy. split; [reflexivity|].
    apply Forall_forall. intros l Hin.
    apply in_map_iff in Hin. destruct Hin as [r [<- _]].
    intros m a b. apply echo_is_no_summary.
  - intros He. subst n. rewrite He in *. cbn [length Z.of_nat].
    change (0 <? 0) with false. cbn [out err].
    rewrite Ho. split; [reflexivity|]. eexists. reflexivity.
Qed.

(** A stream of two records. *)
Lemma final_summary_line_witness :
  snd (fst (run [mkArrival false false "1 0.5 0.25";
                 mkArrival false false "2 1.5 0.75"]))
  = ["SAMPLE 1 LOSS 0.5 YHAT 0.25"; "SAMPLE 2 LOSS 1.5 YHAT 0.75";
     "SUMMARY 2 1 0.5"].
Proof.
  pose proof (final_summary_line
                [mkArrival false false "1 0.5 0.25";
                 mkArrival false false "2 1.5 0.75"]
                ltac:(vm_compute; reflexivity)) as H.
  cbv zeta in H.
  destruct (run _) as [[rc o] e]. cbn [fst snd].
  destruct H as [_ [H _]].
  destruct (H ltac:(vm_compute; discriminate)) as [-> _].
  vm_compute. reflexivity.
Defined.
End logger_facts.

(** ** Parameter files *)

Module persistence_facts.
Import ieee text text_facts common math array_facts persistence_spec.
Local Open Scope string_scope.
Local Open Scope Z_scope.

(** *** Loading *)

(** What [load_parameters] does keep: a file that is absent, or whose
    header does not give the dimensions 8 and 4, leaves the parameters as
    they were. *)
Lemma load_absent_or_mismatched (p : Params) (d : disk) (path : string) :
  match content d path with
  | None => load_parameters p d path = (false, p)
  | Some data =>
      let '(ifs, hidden_dim) :=
        read extract_size_t ({| left := data; failbit := false |}, 0) in
      let '(ifs, input_dim) := read extract_size_t (ifs, 0) in
      failbit ifs = true \/ hidden_dim <> 8 \/ input_dim <> 4 ->
      load_parameters p d path = (false, p)
  end.
Proof.
  unfold load_parameters. destruct (content d path) as [data|]; [|reflexivity].
  destruct (read extract_size_t (_, 0)) as [ifs h].
  destruct (read extract_size_t (ifs, 0)) as [ifs' i].
  intros H. change (Z.of_nat HIDDEN_DIM) with 8.
  change (Z.of_nat INPUT_DIM) with 4.
  destruct (failbit ifs'); [reflexivity|].
  destruct (Z.eqb_spec h 8); [|reflexivity].
  destruct (Z.eqb_spec i 4); [|reflexivity].
  destruct H as [H|[H|H]]; [discriminate|contradiction|contradiction].
Qed.

(** C3, at the failing input: on a file whose header is right and whose
    body is truncated, [load_parameters] returns [false] after it has
    overwritten the first three weights; the stage then says that it is
    using the initial parameters and scores the stream with the others. *)
Theorem load_truncated_is_partial :
  let r := load_parameters initial_params truncated_disk
             "logs/model_params.txt" in
  fst r = false
  /\ at2 (g_W1 (snd r)) 0 0 = f32_one
  /\ at2 (g_W1 initial_params) 0 0 = of_decimal 24 128 1 (-1)
  /\ snd r <> initial_params
  /\ (let '(rc, _, out, err) :=
        backward_layer.run 8192 test_env truncated_disk ["1 1 1 1 1 1"] in
      rc = 0
      /\ err = ["backward_layer: no model file at logs/model_params.txt, using initial parameters"]
      /\ out = ["1 0.234612 0.315"])
  /\ backward_layer.out
       (snd (backward_layer.run_stream backward_layer.Test initial_params
               ["1 1 1 1 1 1"]))
     = ["1 0.4802 0.02"].
Proof.
  intros r.
  assert (H1 : at2 (g_W1 (snd r)) 0 0 = f32_one) by (vm_compute; reflexivity).
  assert (H2 : at2 (g_W1 initial_params) 0 0 = of_decimal 24 128 1 (-1))
    by (vm_compute; reflexivity).
  split; [vm_compute; reflexivity|].
  split; [exact H1|]. split; [exact H2|]. split.
  - intros E. rewrite E, H2 in H1. vm_compute in H1. discriminate H1.
  - split; vm_compute; repeat split; reflexivity.
Qed.

(** *** Saving *)

Lemma is_prefix_refl (c : string) : is_prefix c c.
Proof. exists "". symmetry. apply append_nil_r. Qed.

Lemma is_prefix_app (c t r : string) : is_prefix c t -> is_prefix c (t ++ r).
Proof. intros [u ->]. exists (u ++ r). apply append_assoc. Qed.

Lemma grown_open : grown ofstream_open.
Proof.
  repeat split; [exists []; reflexivity|].
  constructor; [apply is_prefix_refl|constructor].
Qed.

Lemma grown_flush (o : ofstream) : grown o -> grown (flush o).
Proof.
  intros [[rest Hh] [Hp Hl]]. unfold flush.
  destruct (pending o) as [|c r] eqn:E; [repeat split; eauto|].
  cbn [seen on_disk]. repeat split.
  - rewrite Hh. eexists. reflexivity.
  - apply Forall_app. split.
    + eapply Forall_impl; [|exact Hp].
      intros a Ha. apply is_prefix_app. exact Ha.
    + constructor; [apply is_prefix_refl|constructor].
  - apply last_last.
Qed.

Lemma grown_put (b : Z) (o : ofstream) (t : string) :
  grown o -> grown (put b o t).
Proof.
  intros H. unfold put.
  destruct (b <=? _); [apply grown_flush|]; exact H.
Qed.

Lemma text_of_flush (o : ofstream) : text_of (flush o) = text_of o.
Proof.
  unfold flush. destruct (pending o) eqn:E; [reflexivity|].
  unfold text_of. cbn [on_disk pending]. rewrite E. apply append_nil_r.
Qed.

Lemma text_of_put (b : Z) (o : ofstream) (t : string) :
  text_of (put b o t) = text_of o ++ t.
Proof.
  unfold put. destruct (b <=? _); [rewrite text_of_flush|];
    unfold text_of; cbn [on_disk pending]; symmetry; apply append_assoc.
Qed.

(** Closing a stream leaves everything written in the file. *)
Lemma closed_stream (o : ofstream) :
  grown o ->
  on_disk (flush o) = text_of o /\ grown (flush o) /\ pending (flush o) = "".
Proof.
  intros G. split; [|split; [apply grown_flush, G|]].
  - unfold flush, text_of. destruct (pending o) eqn:E.
    + symmetry. apply append_nil_r.
    + reflexivity.
  - unfold flush. destruct (pending o) eqn:E; [exact E|reflexivity].
Qed.

Lemma write_parameters_grown (b : Z) (p : Params) (o : ofstream) :
  grown o -> grown (write_parameters b p o).
Proof.
  intros H. unfold write_parameters.
  repeat first
    [ apply grown_put
    | apply for_keeps; [intros ? ? ?|] ]; assumption.
Qed.

Lemma write_parameters_text (b : Z) (p : Params) :
  text_of (write_parameters b p ofstream_open) = serialize p.
Proof.
  unfold write_parameters, serialize.
  repeat first
    [ rewrite text_of_put
    | rewrite (for_through text_of HIDDEN_DIM _
                 (fun j t => t ++ put_float (at1 (g_w2 p) j) ++ " "))
        by (intros; rewrite !text_of_put, append_assoc; reflexivity)
    | rewrite (for_through text_of HIDDEN_DIM _
                 (fun j t => t ++ put_float (at1 (g_b1 p) j) ++ " "))
        by (intros; rewrite !text_of_put, append_assoc; reflexivity)
    | rewrite (for_through text_of HIDDEN_DIM _
                 (fun j t => for_ INPUT_DIM (fun k t =>
                    t ++ put_float (at2 (g_W1 p) j k) ++ " ") t ++ nl))
        by (intros j s; rewrite text_of_put; f_equal;
            apply for_through; intros;
            rewrite !text_of_put, append_assoc; reflexivity) ].
  unfold text_of, ofstream_open. cbn [on_disk pending append].
  rewrite !append_assoc. reflexivity.
Qed.


End persistence_facts.

(** ** Record identity through the stages *)

Module pipeline_facts.
Import ieee text text_facts common backward_layer math_spec math_facts
  stream_spec backward_layer_facts.
Local Open Scope string_scope.
Local Open Scope Z_scope.














End pipeline_facts.

(** ** Two facts of binary32 arithmetic *)

Module ieee_facts.
Import ieee.
Local Open Scope Z_scope.

Lemma sub_zero (v : float32) : SFsub 24 128 v (S754_zero false) = v.
Proof. destruct v as [[|]|[|]| |s m e]; reflexivity. Qed.

Lemma div_eucl_exact (q : positive) (k : Z) :
  0 <= k -> Z.div_eucl (Z.shiftl (Zpos q) k) (2 ^ k) = (Zpos q, 0).
Proof.
  intros Hk.
  pose proof (Z.pow_pos_nonneg 2 k ltac:(lia) Hk) as Hp.
  rewrite Z.shiftl_mul_pow2 by assumption.
  destruct (Z.div_eucl (Zpos q * 2 ^ k) (2 ^ k)) as [a b] eqn:E.
  assert (Ha : a = Zpos q * 2 ^ k / 2 ^ k) by (unfold Z.div; rewrite E; reflexivity).
  assert (Hb : b = (Zpos q * 2 ^ k) mod 2 ^ k)
    by (unfold Z.modulo; rewrite E; reflexivity).
  rewrite Z.div_mul in Ha by lia. rewrite Z.mod_mul in Hb by lia.
  subst. reflexivity.
Qed.

(** The two shapes of a valid finite binary32 number. *)
Lemma bounded_cases (m : positive) (e : Z) :
  SpecFloat.bounded 24 128 m e = true ->
  (e = -149 /\ Zpos (digits2_pos m) <= 24)
  \/ (Zpos (digits2_pos m) = 24 /\ -149 < e <= 104).
Proof.
  unfold SpecFloat.bounded, canonical_mantissa, fexp, emin. intros H.
  apply andb_prop in H. destruct H as [H1 H2].
  apply Z.eqb_eq in H1. apply Z.leb_le in H2. lia.
Qed.

Ltac zfold :=
  change IntDef.Z.min with Z.min in *;
  change IntDef.Z.max with Z.max in *;
  change IntDef.Z.div_eucl with Z.div_eucl in *;
  change IntDef.Z.shiftl with Z.shiftl in *;
  change IntDef.Z.add with Z.add in *;
  change IntDef.Z.sub with Z.sub in *;
  change IntDef.Z.leb with Z.leb in *;
  change IntDef.Z.eqb with Z.eqb in *.

Lemma fexp32 (k : Z) : fexp 24 128 k = Z.max (k - 24) (-149).
Proof. reflexivity. Qed.

Lemma core_subnormal (m : positive) :
  Zpos (digits2_pos m) <= 24 ->
  SFdiv_core_binary 24 128 (Zpos m) (-149) 8388608 (-23)
  = (Zpos m, -149, loc_Exact).
Proof.
  intros Hd. unfold SFdiv_core_binary.
  change (Zdigits2 (Zpos m)) with (Zpos (digits2_pos m)).
  change (Zdigits2 8388608) with 24. zfold. rewrite fexp32.
  replace (Z.min (Z.max (Zpos (digits2_pos m) + -149 - (24 + -23) - 24) (-149))
             (-149 - -23)) with (-149) by lia.
  change (-149 - -23 - -149) with 23. cbv iota.
  change 8388608 with (2 ^ 23).
  rewrite (div_eucl_exact m 23 ltac:(lia)). reflexivity.
Qed.

Lemma core_normal (m : positive) (e : Z) :
  Zpos (digits2_pos m) = 24 -> -149 < e ->
  SFdiv_core_binary 24 128 (Zpos m) e 8388608 (-23)
  = (Zpos m~0, e - 1, loc_Exact).
Proof.
  intros Hd He. unfold SFdiv_core_binary.
  change (Zdigits2 (Zpos m)) with (Zpos (digits2_pos m)).
  change (Zdigits2 8388608) with 24. zfold. rewrite fexp32, Hd.
  replace (Z.min (Z.max (24 + e - (24 + -23) - 24) (-149)) (e - -23))
    with (e - 1) by lia.
  replace (e - -23 - (e - 1)) with 24 by lia. cbv iota.
  change 8388608 with (2 ^ 23).
  replace (Z.shiftl (Zpos m) 24) with (Z.shiftl (Zpos m~0) 23)
    by (rewrite !Z.shiftl_mul_pow2 by lia; lia).
  rewrite (div_eucl_exact m~0 23 ltac:(lia)). reflexivity.
Qed.

Lemma round_exact (s : bool) (m : positive) (e : Z) :
  fexp 24 128 (Zpos (digits2_pos m) + e) = e -> e <= 104 ->
  binary_round_aux 24 128 s (Zpos m) e loc_Exact = S754_finite s m e.
Proof.
  intros Hc He. unfold binary_round_aux, shr_fexp.
  change (Zdigits2 (Zpos m)) with (Zpos (digits2_pos m)). zfold.
  rewrite Hc, Z.sub_diag. cbn [shr shr_record_of_loc shr_m loc_of_shr_record
                               round_nearest_even].
  change (Zdigits2 (Zpos m)) with (Zpos (digits2_pos m)). zfold.
  rewrite Hc, Z.sub_diag. cbn [shr shr_record_of_loc shr_m].
  replace (e <=? 128 - 24) with true by (symmetry; apply Z.leb_le; lia).
  reflexivity.
Qed.

Lemma round_double (s : bool) (m : positive) (e : Z) :
  Zpos (digits2_pos m) = 24 -> -149 < e <= 104 ->
  binary_round_aux 24 128 s (Zpos m~0) (e - 1) loc_Exact = S754_finite s m e.
Proof.
  intros Hd He. unfold binary_round_aux, shr_fexp.
  change (Zdigits2 (Zpos m~0)) with (Zpos (Pos.succ (digits2_pos m))). zfold.
  rewrite Pos2Z.inj_succ, Hd, fexp32.
  replace (Z.max (Z.succ 24 + (e - 1) - 24) (-149) - (e - 1)) with 1 by lia.
  cbn [shr SpecFloat.iter_pos shr_1 shr_record_of_loc shr_m shr_r shr_s orb
       loc_of_shr_record round_nearest_even].
  change (Zdigits2 (Zpos m)) with (Zpos (digits2_pos m)). zfold.
  rewrite Hd, fexp32.
  replace (Z.max (24 + (e - 1 + 1) - 24) (-149) - (e - 1 + 1)) with 0 by lia.
  cbn [shr shr_record_of_loc shr_m].
  replace (e - 1 + 1) with e by lia.
  replace (e <=? 128 - 24) with true by (symmetry; apply Z.leb_le; lia).
  reflexivity.
Qed.

(** Division by [1.0f] returns the dividend, bit for bit. *)
Lemma div_one (v : float32) :
  valid32 v = true -> SFdiv 24 128 v f32_one = v.
Proof.
  destruct v as [[|]|[|]| |s m e]; try reflexivity.
  cbn [valid32 valid_binary]. intros H.
  unfold SFdiv, f32_one. rewrite xorb_false_r.
  destruct (bounded_cases m e H) as [[-> Hd]|[Hd He]].
  - rewrite (core_subnormal m Hd). apply round_exact; [|lia].
    rewrite fexp32. lia.
  - rewrite (core_normal m e Hd ltac:(lia)). apply round_double; assumption.
Qed.
End ieee_facts.

(** ** Normalization *)

Module normalize_facts.
Import ieee common math array_facts ieee_facts.
Local Open Scope Z_scope.

Lemma valid_at1 (xs : list float32) (i : nat) :
  Forall (fun v => valid32 v = true) xs -> valid32 (at1 xs i) = true.
Proof.
  intros H. unfold at1, get. revert i.
  induction H as [|v r Hv Hr IH]; intros [|i]; simpl; auto.
Qed.

Lemma normalize_one (v : float32) (i : nat) :
  (i < INPUT_DIM)%nat -> valid32 v = true ->
  fdiv (fsub v (at1 FEATURE_MEAN i)) (at1 FEATURE_STD i) = v.
Proof.
  intros Hi Hv.
  assert (Em : at1 FEATURE_MEAN i = S754_zero false).
  { do 4 (destruct i as [|i]; [reflexivity|]). unfold INPUT_DIM in Hi. lia. }
  assert (Es : at1 FEATURE_STD i = f32_one).
  { do 4 (destruct i as [|i]; [reflexivity|]). unfold INPUT_DIM in Hi. lia. }
  rewrite Em, Es. cbn [fdiv fsub ieee_arith].
  rewrite sub_zero. apply div_one. exact Hv.
Qed.

Lemma normalize_features_id (xs : list float32) :
  Forall (fun v => valid32 v = true) xs -> normalize_features xs = xs.
Proof.
  intros H. unfold normalize_features.
  assert (G : forall n, (n <= INPUT_DIM)%nat ->
            for_ n (fun i xs =>
              upd xs i (fdiv (fsub (at1 xs i) (at1 FEATURE_MEAN i))
                             (at1 FEATURE_STD i))) xs = xs).
  { induction n as [|n IH]; intros Hn; [reflexivity|].
    rewrite for_S, IH by lia.
    rewrite normalize_one by (try apply valid_at1; auto; lia).
    apply upd_get_same. }
  apply G. lia.
Qed.

(** C9: the per-feature means are all [0.0f] and the standard deviations
    all [1.0f], and [normalize_sample] returns every sample of binary32
    numbers as it received it, features included, bit for bit. *)
Theorem normalization_is_identity (s : Sample) :
  Forall (fun v => valid32 v = true) (x s) ->
  FEATURE_MEAN = repeat (S754_zero false) 4
  /\ FEATURE_STD = repeat f32_one 4
  /\ normalize_sample s = s.
Proof.
  intros H. split; [reflexivity|]. split; [reflexivity|].
  unfold normalize_sample. rewrite (normalize_features_id _ H).
  destruct s. reflexivity.
Qed.

(** A sample with a negative, a subnormal and a large feature. *)
Lemma normalization_is_identity_witness :
  let s := mkSample [of_decimal 24 128 5 (-1); of_decimal 24 128 (-2) 0;
                     of_decimal 24 128 1 (-40); of_decimal 24 128 3 38]
             f32_one 7 in
  normalize_sample s = s.
Proof.
  intros s.
  refine (proj2 (proj2 (normalization_is_identity s _))).
  repeat constructor.
Defined.
End normalize_facts.

(** ** The update is a gradient step: the kernel read over the reals *)

Module gradient_facts.
Import common math math_spec math_facts real.
Local Open Scope R_scope.













End gradient_facts.

(** ** Train mode *)

Module train_facts.
Import common math math_spec math_facts backward_layer stream_spec
  backward_layer_facts.

End train_facts.

(** * More properties *)

(** ** Arrays *)

Module list_facts.
Import common.

Section Lists.
Context {T : Type}.

Lemma upd_length (a : list T) : forall i v, length (upd a i v) = length a.
Proof.
  induction a as [|h r IH]; intros [|i] v; simpl; try reflexivity.
  rewrite IH. reflexivity.
Qed.

Lemma get_upd_same (d : T) (a : list T) :
  forall i v, (i < length a)%nat -> get d (upd a i v) i = v.
Proof.
  unfold get. induction a as [|h r IH]; intros [|i] v H; simpl in *;
    try lia; [reflexivity|].
  apply IH. lia.
Qed.

Lemma upd_upd (a : list T) :
  forall i v w, upd (upd a i v) i w = upd a i w.
Proof.
  induction a as [|h r IH]; intros [|i] v w; simpl; try reflexivity.
  rewrite IH. reflexivity.
Qed.

(** Writing the next element of an array that is filled from the left. *)
Lemma upd_next (l a : list T) (v : T) :
  (length l < length a)%nat ->
  upd (l ++ skipn (length l) a) (length l) v
  = ((l ++ [v]) ++ skipn (S (length l)) a)%list.
Proof.
  revert a. induction l as [|h l IH]; intros a H.
  - destruct a as [|x a]; [simpl in H; lia|]. reflexivity.
  - destruct a as [|x a]; [simpl in H; lia|].
    cbn [length skipn app upd]. rewrite IH by (simpl in H; lia).
    reflexivity.
Qed.
End Lists.

Lemma forall_upd {T : Type} (P : T -> Prop) (a : list T) :
  forall i v, Forall P a -> P v -> Forall P (upd a i v).
Proof.
  induction a as [|h r IH]; intros [|i] v Ha Hv; simpl; try exact Ha.
  - inversion Ha; subst. constructor; assumption.
  - inversion Ha; subst. constructor; [assumption|]. apply IH; assumption.
Qed.

Lemma forall_get {T : Type} (P : T -> Prop) (d : T) (a : list T) (i : nat) :
  Forall P a -> (i < length a)%nat -> P (get d a i).
Proof.
  intros Ha Hi. unfold get.
  rewrite Forall_forall in Ha. apply Ha, nth_In, Hi.
Qed.
End list_facts.

(** ** The two line formats *)

Module parser_facts.
Import ieee text text_facts common array_facts.
Import line_spec.
Local Open Scope string_scope.
Local Open Scope Z_scope.

(** Once a field loop has returned [false], it stays so. *)
Lemma read_feature_none (sep : bool) (n : nat) :
  for_ n (read_feature sep) None = None.
Proof.
  induction n as [|n IH]; [reflexivity|]. rewrite for_S, IH. reflexivity.
Qed.

Lemma for_read_feature_first (sep : bool) (n : nat) (st : option (list float32 * string)) :
  for_ (S n) (read_feature sep) st
  = fold_left (fun s i => read_feature sep i s) (seq 1 n) (read_feature sep O st).
Proof. reflexivity. Qed.

Lemma fold_read_feature_none (sep : bool) (l : list nat) :
  fold_left (fun s i => read_feature sep i s) l None = None.
Proof. induction l as [|i l IH]; [reflexivity|]. simpl. exact IH. Qed.

(** A comma does not start a number. *)
Lemma extract_float_comma (s r : string) :
  skipws s = String "," r -> extract_float s = Bad f32_zero.
Proof. intros E. unfold extract_float. rewrite E. reflexivity. Qed.

(** X1: no line is accepted both by [parse_csv_line] and by
    [parse_sample_line]: the comma that the first requires after the id
    stops the second at its first feature. *)
Theorem formats_exclude_each_other (l : string) :
  parse_csv_line l = None \/ parse_sample_line l = None.
Proof.
  unfold parse_csv_line, parse_sample_line.
  destruct (extract_int l) as [i s1| |]; [|left; reflexivity|left; reflexivity].
  unfold extract_char.
  destruct (skipws s1) as [|c r] eqn:E; [left; reflexivity|].
  destruct (Ascii.eqb c ",") eqn:Ec; [|left; reflexivity].
  right. apply Ascii.eqb_eq in Ec. subst c.
  change INPUT_DIM with 4%nat. rewrite for_read_feature_first.
  cbn [read_feature]. rewrite (extract_float_comma _ _ E).
  rewrite fold_read_feature_none. reflexivity.
Qed.

(** *** Text after the last field *)

Lemma skipws_app (s u : string) (c : ascii) (r : string) :
  skipws s = String c r -> skipws (s ++ u) = String c r ++ u.
Proof.
  induction s as [|a s IH]; simpl; [discriminate|].
  destruct (isspace a); [exact IH|].
  intros E. injection E as <- <-. reflexivity.
Qed.

Lemma read_sign_app (s u : string) :
  spaced u ->
  read_sign (s ++ u) = (fst (read_sign s), snd (read_sign s) ++ u).
Proof.
  intros [t ->]. destruct s as [|a s]; [reflexivity|].
  simpl append. unfold read_sign.
  destruct a as [[] [] [] [] [] [] [] []]; reflexivity.
Qed.

Lemma take_digits_app (s u : string) :
  spaced u ->
  forall acc cnt,
    take_digits (s ++ u) acc cnt
    = let '(a, n, r) := take_digits s acc cnt in (a, n, r ++ u).
Proof.
  intros [t ->]. induction s as [|a s IH]; intros acc cnt; [reflexivity|].
  simpl. destruct (digit_of a); [apply IH|reflexivity].
Qed.

Lemma extract_int_app (s u : string) (v : Z) (r : string) :
  spaced u -> extract_int s = Got v r ->
  extract_int (s ++ u) = Got v (r ++ u).
Proof.
  intros Hu. unfold extract_int.
  destruct (skipws s) as [|c s1] eqn:E; [discriminate|].
  rewrite (skipws_app _ u _ _ E).
  change (String c s1 ++ u) with (String c (s1 ++ u)). cbv iota.
  change (String c (s1 ++ u)) with (String c s1 ++ u).
  rewrite (read_sign_app _ _ Hu).
  destruct (read_sign (String c s1)) as [neg s2]. cbn [fst snd].
  rewrite (take_digits_app _ _ Hu).
  destruct (take_digits s2 0 0) as [[mag n] s3].
  destruct (n =? 0)%nat; [discriminate|].
  destruct (_ <? INT_MIN); [discriminate|].
  destruct (INT_MAX <? _); [discriminate|].
  intros H. injection H as <- <-. reflexivity.
Qed.

Lemma extract_char_app (s u : string) (c : ascii) (r : string) :
  extract_char s = Got c r -> extract_char (s ++ u) = Got c (r ++ u).
Proof.
  unfold extract_char.
  destruct (skipws s) as [|a s1] eqn:E; [discriminate|].
  rewrite (skipws_app _ u _ _ E). simpl append.
  intros H. injection H as <- <-. reflexivity.
Qed.

Lemma take_exponent_app (s u : string) :
  spaced u ->
  take_exponent (s ++ u)
  = let '(ok, ex, r) := take_exponent s in (ok, ex, r ++ u).
Proof.
  intros Hu. destruct s as [|a s].
  - destruct Hu as [t ->]. reflexivity.
  - simpl append. unfold take_exponent.
    destruct ((code a =? 101) || (code a =? 69)); [|reflexivity].
    rewrite (read_sign_app _ _ Hu).
    destruct (read_sign s) as [eneg r1]. cbn [fst snd].
    rewrite (take_digits_app _ _ Hu).
    destruct (take_digits r1 0 0) as [[ev ne] r2]. reflexivity.
Qed.

Lemma extract_float_app (s u : string) (v : float32) (r : string) :
  spaced u -> extract_float s = Got v r ->
  extract_float (s ++ u) = Got v (r ++ u).
Proof.
  intros Hu. unfold extract_float.
  destruct (skipws s) as [|c s1] eqn:E; [discriminate|].
  rewrite (skipws_app _ u _ _ E).
  change (String c s1 ++ u) with (String c (s1 ++ u)). cbv iota.
  change (String c (s1 ++ u)) with (String c s1 ++ u).
  rewrite (read_sign_app _ _ Hu).
  destruct (read_sign (String c s1)) as [neg s2]. cbn [fst snd].
  rewrite (take_digits_app _ _ Hu).
  destruct (take_digits s2 0 0) as [[ip ni] s3].
  assert (Hf : match s3 ++ u with
               | String "." r0 => take_digits r0 ip 0
               | _ => (ip, O, s3 ++ u)
               end
               = let '(m, nf, s4) := match s3 with
                                     | String "." r0 => take_digits r0 ip 0
                                     | _ => (ip, O, s3)
                                     end in (m, nf, s4 ++ u)).
  { destruct s3 as [|a s3].
    - destruct Hu as [t ->]. reflexivity.
    - simpl append.
      destruct a as [[] [] [] [] [] [] [] []]; try reflexivity.
      apply (take_digits_app _ _ Hu). }
  rewrite Hf. clear Hf.
  destruct (match s3 with
            | String "." r0 => take_digits r0 ip 0
            | _ => (ip, O, s3)
            end) as [[m nf] s4].
  destruct (ni + nf =? 0)%nat; [discriminate|].
  rewrite (take_exponent_app _ _ Hu).
  destruct (take_exponent s4) as [[ok ex] s5].
  destruct (negb ok); [discriminate|].
  destruct (if m =? 0 then S754_zero neg else _) as [sg|sg| |sg mm ee];
    try discriminate; intros H; injection H as <- <-; reflexivity.
Qed.

Lemma read_feature_app (sep : bool) (i : nat) (u : string)
    (xs xs' : list float32) (s s' : string) :
  spaced u ->
  read_feature sep i (Some (xs, s)) = Some (xs', s') ->
  read_feature sep i (Some (xs, s ++ u)) = Some (xs', s' ++ u).
Proof.
  intros Hu. unfold read_feature.
  destruct (extract_float s) as [v s1| |] eqn:E; try discriminate.
  rewrite (extract_float_app _ _ _ _ Hu E).
  destruct (sep && (i <? INPUT_DIM - 1)%nat).
  - destruct (extract_char s1) as [c s2| |] eqn:Ec; try discriminate.
    rewrite (extract_char_app _ u _ _ Ec).
    destruct (Ascii.eqb c ","); [|discriminate].
    intros H. injection H as <- <-. reflexivity.
  - intros H. injection H as <- <-. reflexivity.
Qed.

Lemma fields_app (sep : bool) (u : string) (n : nat) :
  spaced u ->
  forall xs s xs' s',
    for_ n (read_feature sep) (Some (xs, s)) = Some (xs', s') ->
    for_ n (read_feature sep) (Some (xs, s ++ u)) = Some (xs', s' ++ u).
Proof.
  intros Hu. induction n as [|n IH]; intros xs s xs' s'.
  - intros H. injection H as <- <-. reflexivity.
  - rewrite !for_S.
    destruct (for_ n (read_feature sep) (Some (xs, s))) as [[ys t]|] eqn:E;
      [|discriminate].
    rewrite (IH _ _ _ _ E). apply read_feature_app. exact Hu.
Qed.

Ltac fields_with Hu Ef :=
  let H := fresh in
  pose proof (fields_app _ _ _ Hu _ _ _ _ Ef) as H;
  match goal with
  | |- context [@for_ ?S ?n ?f ?a] =>
      match type of H with
      | _ = ?R => replace (@for_ S n f a) with R by (symmetry; exact H)
      end
  end;
  clear H.

(** X2: both parsers stop after the label: a line that is accepted is
    accepted with the same record when a blank and any text follow it. *)
Theorem text_after_the_label_is_ignored (l t : string) (s : Sample) :
  (parse_sample_line l = Some s ->
   parse_sample_line (l ++ " " ++ t) = Some s)
  /\ (parse_csv_line l = Some s ->
      parse_csv_line (l ++ " " ++ t) = Some s).
Proof.
  assert (Hu : spaced (" " ++ t)) by (exists t; reflexivity).
  split.
  - unfold parse_sample_line.
    destruct (extract_int l) as [i s1| |] eqn:Ei; try discriminate.
    rewrite (extract_int_app _ _ _ _ Hu Ei).
    destruct (for_ INPUT_DIM (read_feature false) (Some (x zero_sample, s1)))
      as [[xs s2]|] eqn:Ef; [|discriminate].
    fields_with Hu Ef.
    destruct (extract_float s2) as [v s3| |] eqn:Ey; try discriminate.
    rewrite (extract_float_app _ _ _ _ Hu Ey). intros H; exact H.
  - unfold parse_csv_line.
    destruct (extract_int l) as [i s1| |] eqn:Ei; try discriminate.
    rewrite (extract_int_app _ _ _ _ Hu Ei).
    destruct (extract_char s1) as [c s2| |] eqn:Ec; try discriminate.
    rewrite (extract_char_app _ (" " ++ t) _ _ Ec).
    destruct (negb (Ascii.eqb c ",")); [discriminate|].
    destruct (for_ INPUT_DIM (read_feature true) (Some (x zero_sample, s2)))
      as [[xs s3]|] eqn:Ef; [|discriminate].
    fields_with Hu Ef.
    destruct (extract_char s3) as [c' s4| |] eqn:Ec'; try discriminate.
    rewrite (extract_char_app _ (" " ++ t) _ _ Ec').
    destruct (negb (Ascii.eqb c' ",")); [discriminate|].
    destruct (extract_float s4) as [v s5| |] eqn:Ey; try discriminate.
    rewrite (extract_float_app _ _ _ _ Hu Ey). intros H; exact H.
Qed.

Lemma text_after_the_label_is_ignored_witness :
  parse_sample_line ("7 1 2 3 4 5" ++ " " ++ "6 and more") = Some seven
  /\ parse_csv_line ("7,1,2,3,4,5" ++ " " ++ ",6") = Some seven.
Proof.
  split.
  - apply (proj1 (text_after_the_label_is_ignored "7 1 2 3 4 5" "6 and more" seven)).
    reflexivity.
  - apply (proj2 (text_after_the_label_is_ignored "7,1,2,3,4,5" ",6" seven)).
    reflexivity.
Defined.
End parser_facts.

(** ** Signs and NaNs *)

Module float_facts.
Import ieee float_spec.
Local Open Scope Z_scope.

Section Format.
Variables prec emax : Z.

Lemma round_sign (s : bool) (m e : Z) (l : location) :
  signbit (binary_round_aux prec emax s m e l) = None
  \/ signbit (binary_round_aux prec emax s m e l) = Some s.
Proof.
  unfold binary_round_aux.
  destruct (shr_fexp prec emax m e l) as [mrs' e'].
  destruct (shr_fexp prec emax _ e' loc_Exact) as [mrs'' e''].
  destruct (shr_m mrs''); [right; reflexivity| |left; reflexivity].
  destruct (e'' <=? emax - prec); right; reflexivity.
Qed.

Lemma shr_1_nonneg (mrs : shr_record) :
  0 <= shr_m mrs -> 0 <= shr_m (shr_1 mrs).
Proof.
  destruct mrs as [m r s]. cbn [shr_m]. intros H. unfold shr_1.
  destruct m as [|[p|p|]|p]; cbn [shr_m]; lia.
Qed.

Lemma iter_pos_keeps {T : Type} (P : T -> Prop) (f : T -> T) :
  (forall x, P x -> P (f x)) ->
  forall n x, P x -> P (SpecFloat.iter_pos f n x).
Proof.
  intros Hf. induction n as [n IH|n IH|]; intros x Hx; cbn;
    auto.
Qed.

Lemma shr_fexp_nonneg (m e : Z) (l : location) :
  0 <= m -> 0 <= shr_m (fst (shr_fexp prec emax m e l)).
Proof.
  intros H. unfold shr_fexp, shr.
  assert (H0 : 0 <= shr_m (shr_record_of_loc m l))
    by (destruct l as [|[]]; exact H).
  destruct (fexp prec emax (Zdigits2 m + e) - e); cbn [fst];
    try exact H0.
  apply (iter_pos_keeps (fun r => 0 <= shr_m r)); [apply shr_1_nonneg|exact H0].
Qed.

Lemma round_nearest_even_nonneg (m : Z) (l : location) :
  0 <= m -> 0 <= round_nearest_even m l.
Proof.
  intros H. unfold round_nearest_even.
  destruct l as [|[]]; try destruct (Z.even m); lia.
Qed.

(** Rounding a mantissa that is not negative never gives a NaN. *)
Lemma round_no_nan (s : bool) (m e : Z) (l : location) :
  0 <= m -> signbit (binary_round_aux prec emax s m e l) = Some s.
Proof.
  intros H. unfold binary_round_aux.
  pose proof (shr_fexp_nonneg m e l H) as H1.
  destruct (shr_fexp prec emax m e l) as [mrs' e']. cbn [fst] in H1.
  pose proof (shr_fexp_nonneg _ e' loc_Exact
                (round_nearest_even_nonneg _ (loc_of_shr_record mrs') H1)) as H2.
  destruct (shr_fexp prec emax _ e' loc_Exact) as [mrs'' e'']. cbn [fst] in H2.
  destruct (shr_m mrs''); [reflexivity| |lia].
  destruct (e'' <=? emax - prec); reflexivity.
Qed.

Lemma binary_round_no_nan (s : bool) (m : positive) (e : Z) :
  signbit (binary_round prec emax s m e) = Some s.
Proof.
  unfold binary_round. destruct (shl_align m e _) as [mz ez].
  apply round_no_nan. lia.
Qed.

Lemma round_to_no_nan (z : Z) :
  signbit (round_to prec emax (exact_Z z)) = Some (z <? 0).
Proof.
  destruct z as [|p|p]; cbn [exact_Z round_to cond_Zopp binary_normalize];
    [reflexivity| |]; apply binary_round_no_nan.
Qed.

Lemma div_no_nan (s1 s2 : bool) (m1 m2 : positive) (e1 e2 : Z) :
  signbit (SFdiv prec emax (S754_finite s1 m1 e1) (S754_finite s2 m2 e2))
  = Some (xorb s1 s2).
Proof.
  cbn [SFdiv]. unfold SFdiv_core_binary.
  set (m' := match _ with Z0 => _ | Zpos _ => _ | Zneg _ => _ end).
  assert (H : 0 <= m').
  { unfold m'. destruct (_ - _ - _) as [|p|p]; try lia.
    apply Z.shiftl_nonneg. lia. }
  pose proof (Z_div_mod m' (Zpos m2) ltac:(lia)) as D.
  destruct (Z.div_eucl m' (Zpos m2)) as [q r].
  apply round_no_nan. destruct D as [D1 D2]. nia.
Qed.

(** The value of a decimal is never a NaN. *)
Lemma of_decimal_no_nan (m e : Z) :
  exists s, signbit (of_decimal prec emax m e) = Some s.
Proof.
  unfold of_decimal. destruct (Z.leb_spec 0 e) as [E|E].
  - eexists. apply round_to_no_nan.
  - assert (P : 0 < 10 ^ (- e)) by (apply Z.pow_pos_nonneg; lia).
    destruct (10 ^ (- e)) as [|q|q]; try lia.
    destruct m as [|p|p]; cbn [exact_Z].
    + eexists. reflexivity.
    + eexists. apply div_no_nan.
    + eexists. apply div_no_nan.
Qed.

Lemma mul_sign (a b : spec_float) (sa sb : bool) :
  signbit a = Some sa -> signbit b = Some sb ->
  signbit (SFmul prec emax a b) = None
  \/ signbit (SFmul prec emax a b) = Some (xorb sa sb).
Proof.
  destruct a as [s|s| |s m e], b as [t|t| |t n f]; cbn [signbit SFmul];
    intros Ha Hb; try discriminate; injection Ha as <-; injection Hb as <-;
    try (left; reflexivity); try (right; reflexivity).
  apply round_sign.
Qed.

Lemma mul_nan_l (b : spec_float) : SFmul prec emax S754_nan b = S754_nan.
Proof. destruct b; reflexivity. Qed.

Lemma mul_nan_r (a : spec_float) : SFmul prec emax a S754_nan = S754_nan.
Proof. destruct a; reflexivity. Qed.

(** A square is not negative. *)
Lemma square_sign (a : spec_float) :
  signbit (SFmul prec emax a a) = None
  \/ signbit (SFmul prec emax a a) = Some false.
Proof.
  destruct (signbit a) as [s|] eqn:E.
  - destruct (mul_sign a a s s E E) as [H|H]; [left; exact H|].
    right. rewrite H. destruct s; reflexivity.
  - destruct a; try discriminate. left. reflexivity.
Qed.
End Format.

Lemma not_negative (v : spec_float) :
  signbit v = None \/ signbit v = Some false -> negative v = false.
Proof.
  destruct v as [s|s| |s m e]; cbn [signbit]; intros [H|H];
    try discriminate; try injection H as ->; reflexivity.
Qed.
End float_facts.

(** ** What the parsers accept *)

Module accepted_facts.
Import ieee text text_facts common array_facts float_spec float_facts stream_spec.
Import line_spec record_spec list_facts.
Local Open Scope string_scope.
Local Open Scope Z_scope.

(** [operator>>] never stores an infinity or a NaN and reports success. *)
Lemma extract_float_finite (s : string) (v : float32) (r : string) :
  extract_float s = Got v r -> finite v = true.
Proof.
  unfold extract_float. destruct (skipws s) as [|c s1]; [discriminate|].
  destruct (read_sign _) as [neg s2].
  destruct (take_digits s2 0 0) as [[ip ni] s3].
  destruct (match s3 with String "." r0 => _ | _ => _ end) as [[m nf] s4].
  destruct (ni + nf =? 0)%nat; [discriminate|].
  destruct (take_exponent s4) as [[ok ex] s5].
  destruct (negb ok); [discriminate|].
  destruct (m =? 0).
  - intros H. injection H as <- _. reflexivity.
  - destruct (of_decimal_no_nan 24 128 (if neg then - m else m)
                (ex - Z.of_nat nf)) as [sg Hs].
    destruct (of_decimal 24 128 _ _) as [z|z| |z mm ee];
      try discriminate; intros H; injection H as <- _; reflexivity.
Qed.

Lemma read_feature_well_formed (sep : bool) (i : nat)
    (st : option (list float32 * string)) :
  match st with Some (xs, _) => well_formed xs | None => True end ->
  match read_feature sep i st with
  | Some (xs, _) => well_formed xs
  | None => True
  end.
Proof.
  destruct st as [[xs s]|]; [|exact (fun H => H)].
  intros [L F]. unfold read_feature.
  destruct (extract_float s) as [v s1| |] eqn:E; try exact I.
  assert (W : well_formed (upd xs i v)).
  { split; [rewrite upd_length; exact L|].
    apply forall_upd; [exact F|].
    exact (extract_float_finite _ _ _ E). }
  destruct (sep && _); [|exact W].
  destruct (extract_char s1) as [c s2| |]; try exact I.
  destruct (Ascii.eqb c ","); [exact W|exact I].
Qed.

Lemma fields_well_formed (sep : bool) (s : string) :
  match for_ INPUT_DIM (read_feature sep) (Some (x zero_sample, s)) with
  | Some (xs, _) => well_formed xs
  | None => True
  end.
Proof.
  apply (for_keeps (fun st => match st with
                              | Some (xs, _) => well_formed xs
                              | None => True
                              end)).
  - intros j st. apply read_feature_well_formed.
  - split; [reflexivity|]. repeat constructor.
Qed.

Lemma csv_accepted (l : string) (s : Sample) :
  parse_csv_line l = Some s ->
  well_formed (x s) /\ finite (y s) = true /\ INT_MIN <= id s <= INT_MAX.
Proof.
  intros H. unfold parse_csv_line in H.
  destruct (extract_int l) as [i s1| |] eqn:Ei; try discriminate.
  destruct (extract_char s1) as [c s2| |]; try discriminate.
  destruct (negb (Ascii.eqb c ",")); [discriminate|].
  pose proof (fields_well_formed true s2) as W.
  destruct (for_ INPUT_DIM (read_feature true) _) as [[xs s3]|];
    [|discriminate].
  destruct (extract_char s3) as [c' s4| |]; try discriminate.
  destruct (negb (Ascii.eqb c' ",")); [discriminate|].
  destruct (extract_float s4) as [v s5| |] eqn:Ey; try discriminate.
  injection H as <-. cbn [x y id].
  split; [exact W|].
  split; [exact (extract_float_finite _ _ _ Ey)|].
  exact (extract_int_range _ _ _ Ei).
Qed.

Lemma sample_accepted (l : string) (s : Sample) :
  parse_sample_line l = Some s ->
  well_formed (x s) /\ finite (y s) = true /\ INT_MIN <= id s <= INT_MAX.
Proof.
  intros H. unfold parse_sample_line in H.
  destruct (extract_int l) as [i s1| |] eqn:Ei; try discriminate.
  pose proof (fields_well_formed false s1) as W.
  destruct (for_ INPUT_DIM (read_feature false) _) as [[xs s2]|];
    [|discriminate].
  destruct (extract_float s2) as [v s3| |] eqn:Ey; try discriminate.
  injection H as <-. cbn [x y id].
  split; [exact W|].
  split; [exact (extract_float_finite _ _ _ Ey)|].
  exact (extract_int_range _ _ _ Ei).
Qed.

(** X3: a record that [parse_csv_line] or [parse_sample_line] returns has
    four features, no infinity and no NaN among its features and label, and
    an id in the range of [int]. *)
Theorem accepted_samples_are_finite (l : string) (s : Sample) :
  parse_csv_line l = Some s \/ parse_sample_line l = Some s ->
  length (x s) = INPUT_DIM
  /\ Forall (fun v => finite v = true) (x s)
  /\ finite (y s) = true
  /\ INT_MIN <= id s <= INT_MAX.
Proof.
  intros [H|H];
    [apply csv_accepted in H|apply sample_accepted in H];
    destruct H as ([L F] & Y & R); auto.
Qed.

Lemma accepted_samples_are_finite_witness :
  Forall (fun v => finite v = true) (x seven)
  /\ finite (y seven) = true.
Proof.
  destruct (accepted_samples_are_finite "7 1 2 3 4 5" seven
              (or_intror eq_refl)) as (_ & F & Y & _).
  split; [exact F|exact Y].
Defined.
End accepted_facts.

(** ** preprocess *)

Module stage_facts.
Import ieee text text_facts common stream_spec stage_spec.
Local Open Scope string_scope.
Local Open Scope Z_scope.

Lemma blank_line_has_no_number (l : string) :
  skipws l = "" ->
  extract_int l = Eof.
Proof. intros E. unfold extract_int. rewrite E. reflexivity. Qed.

Lemma blank_line_is_refused (l : string) :
  skipws l = "" ->
  parse_csv_line l = None /\ parse_sample_line l = None
  /\ logger.parse_result l = None.
Proof.
  intros E. unfold parse_csv_line, parse_sample_line, logger.parse_result.
  rewrite (blank_line_has_no_number l E). repeat split.
Qed.

(** X4: a line that is not empty and holds white space only is skipped by
    no stage: preprocess, forward_layer and backward_layer write their
    ["failed to parse line"] diagnostic for it and nothing on standard
    output, and the logger writes its diagnostic and counts nothing. *)
Theorem blank_line_is_reported (l : string) :
  l <> "" -> skipws l = "" ->
  (forall st,
     preprocess.step st l
     = preprocess.mkState (preprocess.out st)
         (emit (preprocess.err st)
            ("preprocess: failed to parse line: " ++ l)))
  /\ (forall st,
        forward_layer.step st l
        = forward_layer.mkState (forward_layer.out st)
            (emit (forward_layer.err st)
               ("forward_layer: failed to parse line: " ++ l)))
  /\ (forall mode st,
        backward_layer.step mode st l
        = backward_layer.mkState (backward_layer.params st)
            (backward_layer.count st) (backward_layer.out st)
            (emit (backward_layer.err st)
               ("backward_layer: failed to parse line: " ++ l)))
  /\ (forall st a, logger.line a = l ->
        let st' := fst (logger.iteration st a) in
        logger.count st' = logger.count st
        /\ logger.out st' = logger.out st
        /\ logger.err st'
           = emit (logger.err st) ("logger: failed to parse line: " ++ l)
        /\ snd (logger.iteration st a) = false).
Proof.
  intros Hne E. destruct (blank_line_is_refused l E) as [E1 [E2 E3]].
  destruct l as [|c r]; [congruence|].
  repeat split.
  - intros st. unfold preprocess.step. rewrite E1. reflexivity.
  - intros st. unfold forward_layer.step. rewrite E2. reflexivity.
  - intros mode st. unfold backward_layer.step. rewrite E2. reflexivity.
  - unfold logger.iteration. rewrite H, E3. reflexivity.
  - unfold logger.iteration. rewrite H, E3. reflexivity.
  - unfold logger.iteration. rewrite H, E3. reflexivity.
  - unfold logger.iteration. rewrite H, E3. reflexivity.
Qed.

Lemma blank_line_is_reported_witness :
  preprocess.step (preprocess.mkState [] []) "   "
  = preprocess.mkState [] ["preprocess: failed to parse line:    "].
Proof.
  refine (proj1 (blank_line_is_reported "   " _ _) (preprocess.mkState [] [])).
  - discriminate.
  - reflexivity.
Defined.

(** *** preprocess *)

Lemma preprocess_step_cases (st : preprocess.state) (l : string) :
  preprocess.out (preprocess.step st l)
  = (preprocess.out st
     ++ map (fun s => sample_to_line (math.normalize_sample s))
          (csv_parsed [l]))%list
  /\ preprocess.err (preprocess.step st l)
     = (preprocess.err st
        ++ map (append "preprocess: failed to parse line: ")
             (refused parse_csv_line [l]))%list.
Proof.
  unfold preprocess.step, csv_parsed, refused. cbn [flat_map filter].
  destruct l as [|c r].
  - change (parse_csv_line "") with (@None Sample). simpl.
    rewrite !app_nil_r. split; reflexivity.
  - change (String.eqb (String c r) "") with false. cbn [negb andb].
    destruct (parse_csv_line (String c r)); simpl;
      rewrite ?app_nil_r; split; reflexivity.
Qed.

Lemma preprocess_loop (lines : list string) :
  forall st,
    preprocess.out (fold_left preprocess.step lines st)
    = (preprocess.out st
       ++ map (fun s => sample_to_line (math.normalize_sample s))
            (csv_parsed lines))%list
    /\ preprocess.err (fold_left preprocess.step lines st)
       = (preprocess.err st
          ++ map (append "preprocess: failed to parse line: ")
               (refused parse_csv_line lines))%list.
Proof.
  induction lines as [|l r IH]; intros st.
  - simpl. rewrite !app_nil_r. split; reflexivity.
  - cbn [fold_left]. destruct (IH (preprocess.step st l)) as [Ho He].
    destruct (preprocess_step_cases st l) as [So Se].
    rewrite Ho, He, So, Se.
    change (l :: r) with ([l] ++ r)%list.
    unfold csv_parsed, refused in *.
    rewrite flat_map_app, filter_app, !map_app, <- !app_assoc.
    split; reflexivity.
Qed.

Lemma accounted (parse : string -> option Sample) (lines : list string) :
  (length (flat_map (fun l => match parse l with
                              | Some s => [s]
                              | None => []
                              end) lines)
   + length (refused parse lines)
   = length (filter (fun l => negb (String.eqb l "")
                              || match parse l with Some _ => true | None => false end) lines))%nat.
Proof.
  unfold refused. induction lines as [|l r IH]; [reflexivity|].
  cbn [flat_map filter]. rewrite length_app.
  destruct (parse l); destruct (String.eqb l ""); cbn [negb andb orb length];
    lia.
Qed.

(** X5: [preprocess::run] returns 1 with one diagnostic and no output when
    the file does not open; otherwise it returns 0, writes the normalised
    record of each accepted line in order, one diagnostic for each refused
    non-empty line in order, and nothing else: outputs and diagnostics
    together are as many as the non-empty lines. *)
Theorem preprocess_run_accounts (open_csv : string -> option (list string))
    (csv_path : string) :
  match open_csv csv_path with
  | None =>
      preprocess.run open_csv csv_path
      = (1, [], ["preprocess: failed to open CSV file: " ++ csv_path])
  | Some lines =>
      let '(rc, out, err) := preprocess.run open_csv csv_path in
      rc = 0
      /\ out = map (fun s => sample_to_line (math.normalize_sample s))
                 (csv_parsed lines)
      /\ err = map (append "preprocess: failed to parse line: ")
                 (refused parse_csv_line lines)
      /\ (length out + length err = length (nonempty lines))%nat
  end.
Proof.
  unfold preprocess.run. destruct (open_csv csv_path) as [lines|];
    [|reflexivity].
  destruct (preprocess_loop lines (preprocess.mkState [] [])) as [Ho He].
  cbn [preprocess.out preprocess.err app] in Ho, He.
  split; [reflexivity|]. split; [exact Ho|]. split; [exact He|].
  rewrite Ho, He, !length_map. unfold csv_parsed.
  rewrite accounted. unfold nonempty. f_equal.
  apply filter_ext. intros l.
  destruct l as [|c r]; [reflexivity|]. reflexivity.
Qed.
End stage_facts.

(** ** The numeric kernel *)

Module kernel_facts.
Import ieee text common math math_spec array_facts float_spec float_facts.
Import line_spec record_spec list_facts.
Import stream_spec backward_layer backward_layer_facts.
Local Open Scope string_scope.
Local Open Scope Z_scope.

Lemma f0_zero : @f0 ieee_arith = S754_zero false.
Proof. reflexivity. Qed.

Lemma half_literal : @flit ieee_arith 5 (-1) = S754_finite false 8388608 (-24).
Proof. vm_compute. reflexivity. Qed.

Lemma half_square_sign (d : float32) :
  signbit (half_square d) = None \/ signbit (half_square d) = Some false.
Proof.
  unfold half_square. rewrite half_literal.
  change (@fmul ieee_arith) with (SFmul 24 128).
  destruct (signbit d) as [sd|] eqn:Ed.
  - destruct (mul_sign 24 128 (S754_finite false 8388608 (-24)) d false sd
                eq_refl Ed) as [H|H].
    + left. destruct (SFmul 24 128 (S754_finite false 8388608 (-24)) d);
        try discriminate. rewrite mul_nan_l. reflexivity.
    + cbn [xorb] in H.
      destruct (mul_sign 24 128 _ d sd sd H Ed) as [H'|H'];
        [left; exact H'|].
      right. rewrite H'. destruct sd; reflexivity.
  - destruct d; try discriminate. left. reflexivity.
Qed.

(** X6: for an accepted line, in either mode, [backward_layer] writes one
    result line whose loss is [0.5f * diff * diff] for the prediction written
    beside it, and that loss is never below zero. *)
Theorem loss_is_never_negative (mode : Mode) (st : state) (l : string)
    (s : Sample) :
  parse_sample_line l = Some s ->
  exists ls y_hat,
    out (step mode st l) = emit (out st) (result_line (id s) ls y_hat)
    /\ ls = half_square (fsub y_hat (y s))
    /\ negative ls = false.
Proof.
  intros H. rewrite (step_parsed mode st l s H). cbv zeta. cbn [out].
  exists (loss (params st) s), (compute_forward (params st) s).
  split; [reflexivity|]. split; [reflexivity|].
  apply not_negative, half_square_sign.
Qed.

Lemma loss_is_never_negative_witness :
  exists ls y_hat,
    out (step Train (mkState initial_params 0 [] []) "7 1 2 3 4 5")
    = [result_line 7 ls y_hat]
    /\ ls = half_square (fsub y_hat (S754_finite false 10485760 (-21)))
    /\ negative ls = false.
Proof.
  apply (loss_is_never_negative Train (mkState initial_params 0 [] [])
           "7 1 2 3 4 5" seven).
  reflexivity.
Defined.

Lemma relu_sign (z : float32) : signbit (relu z) = Some false.
Proof.
  unfold relu. rewrite f0_zero.
  change (@fgt ieee_arith z (S754_zero false))
    with (SFltb (S754_zero false) z).
  destruct z as [s|s| |s m e]; try reflexivity; destruct s; reflexivity.
Qed.

(** X7: [forward_all] fills all eight activations, and each of them is a
    value with a clear sign bit: a NaN or a negative number in the
    pre-activation gives [0.0f]. *)
Theorem activations_are_never_nan (p : Params) (s : Sample) :
  let '(_, a1, _) := forward_all p s in
  length a1 = HIDDEN_DIM
  /\ Forall (fun a => signbit a = Some false) a1.
Proof.
  unfold forward_all.
  match goal with
  | |- context [for_ HIDDEN_DIM ?b (zeros HIDDEN_DIM, zeros HIDDEN_DIM)] =>
      assert (K : let r := for_ HIDDEN_DIM b (zeros HIDDEN_DIM, zeros HIDDEN_DIM) in
                  length (snd r) = HIDDEN_DIM
                  /\ Forall (fun a => signbit a = Some false) (snd r));
      [|destruct (for_ HIDDEN_DIM b (zeros HIDDEN_DIM, zeros HIDDEN_DIM))
          as [z1 a1]; exact K]
  end.
  apply (for_keeps (fun r : list float32 * list float32 =>
           length (snd r) = HIDDEN_DIM
           /\ Forall (fun a => signbit a = Some false) (snd r))).
  - intros j [z1 a1] [L F]. cbn [snd] in *. split.
    + rewrite upd_length. exact L.
    + apply forall_upd; [exact F|apply relu_sign].
  - split; [reflexivity|]. repeat constructor.
Qed.

(** X8: [augment_features] leaves the first three features, the label and
    the id as they are and replaces the fourth feature by its square, which
    is never below zero. *)
Theorem augment_squares_the_last_feature (s : Sample) :
  length (x s) = INPUT_DIM ->
  let s' := augment_features s in
  id s' = id s /\ y s' = y s
  /\ x s' = (firstn 3 (x s)
             ++ [SFmul 24 128 (get f32_zero (x s) 3) (get f32_zero (x s) 3)])%list
  /\ negative (get f32_zero (x s') 3) = false.
Proof.
  destruct s as [xs ys i]. cbn [x y id]. intros L.
  unfold INPUT_DIM in L.
  destruct xs as [|a [|b [|c [|d [|e xs]]]]]; try discriminate L.
  cbv zeta. unfold augment_features, augment. cbn [x y id].
  split; [reflexivity|]. split; [reflexivity|]. split; [reflexivity|].
  apply not_negative.
  exact (square_sign 24 128 d).
Qed.

Lemma augment_squares_the_last_feature_witness :
  x (augment_features
       (@mkSample ieee_arith [f32_one; f32_one; f32_one; S754_finite true 12582912 (-22)]
          f32_one 1))
  = [f32_one; f32_one; f32_one; S754_finite false 9437184 (-20)].
Proof.
  rewrite (proj1 (proj2 (proj2
             (augment_squares_the_last_feature
                (@mkSample ieee_arith [f32_one; f32_one; f32_one;
                           S754_finite true 12582912 (-22)] f32_one 1)
                eq_refl)))).
  vm_compute. reflexivity.
Defined.
End kernel_facts.

(** ** Reading back what was printed *)

Module numeral_facts.
Import ieee text text_facts numeral_spec float_spec.
Local Open Scope string_scope.
Local Open Scope Z_scope.

Lemma all_digits_cons (c : ascii) (s : string) :
  all_digits (String c s) = is_digit c && all_digits s.
Proof. reflexivity. Qed.

Lemma list_of_append (a b : string) :
  list_ascii_of_string (a ++ b)
  = (list_ascii_of_string a ++ list_ascii_of_string b)%list.
Proof. induction a as [|c a IH]; simpl; [|rewrite IH]; reflexivity. Qed.

Lemma all_digits_app (a b : string) :
  all_digits (a ++ b) = all_digits a && all_digits b.
Proof. unfold all_digits. rewrite list_of_append. apply forallb_app. Qed.

Lemma is_digit_digit_char (d : Z) : 0 <= d < 10 -> is_digit (digit_char d) = true.
Proof. intros H. unfold is_digit. rewrite (digit_of_digit_char d H). reflexivity. Qed.

Lemma all_digits_dec_digits (fuel : nat) :
  forall n acc, all_digits (dec_digits fuel n acc) = all_digits acc.
Proof.
  induction fuel as [|f IH]; intros n acc; [reflexivity|].
  cbn [dec_digits].
  assert (D : is_digit (digit_char (n mod 10)) = true)
    by (apply is_digit_digit_char, Z.mod_pos_bound; lia).
  destruct (n / 10 =? 0).
  - rewrite all_digits_cons, D. reflexivity.
  - rewrite IH, all_digits_cons, D. reflexivity.
Qed.

Lemma all_digits_put_nat (n : Z) : all_digits (put_nat n "") = true.
Proof. unfold put_nat. apply all_digits_dec_digits. Qed.

Lemma put_nat_nonempty (n : Z) : put_nat n "" <> "".
Proof.
  unfold put_nat.
  destruct (dec_digits_head (S (Z.to_nat (Z.log2 n))) n "" ltac:(lia))
    as [d [r [_ E]]].
  rewrite E. discriminate.
Qed.

Lemma all_digits_substring (s : string) :
  all_digits s = true -> forall n m, all_digits (substring n m s) = true.
Proof.
  induction s as [|c s IH]; intros H n m.
  - destruct n, m; reflexivity.
  - rewrite all_digits_cons in H. apply andb_prop in H. destruct H as [Hc Hs].
    destruct n as [|n]; destruct m as [|m]; cbn [substring];
      try reflexivity; try (apply IH; exact Hs).
    rewrite all_digits_cons, Hc. apply IH. exact Hs.
Qed.

Lemma substring_nonempty (s : string) (m : nat) :
  s <> "" -> (0 < m)%nat -> substring 0 m s <> "".
Proof.
  destruct s as [|c s]; [congruence|]. destruct m as [|m]; [lia|].
  discriminate.
Qed.

Lemma strip_zeros_rev_keeps (l : list ascii) :
  forallb is_digit l = true -> forallb is_digit (strip_zeros_rev l) = true.
Proof.
  induction l as [|c l IH]; [reflexivity|]. intros H.
  cbn [strip_zeros_rev]. destruct (code c =? 48); [|exact H].
  apply IH. cbn [forallb] in H. apply andb_prop in H. apply H.
Qed.

Lemma forallb_rev {T : Type} (f : T -> bool) (l : list T) :
  forallb f (rev l) = forallb f l.
Proof.
  induction l as [|a l IH]; [reflexivity|].
  cbn [rev forallb]. rewrite forallb_app, IH. cbn [forallb].
  rewrite andb_true_r. apply andb_comm.
Qed.

Lemma all_digits_strip (s : string) :
  all_digits s = true -> all_digits (strip_trailing_zeros s) = true.
Proof.
  unfold all_digits, strip_trailing_zeros. intros H.
  rewrite list_ascii_of_string_of_list_ascii, forallb_rev.
  apply strip_zeros_rev_keeps. rewrite forallb_rev. exact H.
Qed.

Lemma all_digits_zeros (n : nat) : all_digits (zeros_str n) = true.
Proof. induction n as [|n IH]; [reflexivity|]. exact IH. Qed.

(** *** The shape of what [put_float] writes *)

Lemma with_point_shape (ip fp : string) :
  exists fo, with_point ip fp = numeral ip fo None
             /\ match fo with
                | Some f => f = strip_trailing_zeros fp
                | None => True
                end.
Proof.
  unfold with_point, numeral.
  destruct (strip_trailing_zeros fp) as [|c r] eqn:E.
  - exists None. rewrite !append_nil_r. split; [reflexivity|exact I].
  - exists (Some (String c r)). rewrite append_nil_r.
    split; [reflexivity|reflexivity].
Qed.

Lemma with_point_well_shaped (ip fp : string) :
  ip <> "" -> all_digits ip = true -> all_digits fp = true ->
  exists fo, with_point ip fp = numeral ip fo None
             /\ match fo with Some f => all_digits f = true | None => True end.
Proof.
  intros _ _ Hf. destruct (with_point_shape ip fp) as [fo [E F]].
  exists fo. split; [exact E|].
  destruct fo as [f|]; [|exact I]. subst f. apply all_digits_strip, Hf.
Qed.

Lemma numeral_exponent (ip : string) (fo : option string) (sg ed : string) :
  numeral ip fo None ++ "e" ++ sg ++ ed = numeral ip fo (Some (sg, ed)).
Proof.
  unfold numeral. rewrite append_nil_r, !append_assoc. reflexivity.
Qed.

Lemma fmt_g6_well_shaped (num den : Z) : well_shaped (fmt_g6 num den).
Proof.
  unfold fmt_g6.
  set (X0 := decimal_exponent num den).
  set (n0 := if 0 <=? 5 - X0 then _ else _).
  destruct (if n0 =? 1000000 then (100000, X0 + 1) else (n0, X0)) as [n X].
  pose proof (all_digits_put_nat n) as D.
  pose proof (put_nat_nonempty n) as NE.
  set (ds := put_nat n "") in *.
  destruct ((X <? -4) || (6 <=? X)).
  - destruct (with_point_well_shaped (substring 0 1 ds) (substring 1 5 ds))
      as [fo [E F]];
      [apply substring_nonempty; [exact NE|lia]
      |apply all_digits_substring; exact D
      |apply all_digits_substring; exact D|].
    rewrite E.
    set (sg := if X <? 0 then "-" else "+").
    rewrite numeral_exponent.
    exists (substring 0 1 ds), fo, (Some (sg, (if Z.abs X <? 10 then "0" else "") ++ put_nat (Z.abs X) "")).
    split; [reflexivity|].
    split; [apply substring_nonempty; [exact NE|lia]|].
    split; [apply all_digits_substring; exact D|]. split; [exact F|].
    split; [unfold sg; destruct (X <? 0); auto|]. split.
    + destruct (Z.abs X <? 10); [discriminate|apply put_nat_nonempty].
    + rewrite all_digits_app, all_digits_put_nat.
      destruct (Z.abs X <? 10); reflexivity.
  - destruct (Z.leb_spec 0 X) as [HX|HX].
    + destruct (with_point_well_shaped (substring 0 (Z.to_nat (X + 1)) ds)
                  (substring (Z.to_nat (X + 1)) (Z.to_nat (5 - X)) ds))
        as [fo [E F]];
        [apply substring_nonempty; [exact NE|lia]
        |apply all_digits_substring; exact D
        |apply all_digits_substring; exact D|].
      rewrite E. exists (substring 0 (Z.to_nat (X + 1)) ds), fo, None.
      split; [reflexivity|].
      split; [apply substring_nonempty; [exact NE|lia]|].
      split; [apply all_digits_substring; exact D|]. split; [exact F|exact I].
    + destruct (with_point_well_shaped "0" (zeros_str (Z.to_nat (- X - 1)) ++ ds))
        as [fo [E F]];
        [discriminate|reflexivity
        |rewrite all_digits_app, all_digits_zeros; exact D|].
      rewrite E. exists "0", fo, None.
      split; [reflexivity|]. split; [discriminate|].
      split; [reflexivity|]. split; [exact F|exact I].
Qed.

(** *** Reading a numeral back *)

Lemma ends_stops (rest : string) : ends rest -> stops rest.
Proof. intros [->|[t ->]]; reflexivity. Qed.

Lemma take_digits_all (D : string) :
  all_digits D = true ->
  forall tail acc cnt, stops tail ->
    exists a, take_digits (D ++ tail) acc cnt
              = (a, (cnt + String.length D)%nat, tail).
Proof.
  induction D as [|c D IH]; intros H tail acc cnt Ht.
  - exists acc. cbn [append String.length]. rewrite Nat.add_0_r.
    apply take_digits_stops, Ht.
  - rewrite all_digits_cons in H. apply andb_prop in H. destruct H as [Hc HD].
    cbn [append take_digits String.length]. unfold is_digit in Hc.
    destruct (digit_of c) as [d|]; [|discriminate].
    destruct (IH HD tail (acc * 10 + d) (S cnt) Ht) as [a E].
    exists a. rewrite E. f_equal. f_equal. lia.
Qed.

Lemma digit_head (c : ascii) :
  is_digit c = true ->
  isspace c = false
  /\ (forall r, read_sign (String c r) = (false, String c r))
  /\ c <> "."%char
  /\ (code c =? 101) || (code c =? 69) = false.
Proof.
  destruct c as [[] [] [] [] [] [] [] []]; try discriminate; intros _;
    repeat split; try reflexivity; discriminate.
Qed.

Lemma extract_float_scan (s : string) :
  extract_float s
  = match skipws s with
    | EmptyString => Eof
    | s1 => let '(neg, s2) := read_sign s1 in scan neg s2
    end.
Proof. reflexivity. Qed.

Lemma take_exponent_rest (rest : string) :
  ends rest -> take_exponent rest = (true, 0, rest).
Proof. intros [->|[t ->]]; reflexivity. Qed.

Lemma exponent_stops (ex : option (string * string)) (rest : string) :
  ends rest ->
  match ex with Some (sg, ed) => sg = "-" \/ sg = "+" | None => True end ->
  let t := match ex with Some (sg, ed) => "e" ++ sg ++ ed | None => "" end
           ++ rest in
  stops t /\ match t with String "." _ => False | _ => True end.
Proof.
  intros Hr Hs. destruct ex as [[sg ed]|].
  - cbn. split; [reflexivity|exact I].
  - cbn [append]. destruct Hr as [->|[t ->]]; split; try reflexivity; exact I.
Qed.

Lemma scan_numeral (neg : bool) (ip : string) (fp : option string)
    (ex : option (string * string)) (rest : string) :
  ip <> "" -> all_digits ip = true ->
  match fp with Some f => all_digits f = true | None => True end ->
  match ex with
  | Some (sg, ed) => (sg = "-" \/ sg = "+") /\ ed <> "" /\ all_digits ed = true
  | None => True
  end ->
  ends rest ->
  read_whole (scan neg (numeral ip fp ex ++ rest)) rest.
Proof.
  intros Hne Hip Hfp Hex Hr. unfold numeral. rewrite !append_assoc.
  set (E := match ex with Some (sg, ed) => "e" ++ sg ++ ed | None => "" end).
  assert (HE : stops (E ++ rest)
               /\ match E ++ rest with String "." _ => False | _ => True end).
  { apply (exponent_stops ex rest Hr).
    destruct ex as [[sg ed]|]; [apply Hex|exact I]. }
  destruct HE as [HE1 HE2].
  assert (HX : exists ok ev, take_exponent (E ++ rest) = (ok, ev, rest)
                             /\ ok = true).
  { unfold E. destruct ex as [[sg ed]|].
    - destruct Hex as [Hsg [Hed Hd]].
      destruct (take_digits_all ed Hd rest 0 O (ends_stops _ Hr)) as [a Ea].
      assert (L : (0 <? 0 + String.length ed)%nat = true).
      { destruct ed; [congruence|reflexivity]. }
      destruct Hsg as [->| ->]; cbn [append take_exponent];
        change ((code "e" =? 101) || (code "e" =? 69)) with true;
        cbn [read_sign]; cbv beta iota; rewrite Ea; cbv beta iota;
        rewrite L; eexists _, _; split; reflexivity.
    - cbn [append]. rewrite (take_exponent_rest _ Hr).
      eexists _, _; split; reflexivity. }
  destruct HX as [ok [ev [EX ->]]].
  unfold scan.
  assert (Hlen : (0 < String.length ip)%nat)
    by (destruct ip; [congruence|cbn; lia]).
  destruct fp as [f|].
  - destruct (take_digits_all ip Hip ("." ++ f ++ E ++ rest) 0 O eq_refl)
      as [a Ea].
    rewrite (append_assoc "." f (E ++ rest)), Ea. cbn [append].
    destruct (take_digits_all f Hfp (E ++ rest) a O HE1) as [m Em].
    rewrite Em, EX.
    replace (0 + String.length ip + (0 + String.length f) =? 0)%nat
      with false by (symmetry; apply Nat.eqb_neq; lia).
    cbn [negb].
    destruct (if m =? 0 then _ else _);
      [left|right|left|left]; eexists; reflexivity.
  - cbn [append].
    destruct (take_digits_all ip Hip (E ++ rest) 0 O HE1) as [a Ea].
    rewrite Ea.
    assert (Hm : match E ++ rest with
                 | String "." r => take_digits r a 0
                 | _ => (a, O, E ++ rest)
                 end = (a, O, E ++ rest)).
    { destruct (E ++ rest) as [|c r]; [reflexivity|].
      destruct c as [[] [] [] [] [] [] [] []]; try reflexivity.
      contradiction. }
    rewrite Hm, EX.
    replace (0 + String.length ip + 0 =? 0)%nat
      with false by (symmetry; apply Nat.eqb_neq; lia).
    cbn [negb].
    destruct (if a =? 0 then _ else _);
      [left|right|left|left]; eexists; reflexivity.
Qed.

Lemma well_shaped_head (t : string) :
  well_shaped t -> exists c r, t = String c r /\ is_digit c = true.
Proof.
  intros (ip & fp & ex & -> & Hne & Hd & _).
  destruct ip as [|c ip]; [congruence|].
  rewrite all_digits_cons in Hd. apply andb_prop in Hd.
  exists c. eexists. split; [reflexivity|apply Hd].
Qed.

(** What [put_float] writes for a finite value: perhaps a minus sign,
    then a numeral. *)
Lemma put_float_shape (v : spec_float) :
  finite v = true ->
  exists (neg : bool) (t : string),
    put_float v = (if neg then "-" else "") ++ t /\ well_shaped t.
Proof.
  destruct v as [s|s| |s m e]; try discriminate; intros _.
  - exists s, "0". split; [destruct s; reflexivity|].
    exists "0", None, None. repeat split. discriminate.
  - exists s. eexists. split; [reflexivity|].
    destruct (0 <=? e); apply fmt_g6_well_shaped.
Qed.

(** A value written by [put_float] after a blank, and followed by the end
    of the line or by a blank: reading it back takes the whole numeral, or
    fails; it fails when the value is an infinity or a NaN. *)
Lemma reread_float (v : spec_float) (rest : string) :
  ends rest ->
  read_whole (extract_float (" " ++ put_float v ++ rest)) rest
  /\ (finite v = false ->
      extract_float (" " ++ put_float v ++ rest) = Bad f32_zero).
Proof.
  intros Hr. destruct (finite v) eqn:F.
  - split; [|discriminate].
    destruct (put_float_shape v F) as (neg & t & E & W).
    rewrite E, extract_float_scan.
    destruct (well_shaped_head t W) as (c & r & Et & Hc).
    destruct (digit_head c Hc) as (Hsp & Hsg & _).
    destruct W as (ip & fp & ex & Ew & W).
    assert (K : read_whole (scan neg (t ++ rest)) rest).
    { rewrite Ew. destruct W as (W1 & W2 & W3 & W4).
      apply scan_numeral; assumption. }
    destruct neg.
    + cbn [append skipws isspace code]. exact K.
    + rewrite Et in *. cbn [append skipws]. rewrite Hsp.
      change (isspace " ") with true. cbv iota.
      rewrite Hsg. exact K.
  - assert (B : extract_float (" " ++ put_float v ++ rest) = Bad f32_zero).
    { destruct v as [s|s| |s m e]; try discriminate; try destruct s;
        reflexivity. }
    split; [right; eexists; exact B|intros _; exact B].
Qed.
End numeral_facts.

Module reread_facts.
Import ieee text text_facts common math float_spec numeral_spec numeral_facts.
Import record_spec stream_spec.
Local Open Scope string_scope.
Local Open Scope Z_scope.

Lemma extract_int_put_int_any (z : Z) (rest : string) :
  stops rest ->
  extract_int (put_int z ++ rest) = Got z rest
  \/ exists b, extract_int (put_int z ++ rest) = Bad b.
Proof.
  intros Hs.
  destruct (Z.ltb_spec z INT_MIN) as [L|L];
    [|destruct (Z.ltb_spec INT_MAX z) as [U|U];
      [|left; apply extract_int_put_int; [lia|exact Hs]]];
    right; unfold extract_int;
    destruct (read_put_int z rest Hs) as [Hw [k [Hk Hrd]]];
    rewrite Hw;
    destruct (put_int_nonempty z rest) as [c [r [E _]]];
    rewrite E in *;
    destruct (read_sign (String c r)) as [neg s];
    destruct Hrd as [-> Ht]; rewrite Ht;
    (destruct k as [|k]; [lia|]); cbn [Nat.eqb];
    assert (Hv : (if z <? 0 then - Z.abs z else Z.abs z) = z)
      by (destruct (Z.ltb_spec z 0); lia);
    rewrite Hv.
  - destruct (Z.ltb_spec z INT_MIN); [|lia]. eexists. reflexivity.
  - destruct (Z.ltb_spec z INT_MIN); [lia|].
    destruct (Z.ltb_spec INT_MAX z); [|lia]. eexists. reflexivity.
Qed.

(** One field of a line written by [sample_to_line], read by the loop of
    [parse_sample_line]. *)
Lemma read_field (i : nat) (xs : list float32) (v : float32) (R : string) :
  ends R ->
  read_feature false i (Some (xs, " " ++ put_float v ++ R)) = None
  \/ (finite v = true
      /\ exists v', read_feature false i (Some (xs, " " ++ put_float v ++ R))
                    = Some (upd xs i v', R)).
Proof.
  intros HR. destruct (reread_float v R HR) as [W B].
  unfold read_feature. cbn [andb].
  destruct (finite v) eqn:F.
  - destruct W as [[v' E]|[v' E]]; rewrite E.
    + right. split; [reflexivity|]. exists v'. reflexivity.
    + left. reflexivity.
  - left. rewrite (B eq_refl). reflexivity.
Qed.

Lemma sample_to_line_fields (s : Sample) :
  sample_to_line s
  = put_int (id s) ++ " " ++ put_float (get f32_zero (x s) 0)
      ++ " " ++ put_float (get f32_zero (x s) 1)
      ++ " " ++ put_float (get f32_zero (x s) 2)
      ++ " " ++ put_float (get f32_zero (x s) 3)
      ++ " " ++ put_float (y s) ++ "".
Proof.
  unfold sample_to_line. change INPUT_DIM with 4%nat.
  cbv [for_ seq fold_left]. rewrite !append_assoc, append_nil_r.
  reflexivity.
Qed.

Ltac blank_led := right; eexists; reflexivity.

(** Reads the next field of the line in the goal; what is left is the
    case in which it was read. *)
Ltac next_field F :=
  match goal with
  | |- context [read_feature false ?i
                  (Some (?xs, String " " (put_float ?v ++ ?R)))] =>
      let E := fresh "E" in
      let v' := fresh "v" in
      destruct (read_field i xs v R ltac:(blank_led)) as [E|[F [v' E]]];
      cbn [append] in E;
      match type of E with
      | _ = ?rhs =>
          replace (read_feature false i
                     (Some (xs, String " " (put_float v ++ R))))
            with rhs by (symmetry; exact E)
      end;
      [reflexivity|]
  end.

Lemma unreadable (s : Sample) :
  all_finite s = false ->
  parse_sample_line (sample_to_line s) = None.
Proof.
  intros H. rewrite sample_to_line_fields. unfold parse_sample_line.
  match goal with
  | |- context [extract_int (put_int ?z ++ ?r)] =>
      destruct (extract_int_put_int_any z r eq_refl) as [E|[b E]];
      rewrite E; [|reflexivity]
  end.
  change INPUT_DIM with 4%nat. cbv [for_ seq fold_left]. cbn [append].
  next_field F0. next_field F1. next_field F2. next_field F3.
  destruct (reread_float (y s) "" (or_introl eq_refl)) as [_ B].
  unfold all_finite in H. change INPUT_DIM with 4%nat in H.
  cbn [seq forallb] in H. rewrite F0, F1, F2, F3 in H. cbn [andb] in H.
  cbn [append] in B. rewrite (B H). reflexivity.
Qed.
End reread_facts.

(** ** forward_layer *)

Module forward_facts.
Import ieee text text_facts common math float_spec record_spec stream_spec stage_spec.
Import stage_facts.
Import accepted_facts reread_facts.
Local Open Scope string_scope.
Local Open Scope Z_scope.

Lemma forward_step_cases (st : forward_layer.state) (l : string) :
  forward_layer.out (forward_layer.step st l)
  = (forward_layer.out st
     ++ map (fun s => sample_to_line (augment_features s)) (parsed [l]))%list
  /\ forward_layer.err (forward_layer.step st l)
     = (forward_layer.err st
        ++ map (append "forward_layer: failed to parse line: ")
             (refused parse_sample_line [l]))%list.
Proof.
  unfold forward_layer.step, parsed, refused. cbn [flat_map filter].
  destruct l as [|c r].
  - change (parse_sample_line "") with (@None Sample). simpl.
    rewrite !app_nil_r. split; reflexivity.
  - change (String.eqb (String c r) "") with false. cbn [negb andb].
    destruct (parse_sample_line (String c r)); simpl;
      rewrite ?app_nil_r; split; reflexivity.
Qed.

Lemma forward_loop (lines : list string) :
  forall st,
    forward_layer.out (fold_left forward_layer.step lines st)
    = (forward_layer.out st
       ++ map (fun s => sample_to_line (augment_features s))
            (parsed lines))%list
    /\ forward_layer.err (fold_left forward_layer.step lines st)
       = (forward_layer.err st
          ++ map (append "forward_layer: failed to parse line: ")
               (refused parse_sample_line lines))%list.
Proof.
  induction lines as [|l r IH]; intros st.
  - simpl. rewrite !app_nil_r. split; reflexivity.
  - cbn [fold_left]. destruct (IH (forward_layer.step st l)) as [Ho He].
    destruct (forward_step_cases st l) as [So Se].
    rewrite Ho, He, So, Se.
    change (l :: r) with ([l] ++ r)%list.
    unfold parsed, refused in *.
    rewrite flat_map_app, filter_app, !map_app, <- !app_assoc.
    split; reflexivity.
Qed.

(** X9: [forward_layer::run] returns 0, writes the augmented record of each
    accepted line in order and one diagnostic for each refused non-empty
    line in order; outputs and diagnostics together are as many as the
    non-empty lines. *)
Theorem forward_run_accounts (stdin : list string) :
  let '(rc, out, err) := forward_layer.run stdin in
  rc = 0
  /\ out = map (fun s => sample_to_line (augment_features s)) (parsed stdin)
  /\ err = map (append "forward_layer: failed to parse line: ")
             (refused parse_sample_line stdin)
  /\ (length out + length err = length (nonempty stdin))%nat.
Proof.
  unfold forward_layer.run.
  destruct (forward_loop stdin (forward_layer.mkState [] [])) as [Ho He].
  cbn [forward_layer.out forward_layer.err app] in Ho, He.
  split; [reflexivity|]. split; [exact Ho|]. split; [exact He|].
  rewrite Ho, He, !length_map. unfold parsed.
  rewrite accounted. unfold nonempty. f_equal.
  apply filter_ext. intros l.
  destruct l as [|c r]; reflexivity.
Qed.

Lemma sample_to_line_nonempty (s : Sample) : sample_to_line s <> "".
Proof.
  rewrite sample_to_line_fields.
  match goal with
  | |- put_int ?z ++ ?r <> "" =>
      destruct (put_int_nonempty z r) as [c [t [E _]]]; rewrite E
  end.
  discriminate.
Qed.

(** X10: a record with an infinite or NaN feature or label, written by
    [sample_to_line], is refused by [parse_sample_line]; so when the square
    of the fourth feature overflows, forward_layer writes a line for which
    backward_layer only writes its diagnostic. *)
Theorem nonfinite_records_are_lost :
  (forall s, all_finite s = false ->
             parse_sample_line (sample_to_line s) = None)
  /\ (forall mode fw st l s,
        parse_sample_line l = Some s ->
        finite (SFmul 24 128 (get f32_zero (x s) 3) (get f32_zero (x s) 3))
        = false ->
        let written := sample_to_line (augment_features s) in
        forward_layer.step fw l
        = forward_layer.mkState (emit (forward_layer.out fw) written)
            (forward_layer.err fw)
        /\ backward_layer.step mode st written
           = backward_layer.mkState (backward_layer.params st)
               (backward_layer.count st) (backward_layer.out st)
               (emit (backward_layer.err st)
                  ("backward_layer: failed to parse line: " ++ written))).
Proof.
  split; [exact unreadable|].
  intros mode fw st l s H F written. split.
  - unfold forward_layer.step.
    destruct l as [|c r]; [discriminate H|]. rewrite H. reflexivity.
  - assert (N : parse_sample_line written = None).
    { apply unreadable. unfold all_finite.
      destruct (sample_accepted l s H) as ([L _] & _ & _).
      destruct s as [xs ys i]. cbn [x y id] in *. unfold INPUT_DIM in L.
      destruct xs as [|a [|b [|c [|d [|e xs]]]]]; try discriminate L.
      change INPUT_DIM with 4%nat. cbn [seq forallb].
      unfold augment_features, augment. cbn [x y id].
      change (get f32_zero [a; b; c; d] 3) with d in F.
      cbn [upd get nth Nat.sub INPUT_DIM Nat.ltb Nat.leb at1].
      change (@fmul ieee_arith) with (SFmul 24 128).
      rewrite F. rewrite !andb_false_r. reflexivity. }
    unfold backward_layer.step.
    pose proof (sample_to_line_nonempty (augment_features s)) as NE.
    fold written in NE. destruct written as [|c r]; [congruence|].
    rewrite N. reflexivity.
Qed.

Lemma nonfinite_records_are_lost_witness :
  parse_sample_line "1 0 0 0 inf 0" = None
  /\ backward_layer.step backward_layer.Train
       (backward_layer.mkState initial_params 0 [] []) "1 0 0 0 inf 0"
     = backward_layer.mkState initial_params 0 []
         ["backward_layer: failed to parse line: 1 0 0 0 inf 0"].
Proof.
  pose (s := @mkSample ieee_arith
               [S754_zero false; S754_zero false; S754_zero false;
                S754_finite false 13234890 76] (S754_zero false) 1).
  destruct nonfinite_records_are_lost as [A B]. split.
  - apply (A (augment_features s)). reflexivity.
  - apply (B backward_layer.Train (forward_layer.mkState [] [])
             (backward_layer.mkState initial_params 0 [] [])
             "1 0 0 0 1e30 0" s); reflexivity.
Defined.
End forward_facts.

(** ** Training steps over the reals *)

Module descent_facts.
Import common math math_spec math_facts real gradient_facts.
Local Open Scope R_scope.

Ltac explicit_step :=
  cbv [descend sgd_update loss_gradient gradients
       upd2 upd get at1 at2 nth for_ fold_left
       seq repeat zeros HIDDEN_DIM INPUT_DIM g_W1 g_b1 g_w2 g_b2
       dL_dW1 dL_db1 dL_dw2 dL_db2 x y fst snd] in *;
  change (@fadd real_arith) with Rplus in *;
  change (@fsub real_arith) with Rminus in *;
  change (@fmul real_arith) with Rmult in *;
  change (@fgt real_arith) with gt in *;
  change (@f0 real_arith) with 0 in *;
  change (@flt real_arith) with R in *;
  unfold gt in *.








(** *** The network before any training *)



End descent_facts.

(** ** load_parameters *)

Module load_facts.
Import ieee text common math math_spec array_facts persistence_spec.
Import load_spec list_facts.
Local Open Scope string_scope.
Local Open Scope Z_scope.

Lemma read_split (ifs : ifstream) (t : float32) :
  read extract_float (ifs, t) = (next ifs, value ifs t).
Proof.
  unfold next, value, read.
  destruct (failbit ifs); [reflexivity|].
  destruct (extract_float (left ifs)); reflexivity.
Qed.

(** [failbit] is never cleared by a read. *)
Lemma next_live (ifs : ifstream) :
  failbit (next ifs) = false -> failbit ifs = false.
Proof.
  unfold next, read. destruct (failbit ifs) eqn:E; [|reflexivity].
  cbn [fst]. rewrite E. discriminate.
Qed.

Lemma nexts_live (n : nat) (ifs : ifstream) :
  failbit (nexts n ifs) = false -> failbit ifs = false.
Proof.
  induction n as [|n IH]; [auto|]. intros H. apply IH, next_live, H.
Qed.

Lemma nexts_add (n m : nat) (ifs : ifstream) :
  nexts (n + m) ifs = nexts n (nexts m ifs).
Proof. induction n as [|n IH]; simpl; [|rewrite IH]; reflexivity. Qed.

Lemma nexts_S (n : nat) (ifs : ifstream) :
  nexts (S n) ifs = next (nexts n ifs).
Proof. reflexivity. Qed.

Lemma nexts_live_le (n m : nat) (ifs : ifstream) :
  (n <= m)%nat -> failbit (nexts m ifs) = false ->
  failbit (nexts n ifs) = false.
Proof.
  intros H. replace m with ((m - n) + n)%nat by lia.
  rewrite nexts_add. apply nexts_live.
Qed.

(** A read that succeeds stores what it found in the file. *)
Lemma value_indep (ifs : ifstream) (t t' : float32) :
  failbit (next ifs) = false -> value ifs t = value ifs t'.
Proof.
  unfold next, value, read. destruct (failbit ifs) eqn:E.
  - cbn [fst]. rewrite E. discriminate.
  - destruct (extract_float (left ifs)); cbn [fst snd failbit];
      [reflexivity|discriminate|discriminate].
Qed.

Lemma numbers_S (n : nat) (ifs : ifstream) :
  numbers (S n) ifs = (numbers n ifs ++ [value (nexts n ifs) f32_zero])%list.
Proof. unfold numbers. rewrite seq_S, map_app. reflexivity. Qed.

Lemma length_numbers (n : nat) (ifs : ifstream) : length (numbers n ifs) = n.
Proof. unfold numbers. rewrite length_map, length_seq. reflexivity. Qed.

(** A loop that reads into the elements of an array, one after the
    other. *)
Lemma read_loop (d0 : float32) (n : nat) (ifs : ifstream) (a : list float32) :
  for_ n (fun j '(ifs, b) =>
            let '(ifs, v) := read extract_float (ifs, get d0 b j) in
            (ifs, upd b j v)) (ifs, a)
  = (nexts n ifs,
     for_ n (fun j b => upd b j (value (nexts j ifs) (get d0 b j))) a).
Proof.
  induction n as [|n IH]; [reflexivity|].
  rewrite !for_S, IH, read_split. reflexivity.
Qed.

Lemma read_loop_numbers (d0 : float32) (n : nat) (ifs : ifstream) (a : list float32) :
  failbit (nexts n ifs) = false -> (n <= length a)%nat ->
  for_ n (fun j b => upd b j (value (nexts j ifs) (get d0 b j))) a
  = (numbers n ifs ++ skipn n a)%list.
Proof.
  induction n as [|n IH]; intros H Hn; [reflexivity|].
  rewrite for_S, IH by (try apply next_live; try exact H; lia).
  rewrite (value_indep _ _ f32_zero H).
  pose proof (length_numbers n ifs) as L.
  rewrite <- L at 2 3. rewrite upd_next by (rewrite L; lia).
  rewrite L, numbers_S. reflexivity.
Qed.

Lemma read_array (d0 : float32) (n : nat) (ifs : ifstream) (a : list float32) :
  length a = n ->
  let r := for_ n (fun j '(ifs, b) =>
                     let '(ifs, v) := read extract_float (ifs, get d0 b j) in
                     (ifs, upd b j v)) (ifs, a) in
  fst r = nexts n ifs
  /\ length (snd r) = n
  /\ (failbit (nexts n ifs) = false -> snd r = numbers n ifs).
Proof.
  intros L r. unfold r. rewrite read_loop. cbn [fst snd].
  split; [reflexivity|]. split.
  - apply (for_keeps (fun b => length b = n)); [|exact L].
    intros j b Hb. rewrite upd_length. exact Hb.
  - intros H. rewrite read_loop_numbers by (try exact H; lia).
    rewrite <- L, skipn_all, app_nil_r. reflexivity.
Qed.

(** The loop over one row of [g_W1] is a loop over that row. *)
Lemma row_loop (m j : nat) (ifs : ifstream) (W : list (list float32)) :
  (j < length W)%nat ->
  for_ m (fun k '(ifs, W1) =>
            let '(ifs, v) := read extract_float (ifs, at2 W1 j k) in
            (ifs, upd2 W1 j k v)) (ifs, W)
  = let r := for_ m (fun k '(ifs, b) =>
                       let '(ifs, v) := read extract_float (ifs, get f0 b k) in
                       (ifs, upd b k v)) (ifs, get [] W j) in
    (fst r, upd W j (snd r)).
Proof.
  intros Hj. induction m as [|m IH].
  - cbn. rewrite upd_get_same. reflexivity.
  - rewrite !for_S, IH. cbv zeta.
    match goal with
    | |- context [for_ m ?b (ifs, get [] W j)] =>
        destruct (for_ m b (ifs, get [] W j)) as [ifs' r]
    end.
    cbn [fst snd].
    unfold at2, upd2. rewrite get_upd_same by exact Hj.
    destruct (read extract_float (ifs', get f0 r m)) as [ifs'' v].
    cbn [fst snd]. rewrite upd_upd. reflexivity.
Qed.

Lemma length_rows (n : nat) (ifs : ifstream) : length (rows n ifs) = n.
Proof. unfold rows. rewrite length_map, length_seq. reflexivity. Qed.

Lemma rows_S (n : nat) (ifs : ifstream) :
  rows (S n) ifs = (rows n ifs ++ [numbers 4 (nexts (4 * n) ifs)])%list.
Proof. unfold rows. rewrite seq_S, map_app. reflexivity. Qed.

Lemma matrix_loop (n : nat) (ifs : ifstream) (W : list (list float32)) :
  Forall (fun r => length r = 4%nat) W -> (n <= length W)%nat ->
  let r := for_ n (fun j st =>
             for_ INPUT_DIM (fun k '(ifs, W1) =>
               let '(ifs, v) := read extract_float (ifs, at2 W1 j k) in
               (ifs, upd2 W1 j k v)) st) (ifs, W) in
  fst r = nexts (4 * n) ifs
  /\ length (snd r) = length W
  /\ Forall (fun r => length r = 4%nat) (snd r)
  /\ (failbit (nexts (4 * n) ifs) = false ->
      snd r = (rows n ifs ++ skipn n W)%list).
Proof.
  intros HW. induction n as [|n IH]; intros Hn r.
  - subst r. cbn. auto.
  - subst r. rewrite for_S.
    destruct IH as (E1 & E2 & E3 & E4); [lia|].
    match type of E1 with
    | fst (for_ n ?b (ifs, W)) = _ =>
        destruct (for_ n b (ifs, W)) as [ifs' W']
    end.
    cbn [fst snd flt ieee_arith] in *.
    rewrite row_loop by lia. cbv zeta.
    assert (Hr : length (get [] W' n) = 4%nat)
      by (apply (forall_get (fun r => length r = 4%nat)); [exact E3|lia]).
    change INPUT_DIM with 4%nat.
    match goal with
    | |- context [for_ 4 ?b ?s] =>
        assert (R : fst (for_ 4 b s) = nexts 4 ifs'
                    /\ length (snd (for_ 4 b s)) = 4%nat
                    /\ (failbit (nexts 4 ifs') = false ->
                        snd (for_ 4 b s) = numbers 4 ifs'))
          by exact (read_array (@f0 ieee_arith) 4 ifs' _ Hr);
        destruct (for_ 4 b s) as [ifs'' row]
    end.
    destruct R as (R1 & R2 & R3). cbn [fst snd] in *.
    replace (4 * S n)%nat with (4 + 4 * n)%nat by lia.
    rewrite nexts_add, <- E1, <- R1.
    split; [reflexivity|]. split; [rewrite upd_length; exact E2|].
    split; [apply forall_upd; assumption|].
    intros H. rewrite R1 in H. rewrite (R3 H).
    rewrite E4 by (rewrite <- E1; apply (nexts_live 4), H).
    pose proof (length_rows n ifs) as L.
    rewrite <- L at 2 3. rewrite upd_next by (rewrite L, length_skipn || rewrite L; lia).
    rewrite L, rows_S, E1. reflexivity.
Qed.

Lemma load_shaped (p : Params) (d : disk) (path data : string) :
  shaped p -> content d path = Some data ->
  fst (load_parameters p d path) = accepted data
  /\ (accepted data = true -> snd (load_parameters p d path) = held data).
Proof.
  intros (S1 & S2 & S3 & S4) E. unfold load_parameters, accepted.
  rewrite E. unfold held, after_header.
  destruct (read extract_size_t _) as [ifs1 hd].
  destruct (read extract_size_t _) as [ifs2 idim].
  destruct (failbit ifs2 || _ || _); [split; [reflexivity|discriminate]|].
  cbn [fst]. unfold at1 in *.
  match goal with
  | |- context [for_ HIDDEN_DIM ?b (ifs2, g_W1 p)] =>
      assert (R : fst (for_ HIDDEN_DIM b (ifs2, g_W1 p)) = nexts 32 ifs2
                  /\ (failbit (nexts 32 ifs2) = false ->
                      snd (for_ HIDDEN_DIM b (ifs2, g_W1 p)) = rows 8 ifs2));
      [|destruct (for_ HIDDEN_DIM b (ifs2, g_W1 p)) as [ifs3 W]]
  end.
  { destruct (matrix_loop 8 ifs2 (g_W1 p) S2) as (E1 & _ & _ & E4);
      [apply Nat.eq_le_incl; symmetry; exact S1|].
    split; [exact E1|]. intros L.
    assert (K : @skipn (list float32) 8 (g_W1 p) = [])
      by (apply skipn_all2, Nat.eq_le_incl; exact S1).
    rewrite K, app_nil_r in E4. exact (E4 L). }
  destruct R as [R1 R2]. cbn [fst snd] in R1, R2. subst ifs3.
  match goal with
  | |- context [for_ HIDDEN_DIM ?b (nexts 32 ifs2, g_b1 p)] =>
      assert (R : fst (for_ HIDDEN_DIM b (nexts 32 ifs2, g_b1 p))
                  = nexts 8 (nexts 32 ifs2)
                  /\ length (snd (for_ HIDDEN_DIM b (nexts 32 ifs2, g_b1 p)))
                     = 8%nat
                  /\ (failbit (nexts 8 (nexts 32 ifs2)) = false ->
                      snd (for_ HIDDEN_DIM b (nexts 32 ifs2, g_b1 p))
                      = numbers 8 (nexts 32 ifs2)))
        by exact (read_array (@f0 ieee_arith) 8 (nexts 32 ifs2) _ S3);
      destruct (for_ HIDDEN_DIM b (nexts 32 ifs2, g_b1 p)) as [ifs4 b1]
  end.
  destruct R as (R3 & _ & R4). cbn [fst snd] in R3, R4. subst ifs4.
  match goal with
  | |- context [for_ HIDDEN_DIM ?b (?i, g_w2 p)] =>
      assert (R : fst (for_ HIDDEN_DIM b (i, g_w2 p)) = nexts 8 i
                  /\ length (snd (for_ HIDDEN_DIM b (i, g_w2 p))) = 8%nat
                  /\ (failbit (nexts 8 i) = false ->
                      snd (for_ HIDDEN_DIM b (i, g_w2 p)) = numbers 8 i))
        by exact (read_array (@f0 ieee_arith) 8 i _ S4);
      destruct (for_ HIDDEN_DIM b (i, g_w2 p)) as [ifs5 w2]
  end.
  destruct R as (R5 & _ & R6). cbn [fst snd] in R5, R6. subst ifs5.
  rewrite read_split. cbn [fst snd].
  rewrite <- !nexts_add in *.
  change (8 + (8 + 32))%nat with 48%nat in *.
  change (8 + 32)%nat with 40%nat in *.
  rewrite (nexts_S 48).
  split; [reflexivity|]. intros H. apply negb_true_iff in H.
  assert (L48 : failbit (nexts 48 ifs2) = false) by (apply next_live, H).
  assert (L40 : failbit (nexts 40 ifs2) = false)
    by (apply (nexts_live_le 40 48); [repeat constructor|exact L48]).
  assert (L32 : failbit (nexts 32 ifs2) = false)
    by (apply (nexts_live_le 32 40); [repeat constructor|exact L40]).
  rewrite (R2 L32), (R4 L40), (R6 L48).
  f_equal. apply value_indep, H.
Qed.

(** X14: when [load_parameters] returns [true], the parameters afterwards
    are those of the file alone: nothing of the arrays that were there
    before the call remains. *)
Theorem successful_load_overwrites_all (p1 p2 : Params) (d : disk)
    (path : string) :
  shaped p1 -> shaped p2 ->
  fst (load_parameters p1 d path) = true ->
  load_parameters p2 d path = load_parameters p1 d path.
Proof.
  intros S1 S2 H.
  destruct (content d path) as [data|] eqn:E;
    [|unfold load_parameters in H; rewrite E in H; discriminate H].
  destruct (load_shaped p1 d path data S1 E) as [F1 L1].
  destruct (load_shaped p2 d path data S2 E) as [F2 L2].
  rewrite F1 in H.
  rewrite (surjective_pairing (load_parameters p1 d path)),
          (surjective_pairing (load_parameters p2 d path)).
  rewrite F1, F2, (L1 H), (L2 H). reflexivity.
Qed.

Lemma successful_load_overwrites_all_witness :
  let d := store empty_disk "model" (serialize initial_params) in
  let blank := mkParams (repeat (repeat f32_zero INPUT_DIM) HIDDEN_DIM)
                 (repeat f32_zero HIDDEN_DIM) (repeat f32_zero HIDDEN_DIM)
                 f32_zero in
  load_parameters blank d "model" = load_parameters initial_params d "model".
Proof.
  intros d blank.
  apply (successful_load_overwrites_all initial_params blank d "model").
  - repeat split; repeat constructor.
  - repeat split; repeat constructor.
  - vm_compute. reflexivity.
Defined.
End load_facts.

(** ** backward_layer *)

Module learner_facts.
Import ieee text common math math_spec stream_spec persistence_spec stage_spec.
Import backward_layer backward_layer_facts persistence_facts.
Local Open Scope string_scope.
Local Open Scope Z_scope.

Lemma learner_step_err (mode : Mode) (st : state) (l : string) :
  err (step mode st l)
  = (err st ++ map (append "backward_layer: failed to parse line: ")
               (refused parse_sample_line [l]))%list.
Proof.
  unfold step, refused. cbn [filter].
  destruct l as [|c r]; [simpl; rewrite app_nil_r; reflexivity|].
  change (String.eqb (String c r) "") with false. cbn [negb andb].
  destruct (parse_sample_line (String c r)) as [s|].
  - destruct mode.
    + destruct (compute_backward_and_update _ _ _) as [[p ls] g].
      simpl. rewrite app_nil_r. reflexivity.
    + simpl. rewrite app_nil_r. reflexivity.
  - reflexivity.
Qed.

Lemma learner_loop_err (mode : Mode) (lines : list string) :
  forall st,
    err (fold_left (step mode) lines st)
    = (err st ++ map (append "backward_layer: failed to parse line: ")
                 (refused parse_sample_line lines))%list.
Proof.
  induction lines as [|l r IH]; intros st.
  - simpl. rewrite app_nil_r. reflexivity.
  - cbn [fold_left]. rewrite IH, learner_step_err.
    change (l :: r) with ([l] ++ r)%list. unfold refused.
    rewrite filter_app, map_app, <- app_assoc. reflexivity.
Qed.

(** What [save_parameters] leaves on the disk. *)
Lemma saved (b : Z) (p : Params) (d : disk) (path : string) :
  let '(ok, d', _) := save_parameters b p d path in
  ok = writable d path
  /\ (forall q, q <> path -> content d' q = content d q)
  /\ content d' path
     = (if writable d path then Some (serialize p) else content d path).
Proof.
  unfold save_parameters.
  destruct (writable d path); cbn [negb]; [|repeat split; reflexivity].
  pose proof (write_parameters_grown b p _ grown_open) as G.
  pose proof (write_parameters_text b p) as T.
  revert G T.
  generalize (write_parameters b p ofstream_open) (serialize p).
  intros o0 txt G T.
  destruct (closed_stream o0 G) as [E _].
  rewrite E, T.
  split; [reflexivity|]. split.
  - intros q Hq. cbn [store content].
    destruct (String.eqb_spec q path); [contradiction|reflexivity].
  - cbn [store content]. rewrite String.eqb_refl. reflexivity.
Qed.



(** X16: in test mode [backward_layer::run] returns 0, leaves the disk as
    it is, first reports whether the model was loaded, and evaluates every
    accepted line with the same parameters, those that [load_parameters]
    left. *)
Theorem test_run_only_reads (b : Z) (getenv : string -> option string)
    (d : disk) (stdin : list string) :
  get_mode getenv = Test ->
  let path := get_model_path getenv in
  let '(ok, p) := load_parameters initial_params d path in
  let '(rc, d', out, err) := run b getenv d stdin in
  rc = 0 /\ d' = d
  /\ out = map (fun s => result_line (id s) (loss p s)
                           (math.compute_forward p s)) (parsed stdin)
  /\ err = (if ok
            then "backward_layer: loaded parameters from " ++ path
            else "backward_layer: no model file at " ++ path
                   ++ ", using initial parameters")
           :: map (append "backward_layer: failed to parse line: ")
                (refused parse_sample_line stdin).
Proof.
  intros M path. unfold run. rewrite M. fold path.
  destruct (load_parameters initial_params d path) as [ok p].
  unfold run_stream.
  set (st0 := {| params := p; count := 0; out := []; err := [] |}).
  destruct (test_fold stdin st0) as [Hp Ho].
  pose proof (learner_loop_err Test stdin st0) as He.
  subst st0. cbn [params out err app] in Hp, Ho, He.
  destruct ok; cbn [negb]; cbv beta iota; rewrite Ho, He, app_nil_r;
    repeat split; reflexivity.
Qed.

Lemma test_run_only_reads_witness :
  let '(rc, d', _, err) := run 8192 test_env empty_disk [] in
  rc = 0 /\ d' = empty_disk
  /\ err = ["backward_layer: no model file at logs/model_params.txt, using initial parameters"].
Proof.
  pose proof (test_run_only_reads 8192 test_env empty_disk [] eq_refl) as H.
  cbv zeta in H.
  change (load_parameters initial_params empty_disk (get_model_path test_env))
    with (false, @initial_params ieee_arith) in H.
  cbv beta iota in H.
  destruct (run 8192 test_env empty_disk []) as [[[rc d'] out] err].
  destruct H as (H1 & H2 & _ & H4).
  split; [exact H1|]. split; [exact H2|]. exact H4.
Defined.
End learner_facts.

(** ** logger *)

Module monitor_facts.
Import ieee text text_facts logger logger_spec logger_facts monitor_spec.
Local Open Scope string_scope.
Local Open Scope Z_scope.

Lemma malformed_iteration (st : state) (a : arrival) :
  malformed a ->
  iteration st a
  = ({| count := count st; total_loss := total_loss st;
        total_yhat := total_yhat st;
        g_dump_requested := g_dump_requested st || sigusr1 a;
        g_terminate_requested := g_terminate_requested st || sigterm a;
        out := out st;
        err := emit (err st) (complaint a) |}, false).
Proof.
  intros [Hne Hp]. unfold iteration, complaint.
  destruct (line a) as [|c r]; [congruence|]. rewrite Hp. reflexivity.
Qed.

(** X17: lines that are not results do not stop the logger and are not
    counted: each of them adds one diagnostic, nothing is written to
    standard output, and [SIGTERM] is remembered without ending the
    loop. *)
Theorem malformed_lines_do_not_stop (stdin : list arrival) :
  Forall malformed stdin ->
  forall st,
    count (loop st stdin) = count st
    /\ out (loop st stdin) = out st
    /\ err (loop st stdin) = (err st ++ map complaint stdin)%list
    /\ g_terminate_requested (loop st stdin)
       = g_terminate_requested st || existsb sigterm stdin.
Proof.
  induction 1 as [|a rest Ha _ IH]; intros st.
  - cbn. rewrite app_nil_r, orb_false_r. auto.
  - cbn [loop]. rewrite (malformed_iteration st a Ha).
    match goal with |- context [loop ?s rest] => destruct (IH s) as (Ic & Io & Ie & It) end.
    rewrite Ic, Io, Ie, It. cbn [count out err g_terminate_requested existsb map].
    unfold emit. rewrite <- app_assoc, orb_assoc. auto.
Qed.

Lemma malformed_lines_do_not_stop_witness :
  let stdin := [mkArrival false true "x"; mkArrival false false "1 2"] in
  err (loop initial stdin)
  = ["logger: failed to parse line: x"; "logger: failed to parse line: 1 2"].
Proof.
  intros stdin.
  refine (proj1 (proj2 (proj2 (malformed_lines_do_not_stop stdin _ initial)))).
  repeat constructor; discriminate.
Defined.



(** *** Snapshots and requests *)

Lemma complaint_is_no_snapshot (a : arrival) : is_snapshot (complaint a) = false.
Proof. reflexivity. Qed.

Lemma snapshot_line_is_snapshot (n : Z) (a b : float64) :
  is_snapshot (snapshot_line n a b) = true.
Proof. reflexivity. Qed.

Lemma snapshots_emit (err : list string) (l : string) :
  snapshots (emit err l)
  = (snapshots err + if is_snapshot l then 1 else 0)%nat.
Proof.
  unfold snapshots, emit. rewrite filter_app, length_app. cbn [filter].
  destruct (is_snapshot l); reflexivity.
Qed.

Lemma iteration_snapshots (st : state) (a : arrival) :
  let st' := fst (iteration st a) in
  (snapshots (err st') + pending st'
   <= snapshots (err st) + pending st + (if sigusr1 a then 1 else 0))%nat.
Proof.
  unfold iteration, pending.
  destruct (line a) as [|c r].
  - cbn [fst deliver g_dump_requested err].
    destruct (g_dump_requested st), (sigusr1 a); cbn [orb]; lia.
  - destruct (parse_result (String c r)) as [[[i l] y]|].
    + cbn [fst]. unfold snapshot_check.
      cbn [account deliver g_dump_requested err count].
      destruct (g_dump_requested st) eqn:Ed, (sigusr1 a) eqn:Es; cbn [orb];
        cbn [account deliver g_dump_requested err]; rewrite ?Ed, ?Es;
        cbn [orb]; try destruct (0 <? _);
        rewrite ?snapshots_emit, ?snapshot_line_is_snapshot; lia.
    + cbn [fst g_dump_requested err deliver].
      change (emit (err st) ("logger: failed to parse line: " ++ String c r))
        with (emit (err st) (complaint (mkArrival false false (String c r)))).
      rewrite snapshots_emit, complaint_is_no_snapshot.
      destruct (g_dump_requested st), (sigusr1 a); cbn [orb]; lia.
Qed.

Lemma loop_snapshots (stdin : list arrival) :
  forall st,
    (snapshots (err (loop st stdin)) + pending (loop st stdin)
     <= snapshots (err st) + pending st + requests stdin)%nat.
Proof.
  induction stdin as [|a rest IH]; intros st.
  - cbn. lia.
  - cbn [loop]. pose proof (iteration_snapshots st a) as H. cbv zeta in H.
    destruct (iteration st a) as [st' stop]. cbn [fst] in H.
    unfold requests in *. cbn [filter].
    destruct stop.
    + destruct (sigusr1 a); cbn [length]; lia.
    + specialize (IH st'). destruct (sigusr1 a); cbn [length]; lia.
Qed.

Lemma length_emit (ch : list string) (l : string) :
  length (emit ch l) = (length ch + 1)%nat.
Proof. unfold emit. rewrite length_app. reflexivity. Qed.

Lemma iteration_snapshots_records (st : state) (a : arrival) :
  let st' := fst (iteration st a) in
  (snapshots (err st') + length (out st)
   <= snapshots (err st) + length (out st'))%nat.
Proof.
  unfold iteration.
  destruct (line a) as [|c r].
  - cbn [fst deliver out err]. lia.
  - destruct (parse_result (String c r)) as [[[i l] y]|].
    + cbn [fst]. unfold snapshot_check.
      destruct (g_dump_requested _);
        cbn [account deliver out err];
        try destruct (0 <? _); rewrite ?snapshots_emit,
          ?snapshot_line_is_snapshot, ?length_emit; lia.
    + cbn [fst out err deliver].
      change (emit (err st) ("logger: failed to parse line: " ++ String c r))
        with (emit (err st) (complaint (mkArrival false false (String c r)))).
      rewrite snapshots_emit, complaint_is_no_snapshot. lia.
Qed.

Lemma loop_snapshots_records (stdin : list arrival) :
  forall st,
    (snapshots (err (loop st stdin)) + length (out st)
     <= snapshots (err st) + length (out (loop st stdin)))%nat.
Proof.
  induction stdin as [|a rest IH]; intros st.
  - cbn. lia.
  - cbn [loop]. pose proof (iteration_snapshots_records st a) as H.
    cbv zeta in H.
    destruct (iteration st a) as [st' stop]. cbn [fst] in H.
    destruct stop; [exact H|]. specialize (IH st'). lia.
Qed.

(** X19: the logger writes no more snapshots than [SIGUSR1] was delivered,
    and no more than it has counted results. *)
Theorem no_more_snapshots_than_requests (stdin : list arrival) :
  let '(_, _, err) := run stdin in
  (snapshots err <= requests stdin)%nat
  /\ (snapshots err <= length (processed false stdin))%nat.
Proof.
  unfold run. pose proof (loop_snapshots stdin initial) as H.
  pose proof (loop_snapshots_records stdin initial) as R.
  destruct (loop_accumulates stdin initial) as (_ & _ & _ & O).
  rewrite O in R. cbn [out initial app length g_terminate_requested] in R.
  rewrite length_map in R.
  change (snapshots (err initial)) with 0%nat in H, R.
  change (pending initial) with 0%nat in H.
  unfold final_summary. destruct (0 <? count (loop initial stdin)); cbn [err].
  - lia.
  - rewrite snapshots_emit. change (is_snapshot no_samples_note) with false.
    cbv iota. lia.
Qed.
End monitor_facts.

Module result_facts.
Import ieee text text_facts common float_spec numeral_spec numeral_facts.
Import logger monitor_spec monitor_facts reread_facts.
Local Open Scope string_scope.
Local Open Scope Z_scope.

Lemma result_line_refused (i : Z) (loss y_hat : float32) :
  finite loss && finite y_hat = false ->
  parse_result (backward_layer.result_line i loss y_hat) = None.
Proof.
  intros H. unfold backward_layer.result_line, parse_result.
  match goal with
  | |- context [extract_int (put_int ?z ++ ?r)] =>
      destruct (extract_int_put_int_any z r eq_refl) as [E|[b E]];
      rewrite E; [|reflexivity]
  end.
  destruct (reread_float loss (" " ++ put_float y_hat)
              ltac:(right; eexists; reflexivity)) as [W B].
  destruct (finite loss) eqn:F; [|rewrite (B eq_refl); reflexivity].
  destruct W as [[v E1]|[v E1]]; rewrite E1; [|reflexivity].
  destruct (reread_float y_hat "" (or_introl eq_refl)) as [_ B'].
  rewrite append_nil_r in B'. cbn [andb] in H. rewrite (B' H). reflexivity.
Qed.

Lemma result_line_nonempty (i : Z) (loss y_hat : float32) :
  backward_layer.result_line i loss y_hat <> "".
Proof.
  unfold backward_layer.result_line.
  destruct (put_int_nonempty i (" " ++ put_float loss ++ " " ++ put_float y_hat))
    as [c [r [E _]]].
  rewrite E. discriminate.
Qed.

(** X20: a result line of backward_layer whose loss or prediction is
    infinite or NaN is not counted by the logger: the count, the sums and
    standard output stay as they are and the line is reported. *)
Theorem nonfinite_results_are_not_counted (st : state) (a : arrival)
    (i : Z) (loss y_hat : float32) :
  line a = backward_layer.result_line i loss y_hat ->
  finite loss && finite y_hat = false ->
  let st' := fst (iteration st a) in
  count st' = count st
  /\ total_loss st' = total_loss st
  /\ total_yhat st' = total_yhat st
  /\ out st' = out st
  /\ err st' = emit (err st) (complaint a).
Proof.
  intros El H.
  assert (M : malformed a).
  { split; rewrite El; [apply result_line_nonempty|].
    apply result_line_refused, H. }
  rewrite (malformed_iteration st a M). cbn. repeat split.
Qed.

Lemma nonfinite_results_are_not_counted_witness :
  let a := mkArrival false false "4 inf 0.5" in
  count (fst (iteration initial a)) = 0
  /\ err (fst (iteration initial a))
     = ["logger: failed to parse line: 4 inf 0.5"].
Proof.
  intros a.
  destruct (nonfinite_results_are_not_counted initial a 4
              (S754_infinity false) (S754_finite false 8388608 (-24))
              eq_refl eq_refl) as (H1 & _ & _ & _ & H5).
  split; [exact H1|exact H5].
Defined.
End result_facts.

(** ** trainer: the descriptors of the stages *)

Module plumbing_facts.
Import posix plumbing plumbing_spec.

Lemma lowest_free_spec (t : fdtable) (fuel : nat) :
  forall from fd, lowest_free t from fuel = Some fd ->
                  from <= fd /\ t fd = None.
Proof.
  induction fuel as [|f IH]; intros from fd H; [discriminate|].
  cbn [lowest_free] in H. destruct (t from) eqn:E.
  - apply IH in H. split; [lia|apply H].
  - injection H as <-. split; [lia|exact E].
Qed.

Lemma bind_same (t : fdtable) (fd : Z) (d : option descriptor) :
  bind t fd d fd = d.
Proof. unfold bind. rewrite Z.eqb_refl. reflexivity. Qed.

Lemma bind_other (t : fdtable) (fd q : Z) (d : option descriptor) :
  q <> fd -> bind t fd d q = t q.
Proof. intros H. unfold bind. destruct (Z.eqb_spec q fd); [contradiction|reflexivity]. Qed.

(** A descriptor that is free after one was opened is another one, and
    was free before. *)
Lemma bind_free (t : fdtable) (fd q : Z) (d : descriptor) :
  bind t fd (Some d) q = None -> q <> fd /\ t q = None.
Proof.
  unfold bind. destruct (Z.eqb_spec q fd); [discriminate|]. auto.
Qed.

Lemma pipe_spec (limit n : nat) (t t' : fdtable) (r w : Z) :
  pipe limit n t = Some (r, w, t') ->
  0 <= r /\ 0 <= w /\ w <> r /\ t r = None /\ t w = None
  /\ t' = bind (bind t r (reads n)) w (writes n).
Proof.
  unfold pipe. destruct (lowest_free t 0 limit) as [r'|] eqn:E1;
    [|discriminate].
  destruct (lowest_free (bind t r' _) 0 limit) as [w'|] eqn:E2;
    [|discriminate].
  intros H. injection H as <- <- <-.
  apply lowest_free_spec in E1. apply lowest_free_spec in E2.
  destruct E1 as [R1 R2]. destruct E2 as [W1 W2].
  apply bind_free in W2. destruct W2 as [W2 W3].
  repeat split; auto.
Qed.

Lemma exec_bind_other (t : fdtable) (fd q : Z) (d : option descriptor) :
  q <> fd -> exec (bind t fd d) q = exec t q.
Proof. intros H. unfold exec. rewrite bind_other by exact H. reflexivity. Qed.

Lemma set_cloexec_open (t : fdtable) (fd : Z) (d : descriptor) :
  t fd = Some d ->
  set_cloexec t fd = bind t fd (Some (mkDescriptor (target d) true)).
Proof.
  intros E. unfold set_cloexec, fcntl_getfd, fcntl_setfd. rewrite E.
  destruct (cloexec d); reflexivity.
Qed.

Ltac differ := first [assumption | apply not_eq_sym; assumption].

Ltac look :=
  repeat first [rewrite bind_same | rewrite bind_other by differ].

Lemma after_set_up (limit : nat) (t0 t1 t2 t3 : fdtable)
    (r0 w0 r1 w1 r2 w2 : Z) :
  pipe limit 0 t0 = Some (r0, w0, t1) ->
  pipe limit 1 t1 = Some (r1, w1, t2) ->
  pipe limit 2 t2 = Some (r2, w2, t3) ->
  forked t0
    (set_cloexec (set_cloexec (set_cloexec (set_cloexec
       (set_cloexec (set_cloexec t3 r0) w0) r1) w1) r2) w2)
    r0 w0 r1 w1 r2 w2.
Proof.
  intros P0 P1 P2. apply pipe_spec in P0, P1, P2.
  destruct P0 as (A0 & B0 & C0 & D0 & E0 & ->).
  destruct P1 as (A1 & B1 & C1 & D1 & E1 & ->).
  destruct P2 as (A2 & B2 & C2 & D2 & E2 & ->).
  apply bind_free in D2, E2. destruct D2 as [D2a D2]. destruct E2 as [E2a E2].
  apply bind_free in D2, E2. destruct D2 as [D2b D2]. destruct E2 as [E2b E2].
  apply bind_free in D2, E2. destruct D2 as [D2c D2]. destruct E2 as [E2c E2].
  apply bind_free in D2, E2. destruct D2 as [D2d D2]. destruct E2 as [E2d E2].
  apply bind_free in D1, E1. destruct D1 as [D1a D1]. destruct E1 as [E1a E1].
  apply bind_free in D1, E1. destruct D1 as [D1b D1]. destruct E1 as [E1b E1].
  set (P := bind (bind (bind (bind (bind (bind t0 r0 (reads 0)) w0 (writes 0))
                             r1 (reads 1)) w1 (writes 1)) r2 (reads 2))
              w2 (writes 2)).
  set (T := bind (bind (bind (bind (bind (bind P
              r0 (Some (mkDescriptor (pipe_read 0) true)))
              w0 (Some (mkDescriptor (pipe_write 0) true)))
              r1 (Some (mkDescriptor (pipe_read 1) true)))
              w1 (Some (mkDescriptor (pipe_write 1) true)))
              r2 (Some (mkDescriptor (pipe_read 2) true)))
              w2 (Some (mkDescriptor (pipe_write 2) true))).
  assert (EQ : set_cloexec (set_cloexec (set_cloexec (set_cloexec
                 (set_cloexec (set_cloexec P r0) w0) r1) w1) r2) w2 = T).
  { unfold T.
    rewrite (set_cloexec_open P r0 (mkDescriptor (pipe_read 0) false))
      by (unfold P; look; reflexivity).
    rewrite (set_cloexec_open _ w0 (mkDescriptor (pipe_write 0) false))
      by (unfold P; look; reflexivity).
    rewrite (set_cloexec_open _ r1 (mkDescriptor (pipe_read 1) false))
      by (unfold P; look; reflexivity).
    rewrite (set_cloexec_open _ w1 (mkDescriptor (pipe_write 1) false))
      by (unfold P; look; reflexivity).
    rewrite (set_cloexec_open _ r2 (mkDescriptor (pipe_read 2) false))
      by (unfold P; look; reflexivity).
    rewrite (set_cloexec_open _ w2 (mkDescriptor (pipe_write 2) false))
      by (unfold P; look; reflexivity).
    reflexivity. }
  rewrite EQ. clear EQ.
  constructor; try (unfold T; look; reflexivity).
  - intros q ? ? ? ? ? ?. unfold T, P. look. reflexivity.
  - auto 10.
  - auto 10.
  - auto 10.
Qed.

(** X21: when the trainer starts with standard input and output open and
    every [execvp] succeeds, the four stages form a chain: each stage reads
    what the stage before it writes, the first keeps the trainer's standard
    input and the last its standard output, no stage holds any other pipe
    end, and the trainer ends with the descriptors it started with. *)
Theorem stages_are_wired (limit : nat) (fork_pid : nat -> Z)
    (exec_ok : nat -> bool) (t0 : fdtable) :
  t0 STDIN_FILENO <> None -> t0 STDOUT_FILENO <> None ->
  (forall n, exec_ok n = true) ->
  let '(ok, children, t) := run limit fork_pid exec_ok t0 in
  ok = true ->
  (exists c0 c1 c2 c3,
     children = [c0; c1; c2; c3]
     /\ stage t0 (exec t0 STDIN_FILENO) (writes 0) c0
     /\ stage t0 (reads 0) (writes 1) c1
     /\ stage t0 (reads 1) (writes 2) c2
     /\ stage t0 (reads 2) (exec t0 STDOUT_FILENO) c3)
  /\ forall q, t q = t0 q.
Proof.
  unfold STDIN_FILENO, STDOUT_FILENO. intros H0 H1 Hx. unfold run.
  destruct (pipe limit 0 t0) as [[[r0 w0] t1]|] eqn:P0; [|discriminate].
  destruct (pipe limit 1 t1) as [[[r1 w1] t2]|] eqn:P1; [|discriminate].
  destruct (pipe limit 2 t2) as [[[r2 w2] t3]|] eqn:P2; [|discriminate].
  pose proof (after_set_up limit t0 t1 t2 t3 r0 w0 r1 w1 r2 w2 P0 P1 P2) as F.
  clear P0 P1 P2.
  set (T := set_cloexec _ w2) in *. clearbody T.
  destruct F as [Tr0 Tw0 Tr1 Tw1 Tr2 Tw2 Tq
                   (D0 & E0 & D1 & E1 & D2 & E2)
                   (A0 & B0 & A1 & B1 & A2 & B2) _].
  assert (Z0 : r0 <> 0 /\ w0 <> 0 /\ r1 <> 0 /\ w1 <> 0 /\ r2 <> 0 /\ w2 <> 0)
    by (repeat split; intros ->; contradiction).
  assert (Z1 : r0 <> 1 /\ w0 <> 1 /\ r1 <> 1 /\ w1 <> 1 /\ r2 <> 1 /\ w2 <> 1)
    by (repeat split; intros ->; contradiction).
  destruct Z0 as (? & ? & ? & ? & ? & ?).
  destruct Z1 as (? & ? & ? & ? & ? & ?).
  assert (T0 : T 0 = t0 0) by (apply Tq; differ).
  assert (T1 : T 1 = t0 1) by (apply Tq; differ).
  assert (Tx : forall q, exec T q = exec t0 q).
  { intros q. unfold exec.
    destruct (Z.eq_dec q r0) as [->|?]; [rewrite Tr0, D0; reflexivity|].
    destruct (Z.eq_dec q w0) as [->|?]; [rewrite Tw0, E0; reflexivity|].
    destruct (Z.eq_dec q r1) as [->|?]; [rewrite Tr1, D1; reflexivity|].
    destruct (Z.eq_dec q w1) as [->|?]; [rewrite Tw1, E1; reflexivity|].
    destruct (Z.eq_dec q r2) as [->|?]; [rewrite Tr2, D2; reflexivity|].
    destruct (Z.eq_dec q w2) as [->|?]; [rewrite Tw2, E2; reflexivity|].
    rewrite Tq by assumption. reflexivity. }
  assert (Tc : forall q,
             close (close (close (close (close (close T r0) w0) r1) w1) r2)
               w2 q = t0 q).
  { intros q. unfold close, bind.
    destruct (Z.eqb_spec q w2) as [->|?]; [symmetry; exact E2|].
    destruct (Z.eqb_spec q r2) as [->|?]; [symmetry; exact D2|].
    destruct (Z.eqb_spec q w1) as [->|?]; [symmetry; exact E1|].
    destruct (Z.eqb_spec q r1) as [->|?]; [symmetry; exact D1|].
    destruct (Z.eqb_spec q w0) as [->|?]; [symmetry; exact E0|].
    destruct (Z.eqb_spec q r0) as [->|?]; [symmetry; exact D0|].
    apply Tq; assumption. }
  unfold spawn_child.
  destruct (fork_pid 0%nat <? 0) eqn:K0; cbv beta iota;
    [intros K; discriminate K|rewrite K0; cbv beta iota].
  destruct (fork_pid 1%nat <? 0) eqn:K1; cbv beta iota;
    [intros K; discriminate K|rewrite K1; cbv beta iota].
  destruct (fork_pid 2%nat <? 0) eqn:K2; cbv beta iota;
    [intros K; discriminate K|rewrite K2; cbv beta iota].
  destruct (fork_pid 3%nat <? 0) eqn:K3; cbv beta iota;
    [intros K; discriminate K|rewrite K3; cbv beta iota].
  intros _. rewrite !Hx. split; [|exact Tc].
  eexists _, _, _, _. split; [reflexivity|].
  unfold in_child, dup2, STDIN_FILENO, STDOUT_FILENO.
  change (0 <=? -1) with false. cbn [andb].
  rewrite !(proj2 (Z.leb_le 0 _)) by assumption.
  rewrite !(proj2 (Z.eqb_neq _ 0)) by assumption.
  rewrite !(proj2 (Z.eqb_neq _ 1)) by assumption.
  cbn [andb negb]. change (0 <? 0) with false. cbv iota.
  rewrite Tr0, Tw0, Tr1, Tr2. cbv beta iota.
  rewrite !(bind_other T 0) by assumption. rewrite Tw1, Tw2.
  cbn [target]. change (1 <? 0) with false. cbv beta iota.
  unfold stage, STDIN_FILENO, STDOUT_FILENO, reads, writes.
  repeat split; eexists; (split; [reflexivity|]);
    (split; [|split]);
    try (intros q Hq0 Hq1);
    unfold exec at 1; look; rewrite ?T0, ?T1; try reflexivity;
    apply Tx.
Qed.

Lemma stages_are_wired_witness :
  let '(ok, children, t) :=
    run 16 (fun n => 100 + Z.of_nat n) (fun _ => true) usual in
  (exists c0 c1 c2 c3,
     children = [c0; c1; c2; c3]
     /\ stage usual (exec usual STDIN_FILENO) (writes 0) c0
     /\ stage usual (reads 0) (writes 1) c1
     /\ stage usual (reads 1) (writes 2) c2
     /\ stage usual (reads 2) (exec usual STDOUT_FILENO) c3)
  /\ forall q, t q = usual q.
Proof.
  pose proof (stages_are_wired 16 (fun n => 100 + Z.of_nat n)
                (fun _ => true) usual) as H.
  assert (K : fst (fst (run 16 (fun n => 100 + Z.of_nat n) (fun _ => true)
                          usual)) = true) by reflexivity.
  destruct (run 16 _ _ usual) as [[ok children] t]. cbn [fst] in K.
  apply H; [discriminate|discriminate|reflexivity|exact K].
Defined.

(** *** A trainer that is started without a standard input *)

Lemma lowest_free_first (t : fdtable) (limit : nat) (fd : Z) :
  t 0 = None -> lowest_free t 0 limit = Some fd -> fd = 0.
Proof.
  intros H. destruct limit as [|f]; [discriminate|].
  cbn [lowest_free]. rewrite H. intros E. injection E as <-. reflexivity.
Qed.

(** X22: when the trainer is started with standard input closed, the first
    pipe's read end is descriptor 0, [spawn_child] does not duplicate it, and
    forward_layer starts without a standard input. *)
Theorem closed_stdin_is_not_replaced (limit : nat) (fork_pid : nat -> Z)
    (exec_ok : nat -> bool) (t0 : fdtable) :
  t0 STDIN_FILENO = None ->
  let '(ok, children, _) := run limit fork_pid exec_ok t0 in
  ok = true ->
  forall t, nth 1 children None = Some t -> t STDIN_FILENO = None.
Proof.
  unfold STDIN_FILENO. intros H0. unfold run.
  destruct (pipe limit 0 t0) as [[[r0 w0] t1]|] eqn:P0; [|discriminate].
  destruct (pipe limit 1 t1) as [[[r1 w1] t2]|] eqn:P1; [|discriminate].
  destruct (pipe limit 2 t2) as [[[r2 w2] t3]|] eqn:P2; [|discriminate].
  pose proof (after_set_up limit t0 t1 t2 t3 r0 w0 r1 w1 r2 w2 P0 P1 P2) as F.
  assert (R : r0 = 0).
  { unfold pipe in P0. destruct (lowest_free t0 0 limit) as [r|] eqn:E;
      [|discriminate].
    apply (lowest_free_first _ _ _ H0) in E. subst r.
    destruct (lowest_free (bind t0 0 _) 0 limit); [|discriminate].
    injection P0 as <- _ _. reflexivity. }
  subst r0. clear P0 P1 P2.
  set (T := set_cloexec _ w2) in *. clearbody T.
  destruct F as [Tr0 _ _ Tw1 _ _ _ _ (_ & _ & _ & B1 & _) (_ & _ & W1 & _)].
  unfold spawn_child.
  destruct (fork_pid 0%nat <? 0) eqn:K0; cbv beta iota;
    [intros K; discriminate K|rewrite K0; cbv beta iota].
  destruct (fork_pid 1%nat <? 0) eqn:K1; cbv beta iota;
    [intros K; discriminate K|rewrite K1; cbv beta iota].
  destruct (fork_pid 2%nat <? 0) eqn:K2; cbv beta iota;
    [intros K; discriminate K|rewrite K2; cbv beta iota].
  destruct (fork_pid 3%nat <? 0) eqn:K3; cbv beta iota;
    [intros K; discriminate K|rewrite K3; cbv beta iota].
  intros _ t. cbn [app nth].
  unfold in_child, dup2, STDIN_FILENO, STDOUT_FILENO.
  change ((0 <=? 0) && negb (0 =? 0)) with false. cbv beta iota.
  change (0 <? 0) with false. cbv beta iota.
  rewrite Tw1.
  destruct ((0 <=? w1) && negb (w1 =? 1)); cbv beta iota.
  - destruct (Z.eqb_spec w1 1) as [->|N]; cbv beta iota.
    + change (1 <? 0) with false. cbv iota.
      destruct (exec_ok 1%nat); [|discriminate].
      intros E. injection E as <-. unfold exec. rewrite Tr0. reflexivity.
    + change (1 <? 0) with false. cbv iota.
      destruct (exec_ok 1%nat); [|discriminate].
      intros E. injection E as <-. unfold exec.
      rewrite bind_other by discriminate. rewrite Tr0. reflexivity.
  - change (0 <? 0) with false. cbv iota.
    destruct (exec_ok 1%nat); [|discriminate].
    intros E. injection E as <-. unfold exec. rewrite Tr0. reflexivity.
Qed.

Lemma closed_stdin_is_not_replaced_witness :
  let t0 := bind usual 0 None in
  let '(_, children, _) :=
    run 16 (fun n => 100 + Z.of_nat n) (fun _ => true) t0 in
  forall t, nth 1 children None = Some t -> t STDIN_FILENO = None.
Proof.
  intros t0.
  pose proof (closed_stdin_is_not_replaced 16 (fun n => 100 + Z.of_nat n)
                (fun _ => true) t0 eq_refl) as H.
  assert (K : fst (fst (run 16 (fun n => 100 + Z.of_nat n) (fun _ => true)
                          t0)) = true) by reflexivity.
  destruct (run 16 _ _ t0) as [[ok children] t]. cbn [fst] in K.
  exact (H K).
Defined.
End plumbing_facts.

(** ** trainer: failures of the set-up *)

Module setup_facts.
Import text sys_wait trainer trainer_spec trainer_facts.
Local Open Scope string_scope.
Local Open Scope Z_scope.

Ltac one_line :=
  split; [reflexivity|]; split; [|reflexivity];
  eexists; split; [reflexivity|]; cbn [In]; auto 6.

Ltac fork_case o n :=
  let F := fresh "F" in
  destruct (fork_pid o n <? 0) eqn:F; cbv beta iota;
  [change (-1 <? 0) with true; cbv beta iota; cbn [app]; one_line
  |rewrite F; cbv beta iota].

(** X23: when a [pipe] or a [fork] fails, [trainer::run] returns 1, makes
    exactly one [perror] call, and does not wait: children that were already
    started are left behind, whatever they do. *)
Theorem failed_set_up_waits_for_nobody (o : os) (csv_path : string) :
  setup_ok o = false ->
  fst (run o csv_path) = 1
  /\ (exists call, snd (run o csv_path) = [call]
                   /\ In call ["pipe pre->fwd"; "pipe fwd->bwd";
                               "pipe bwd->log"; "fork"])
  /\ forall ws, run (mkOs (pipe_ok o) (fork_pid o) ws) csv_path
                = run o csv_path.
Proof.
  intros H. unfold run, spawn_child. cbn [pipe_ok fork_pid waits].
  destruct (pipe_ok o 0) eqn:P0; cbn [negb]; [|one_line].
  destruct (pipe_ok o 1) eqn:P1; cbn [negb]; [|one_line].
  destruct (pipe_ok o 2) eqn:P2; cbn [negb]; [|one_line].
  fork_case o 0%nat. fork_case o 1%nat. fork_case o 2%nat. fork_case o 3%nat.
  exfalso. unfold setup_ok in H. rewrite P0, P1, P2 in H.
  rewrite negative_pid in F, F0, F1, F2.
  apply negb_false_iff in F, F0, F1, F2.
  rewrite F, F0, F1, F2 in H. discriminate H.
Qed.

Lemma failed_set_up_waits_for_nobody_witness :
  run (mkOs (fun _ => true) (fun n => if (n =? 2)%nat then -1 else 100)
         [(100, 0); (100, 0)]) "data.csv"
  = (1, ["fork"]).
Proof.
  pose proof (failed_set_up_waits_for_nobody
                (mkOs (fun _ => true)
                   (fun n => if (n =? 2)%nat then -1 else 100)
                   [(100, 0); (100, 0)]) "data.csv" eq_refl)
    as (H1 & (call & H2 & _) & _).
  rewrite (surjective_pairing (run _ _)), H1. reflexivity.
Defined.
End setup_facts.

(** ** A model that has diverged *)

Module model_file_facts.
Import ieee text text_facts common math math_spec persistence_spec float_spec.
Import numeral_spec numeral_facts load_spec load_facts learner_facts.
Import model_file_spec.
Local Open Scope string_scope.
Local Open Scope Z_scope.

Lemma skipws_all_space (w s : string) :
  all_space w = true -> skipws (w ++ s) = skipws s.
Proof.
  induction w as [|c w IH]; [reflexivity|]. cbn [all_space append skipws].
  intros H. apply andb_true_iff in H. destruct H as [Hc Hw].
  rewrite Hc. apply IH, Hw.
Qed.

Lemma extract_float_all_space (w s : string) :
  all_space w = true -> extract_float (w ++ s) = extract_float s.
Proof.
  intros H. rewrite !extract_float_scan, (skipws_all_space w s H). reflexivity.
Qed.

(** An infinity or a NaN, as it is written, is not read. *)
Lemma nonfinite_is_not_read (w : string) (v : float32) (rest : string) :
  all_space w = true -> finite v = false ->
  extract_float (w ++ put_float v ++ rest) = Bad f32_zero.
Proof.
  intros Hw F. rewrite (extract_float_all_space w _ Hw).
  destruct v as [s|s| |s m e]; try discriminate; try destruct s; reflexivity.
Qed.

(** A number that was written with a blank behind it is read whole, or
    the read fails. *)
Lemma written_is_read_whole (w : string) (v : float32) (rest : string) :
  all_space w = true -> ends rest ->
  read_whole (extract_float (w ++ put_float v ++ rest)) rest.
Proof.
  intros Hw Hr. rewrite (extract_float_all_space w _ Hw).
  rewrite <- (extract_float_all_space " " (put_float v ++ rest) eq_refl).
  apply (reread_float v rest Hr).
Qed.

Lemma next_failed (ifs : ifstream) :
  failbit ifs = true -> failbit (next ifs) = true.
Proof.
  intros H. destruct (failbit (next ifs)) eqn:E; [reflexivity|].
  apply next_live in E. congruence.
Qed.

Lemma nexts_failed (n : nat) (ifs : ifstream) :
  failbit ifs = true -> failbit (nexts n ifs) = true.
Proof.
  intros H. induction n as [|n IH]; [exact H|]. apply next_failed, IH.
Qed.

Lemma nexts_first (n : nat) (ifs : ifstream) :
  nexts (S n) ifs = nexts n (next ifs).
Proof.
  change (S n) with (1 + n)%nat. rewrite Nat.add_comm, nexts_add.
  reflexivity.
Qed.

(** One read in front of a written number. *)
Lemma next_entry (w : string) (v : float32) (rest : string) :
  all_space w = true ->
  let ifs := {| left := w ++ put_float v ++ rest; failbit := false |} in
  (finite v = false -> failbit (next ifs) = true)
  /\ (ends rest ->
      failbit (next ifs) = true
      \/ next ifs = {| left := rest; failbit := false |}).
Proof.
  intros Hw ifs. unfold next, read. cbn [failbit left ifs]. split.
  - intros F. rewrite (nonfinite_is_not_read w v rest Hw F). reflexivity.
  - intros Hr.
    destruct (written_is_read_whole w v rest Hw Hr) as [[u E]|[u E]];
      rewrite E; [right|left]; reflexivity.
Qed.

(** Reading as many numbers as were written, one of which is not finite,
    fails. *)
Lemma reads_fail (es : list (float32 * string)) (r : string) :
  Forall spaced_off es ->
  forallb (fun e => finite (fst e)) es = false ->
  forall w, all_space w = true ->
  failbit (nexts (length es)
             {| left := w ++ text es r; failbit := false |}) = true.
Proof.
  induction es as [|[v sp] es IH]; intros Hs Hf w Hw; [discriminate Hf|].
  inversion Hs as [|e l [t [Et At]] Hs']; subst. cbn [snd] in Et. subst sp.
  cbn [length text fold_right fst snd]. fold (text es r).
  rewrite nexts_first.
  destruct (next_entry w v (String " " t ++ text es r) Hw) as [Hbad Hgood].
  cbn zeta in Hbad, Hgood.
  destruct (finite v) eqn:F.
  - cbn [forallb fst] in Hf. rewrite F in Hf. cbn [andb] in Hf.
    destruct Hgood as [B|G].
    + right. eexists. reflexivity.
    + apply nexts_failed, B.
    + rewrite G. apply (IH Hs' Hf (String " " t)).
      cbn [all_space]. exact At.
  - apply nexts_failed, Hbad. reflexivity.
Qed.

(** Reading the numbers that were written either fails or arrives behind
    them. *)
Lemma reads_arrive (es : list (float32 * string)) (r : string) :
  Forall spaced_off es ->
  forall w, all_space w = true ->
  let ifs := nexts (length es)
               {| left := w ++ text es r; failbit := false |} in
  failbit ifs = true
  \/ exists w', all_space w' = true
                /\ ifs = {| left := w' ++ r; failbit := false |}.
Proof.
  induction es as [|[v sp] es IH]; intros Hs w Hw.
  - right. exists w. split; [exact Hw|reflexivity].
  - inversion Hs as [|e l [t [Et At]] Hs']; subst. cbn [snd] in Et. subst sp.
    cbn [length text fold_right fst snd]. fold (text es r).
    rewrite nexts_first.
    destruct (next_entry w v (String " " t ++ text es r) Hw) as [_ Hgood].
    cbn zeta in Hgood.
    destruct Hgood as [B|G].
    + right. eexists. reflexivity.
    + left. apply nexts_failed, B.
    + rewrite G. apply (IH Hs' (String " " t)).
      cbn [all_space]. exact At.
Qed.

Lemma serialize_text (p : Params) :
  serialize p = "8 4" ++ nl ++ text (entries p) "".
Proof.
  cbv [serialize entries body text for_ fold_left fold_right flat_map map seq app
       HIDDEN_DIM INPUT_DIM Nat.eqb fst snd behind].
  change (put_nat (Z.of_nat 8) "") with "8".
  change (put_nat (Z.of_nat 4) "") with "4".
  rewrite !append_assoc. reflexivity.
Qed.
Lemma text_app (a b : list (float32 * string)) (r : string) :
  text (a ++ b) r = text a (text b r).
Proof. unfold text. apply fold_right_app. Qed.

Lemma body_spaced_off (p : Params) : Forall spaced_off (body p).
Proof.
  cbv [body flat_map map seq app HIDDEN_DIM INPUT_DIM Nat.eqb behind].
  repeat constructor; eexists; split; reflexivity.
Qed.

(** The numbers of a list that is spaced off, and one more. *)
Lemma reads_fail_last (es : list (float32 * string)) (v : float32)
    (sp r w : string) :
  Forall spaced_off es -> all_space w = true ->
  forallb (fun e => finite (fst e)) (es ++ [(v, sp)]) = false ->
  failbit (nexts (S (length es))
             {| left := w ++ text (es ++ [(v, sp)]) r; failbit := false |})
  = true.
Proof.
  intros Hs Hw Hf. rewrite text_app, nexts_S.
  rewrite forallb_app in Hf. cbn [forallb fst] in Hf.
  rewrite andb_true_r in Hf. apply andb_false_iff in Hf.
  destruct Hf as [Hf|Hf].
  - apply next_failed, reads_fail; assumption.
  - destruct (reads_arrive es (text [(v, sp)] r) Hs w Hw) as [B|[w' [Hw' E]]].
    + apply next_failed, B.
    + rewrite E. cbn [text fold_right fst snd].
      apply (proj1 (next_entry w' v (sp ++ r) Hw')), Hf.
Qed.

Lemma diverged_file_is_refused (p : Params) :
  params_finite p = false -> accepted (serialize p) = false.
Proof.
  intros Hf. unfold accepted. rewrite serialize_text.
  generalize (eq_refl (text (entries p) "")).
  generalize (text (entries p) "") at 2 3. intros X EX.
  change (read extract_size_t
            ({| left := "8 4" ++ nl ++ X; failbit := false |}, 0))
    with ({| left := " 4" ++ nl ++ X; failbit := false |}, 8).
  cbv beta iota.
  change (read extract_size_t
            ({| left := " 4" ++ nl ++ X; failbit := false |}, 0))
    with ({| left := nl ++ X; failbit := false |}, 4).
  cbv beta iota. cbn [failbit orb negb].
  change (8 =? Z.of_nat HIDDEN_DIM) with true.
  change (4 =? Z.of_nat INPUT_DIM) with true.
  cbn [negb orb]. subst X. apply negb_false_iff.
  apply (reads_fail_last (body p) (g_b2 p) nl "" nl (body_spaced_off p)
           eq_refl Hf).
Qed.

(** X24: parameters of which one is an infinity or a NaN are saved without
    complaint, and the file that [save_parameters] has written is one that
    [load_parameters] refuses. *)
Theorem diverged_model_is_not_loaded (b : Z) (p p0 : Params) (d : disk)
    (path : string) :
  writable d path = true -> shaped p0 ->
  params_finite p = false ->
  let '(ok, d', _) := save_parameters b p d path in
  ok = true /\ fst (load_parameters p0 d' path) = false.
Proof.
  intros Hw Hs Hf. pose proof (saved b p d path) as H.
  destruct (save_parameters b p d path) as [[ok d'] tr].
  destruct H as (Hok & _ & Hc). rewrite Hw in Hok, Hc.
  split; [exact Hok|].
  rewrite (proj1 (load_shaped p0 d' path (serialize p) Hs Hc)).
  apply diverged_file_is_refused, Hf.
Qed.

Lemma diverged_model_is_not_loaded_witness :
  let p := mkParams (g_W1 initial_params) (g_b1 initial_params)
             (g_w2 initial_params) (S754_infinity false) in
  let '(ok, d', _) := save_parameters 8192 p empty_disk "model" in
  ok = true /\ fst (load_parameters initial_params d' "model") = false.
Proof.
  intros p.
  apply (diverged_model_is_not_loaded 8192 p initial_params empty_disk
           "model").
  - reflexivity.
  - repeat split; repeat constructor.
  - vm_compute. reflexivity.
Defined.
End model_file_facts.
